(** * The Rome API facade (api-rome.cpp): a shallow embedding

    The exported functions of [api-rome.cpp] validate their arguments, call
    into the application core (attribute store, calculation engine, file
    system) and turn every fault into a failure sentinel plus a thread-local
    error string.  The core itself lives in other translation units; it
    appears here as a record of collaborators over an opaque model type, and
    every call into it that reads or writes the model or the engine is
    recorded in a trace, in program order.  Predicates over catalog metadata
    ([IsDimension], [CanUserResize], [IsValidUnits], [GetListing], ...) and
    logging are not recorded. *)

From Stdlib Require Import ZArith String Ascii List Bool Lia DecimalString.
From stdpp Require Import gmap strings.
Import ListNotations.

Local Open Scope Z_scope.
Local Open Scope string_scope.

(** ** C values *)

Definition RX_TRUE : Z := 1.
Definition RX_FALSE : Z := 0.
Definition RX_FAILURE : Z := -1.

(** [(RT_SHORT)n] for an [int] n: the value is reduced to 16 bits, two's
    complement. *)
Definition to_short (n : Z) : Z := (n + 32768) mod 65536 - 32768.

(** 32-bit [int] arithmetic, two's complement. *)
Definition to_int (n : Z) : Z := (n + 2147483648) mod 4294967296 - 2147483648.

Definition INT_MAX : Z := 2147483647.

(** The line feed of the C literal with a backslash n. *)
Definition LF : string := String "010"%char EmptyString.

(** [strempty(psz)]: a NULL pointer or an empty C string. *)
Definition strempty (psz : option string) : bool :=
  match psz with
  | None => true
  | Some EmptyString => true
  | Some (String _ _) => false
  end.

(** ** Session state *)

Inductive DllState := DLLSTATE_INITARGS | DLLSTATE_INITROME | DLLSTATE_CLOSED.

Definition DllState_eqb (a b : DllState) : bool :=
  match a, b with
  | DLLSTATE_INITARGS, DLLSTATE_INITARGS => true
  | DLLSTATE_INITROME, DLLSTATE_INITROME => true
  | DLLSTATE_CLOSED, DLLSTATE_CLOSED => true
  | _, _ => false
  end.

(** The pending-update stack of the calculation engine and its auto-run
    flag. [Task] is the type of delayed recalculation tasks. *)
Record CEngine (Task : Type) := mkEngine {
  m_stack : list Task;
  m_bUpdating : bool;
  m_nLockCount : Z
}.
Arguments mkEngine {Task}.
Arguments m_stack {Task}.
Arguments m_bUpdating {Task}.
Arguments m_nLockCount {Task}.

Record CRomeCore (Task : Type) := mkCore {
  m_nFlags : list DllState;
  m_nThreadId : Z;
  m_sCommandLine : option string;
  Engine : CEngine Task
}.
Arguments mkCore {Task}.
Arguments m_nFlags {Task}.
Arguments m_nThreadId {Task}.
Arguments m_sCommandLine {Task}.
Arguments Engine {Task}.

Definition HasFlag {Task} (core : CRomeCore Task) (f : DllState) : bool :=
  existsb (DllState_eqb f) (m_nFlags core).

(** A [RT_App*] argument: NULL, the address of the one global [App], or any
    other address. *)
Inductive AppPtr := AppNull | AppGlobal | AppOther.

Definition is_AppGlobal (p : AppPtr) : bool :=
  match p with AppGlobal => true | _ => false end.

Definition is_AppNull (p : AppPtr) : bool :=
  match p with AppNull => true | _ => false end.

(** What a [CFileObj*] argument points to, as far as the facade looks at it. *)
Record CFileObj := mkFile {
  f_core_is_App : bool;   (* &pFile->Core == &App *)
  f_IsValid : bool;       (* CFileObj::IsValid(pFile) *)
  m_nRomeRefs : Z;
  f_FileName : string;    (* pFile->GetFileName() *)
  f_ObjTypeName : string; (* pFile->GetObjType()->GetName() *)
  f_IsEmpty : bool        (* pFile->IsEmpty() *)
}.

(** Compile-time configuration of the translation unit. *)
Record Config := mkConfig {
  USE_ROMEAPI_THREADIdS : bool;
  USE_ROMEAPI_REFCOUNT : bool;
  USE_ROMEAPI_ZEROATTRSIZE : bool;
  MAX_SETSTR_SIZE : Z
}.

(** Calls into the core, in program order. *)
Inductive Event (CAttr : Type) :=
| EvFinishUpdates
| EvFindOrCreate (name : string)
| EvSetActiveObj
| EvLockUpdate
| EvUnlockUpdate
| EvGetSize (a : CAttr)
| EvDimGetSize (a : CAttr) (nDim : Z)
| EvAttrGetIndex (a : CAttr)
| EvAttrGetStr (a : CAttr) (nIndex : Z)
| EvUserCmdResizeDim (pDim : option CAttr) (nIndex : Z) (bDelete : bool)
| EvDoCmdSetStr (a : CAttr) (value : string) (nIndex : Z).
Arguments EvFinishUpdates {CAttr}.
Arguments EvFindOrCreate {CAttr}.
Arguments EvSetActiveObj {CAttr}.
Arguments EvLockUpdate {CAttr}.
Arguments EvUnlockUpdate {CAttr}.
Arguments EvGetSize {CAttr}.
Arguments EvDimGetSize {CAttr}.
Arguments EvAttrGetIndex {CAttr}.
Arguments EvAttrGetStr {CAttr}.
Arguments EvUserCmdResizeDim {CAttr}.
Arguments EvDoCmdSetStr {CAttr}.

(** The process as one API call sees it. [cur_thread] is what
    [GetCurrentThreadId()] returns during the call; [named_strings] holds the
    thread-local named strings of [RomeThreadGetNamedString], keyed by thread
    and name; [model] is the attribute store behind the facade. *)
Record World (Model Task CAttr : Type) := mkWorld {
  App : CRomeCore Task;
  cur_thread : Z;
  named_strings : gmap (Z * string) string;
  trace : list (Event CAttr);
  model : Model
}.
Arguments mkWorld {Model Task CAttr}.
Arguments App {Model Task CAttr}.
Arguments cur_thread {Model Task CAttr}.
Arguments named_strings {Model Task CAttr}.
Arguments trace {Model Task CAttr}.
Arguments model {Model Task CAttr}.

(** ** Control flow of an API function body

    A body either falls through with a value, leaves the function with
    [return r], or throws. *)
Inductive Outcome (R A : Type) :=
| Next (a : A)
| Return (r : R)
| Raise.
Arguments Next {R A}.
Arguments Return {R A}.
Arguments Raise {R A}.

Definition M (W R A : Type) := W -> Outcome R A * W.

Definition ret {W R A} (a : A) : M W R A := fun w => (Next a, w).

Definition bind {W R A B} (m : M W R A) (f : A -> M W R B) : M W R B :=
  fun w =>
    match m w with
    | (Next a, w') => f a w'
    | (Return r, w') => (Return r, w')
    | (Raise, w') => (Raise, w')
    end.

Definition return_ {W R A} (r : R) : M W R A := fun w => (Return r, w).
Definition throw {W R A} : M W R A := fun w => (Raise, w).
Definition get {W R} : M W R W := fun w => (Next w, w).
Definition put {W R} (w : W) : M W R unit := fun _ => (Next tt, w).

Declare Scope api_scope.
Delimit Scope api_scope with api.
Notation "x <- c1 ;; c2" := (bind c1 (fun x => c2))
  (at level 100, c1 at next level, right associativity) : api_scope.
Notation "c1 ;; c2" := (bind c1 (fun _ => c2))
  (at level 100, right associativity) : api_scope.

(** [try { body } catch (...) { handler }] where both return a value of the
    function's return type. *)
Definition try_catch {W R} (body : M W R R) (handler : W -> R * W) : W -> R * W :=
  fun w =>
    match body w with
    | (Next r, w') => (r, w')
    | (Return r, w') => (r, w')
    | (Raise, w') => handler w'
    end.

(** Dereferencing a pointer: a NULL pointer faults. *)
Definition deref {W R A} (p : option A) : M W R A :=
  match p with
  | Some a => ret a
  | None => throw
  end.


(** Does the text start with one of the prefix characters of
    [RomeSetLastError]? *)
Definition has_prefix_char (text : string) : bool :=
  match text with
  | String "+"%char _ | String "-"%char _ | String "="%char _ => true
  | _ => false
  end.

(** ** The application core behind the facade

    None of these is defined in api-rome.cpp. A result of [None] is a C++
    exception leaving the call; the lists of tasks are the recalculations
    that the call throws on the engine's stack. *)
Record Collab (Model Task CAttr CListing : Type) := mkCollab {
  RunTask : Task -> Model -> Model;
  FindOrCreate_ : string -> CFileObj -> Model -> option (option CAttr * Model * list Task);
  GetSize_ : CAttr -> Model -> Z;
  DimGetSize_ : CAttr -> Z -> Model -> Z;
  IsDimension : CAttr -> bool;
  CanUserResize : CAttr -> bool;
  IsValidUnits : CAttr -> string -> bool;
  GetDimPtr : CAttr -> Z -> option CAttr;
  AttrGetIndex_ : CAttr -> Z -> Model -> Z;
  AttrGetStr_ : CAttr -> Z -> Z -> string -> Model -> option (option string);
  UserCmdResizeDim_ : option CAttr -> string -> Z -> bool -> Model -> option (Z * Model * list Task);
  DoCmdSetStr_ : CAttr -> string -> Z -> Z -> string -> Model -> option (Z * Model * list Task);
  GetListing : string -> option CListing;
  IsValidObject : CListing -> string -> bool;
  Int2Str : Z -> string;
  FormatPtr : option CFileObj -> string;
  ParseArgs : option string -> option (list string);
  CoreInit : list string -> CRomeCore Task -> Model -> option (AppPtr * CRomeCore Task * Model);
  CoreExit : CRomeCore Task -> Model -> option (Z * CRomeCore Task * Model)
}.
Arguments RunTask {Model Task CAttr CListing}.
Arguments FindOrCreate_ {Model Task CAttr CListing}.
Arguments GetSize_ {Model Task CAttr CListing}.
Arguments DimGetSize_ {Model Task CAttr CListing}.
Arguments IsDimension {Model Task CAttr CListing}.
Arguments CanUserResize {Model Task CAttr CListing}.
Arguments IsValidUnits {Model Task CAttr CListing}.
Arguments GetDimPtr {Model Task CAttr CListing}.
Arguments AttrGetIndex_ {Model Task CAttr CListing}.
Arguments AttrGetStr_ {Model Task CAttr CListing}.
Arguments UserCmdResizeDim_ {Model Task CAttr CListing}.
Arguments DoCmdSetStr_ {Model Task CAttr CListing}.
Arguments GetListing {Model Task CAttr CListing}.
Arguments IsValidObject {Model Task CAttr CListing}.
Arguments Int2Str {Model Task CAttr CListing}.
Arguments FormatPtr {Model Task CAttr CListing}.
Arguments ParseArgs {Model Task CAttr CListing}.
Arguments CoreInit {Model Task CAttr CListing}.
Arguments CoreExit {Model Task CAttr CListing}.

(** [strieq]: equality of C strings without regard to the case of ASCII
    letters. *)
Definition to_upper (c : ascii) : ascii :=
  let n := nat_of_ascii c in
  if (97 <=? n)%nat && (n <=? 122)%nat then ascii_of_nat (n - 32) else c.

Fixpoint strieq (a b : string) : bool :=
  match a, b with
  | EmptyString, EmptyString => true
  | String x a', String y b' => Ascii.eqb (to_upper x) (to_upper y) && strieq a' b'
  | _, _ => false
  end.

Definition strlen (s : string) : Z := Z.of_nat (String.length s).

Definition isSome {A} (o : option A) : bool :=
  match o with Some _ => true | None => false end.

(** ** The facade over a given core *)

Section Facade.

Context {Model Task CAttr CListing : Type}.
Variable cfg : Config.
Variable core : Collab Model Task CAttr CListing.

Abbreviation World := (World Model Task CAttr).
Abbreviation API R := (World -> R * World).

Local Open Scope api_scope.

(** *** Thread-local named strings *)

Definition RomeThreadGetNamedString (name : string) (w : World) : string :=
  default EmptyString (named_strings w !! (cur_thread w, name)).

Definition RomeThreadSetNamedString (name : string) (s : string) (w : World) : World :=
  mkWorld (App w) (cur_thread w)
          (<[(cur_thread w, name) := s]> (named_strings w))
          (trace w) (model w).

Definition GetCurrentThreadId {R} : M World R Z :=
  fun w => (Next (cur_thread w), w).

Definition set_m_nThreadId (t : Z) (w : World) : World :=
  mkWorld (mkCore (m_nFlags (App w)) t (m_sCommandLine (App w)) (Engine (App w)))
          (cur_thread w) (named_strings w) (trace w) (model w).

(** *** The error channel *)

(** The editing step of [RomeSetLastError]: the new contents of the buffer
    from the old contents [sInfo] and the argument [pszInfo]. The branch
    without a prefix character is the one compiled in ([#if 0 ... #else]). *)
Definition edit_error (sInfo : string) (pszInfo : option string) : string :=
  match pszInfo with
  | None => EmptyString
  | Some (String "+"%char rest) =>
      if negb (strempty (Some sInfo)) then (sInfo ++ LF) ++ rest else rest
  | Some (String "-"%char rest) =>
      if negb (strempty (Some sInfo)) then rest ++ (LF ++ sInfo) else rest
  | Some (String "="%char rest) => rest
  | Some info => info
  end.

(** [ASSERT_OR_RETURN_FALSE(cond)] and its siblings without an error text. *)
Definition ASSERT_OR_RETURN {R} (cond : bool) (sentinel : R) : M World R unit :=
  if cond then ret tt else return_ sentinel.

(** The assertion on the old error text, compiled only with [_DEBUG], is
    left out. *)
Definition RomeSetLastError (pApp : AppPtr) (pszInfo : option string) : API Z :=
  try_catch
    ((if negb (is_AppNull pApp) then
        let bValidApp := is_AppGlobal pApp in
        ASSERT_OR_RETURN bValidApp RX_FALSE ;;
        w <- get ;;
        let bExited := HasFlag (App w) DLLSTATE_CLOSED in
        ASSERT_OR_RETURN (negb bExited) RX_FALSE ;;
        if USE_ROMEAPI_THREADIdS cfg then
          nCurThreadId <- GetCurrentThreadId ;;
          let bSameThread := Z.eqb (m_nThreadId (App w)) nCurThreadId in
          ASSERT_OR_RETURN (negb bSameThread) RX_FALSE
        else ret tt
      else ret tt) ;;
     w <- get ;;
     let sInfo := RomeThreadGetNamedString "RomeGetLastError" w in
     let sInfo := edit_error sInfo pszInfo in
     put (RomeThreadSetNamedString "RomeGetLastError" sInfo w) ;;
     return_ RX_TRUE)
    (fun w => (RX_FALSE, w)).

Definition RomeGetLastError (pApp : AppPtr) : API (option string) :=
  try_catch
    (let bValidApp := is_AppNull pApp || is_AppGlobal pApp in
     ASSERT_OR_RETURN bValidApp None ;;
     w <- get ;;
     let bExited := HasFlag (App w) DLLSTATE_CLOSED in
     ASSERT_OR_RETURN (negb bExited) None ;;
     (if USE_ROMEAPI_THREADIdS cfg then
        nCurThreadId <- GetCurrentThreadId ;;
        (* the source assigns here: (App.m_nThreadId = nCurThreadId) *)
        put (set_m_nThreadId nCurThreadId w) ;;
        let bSameThread := negb (Z.eqb nCurThreadId 0) in
        ASSERT_OR_RETURN (negb bSameThread)
          (Some "RomeGetLastError: Rome API function called on different thread from RomeInit().")
      else ret tt) ;;
     w <- get ;;
     return_ (Some (RomeThreadGetNamedString "RomeGetLastError" w)))
    (fun w => (None, w)).

(** Modelled from the spec: the macros [ASSERT_OR_SETERROR_AND_RETURN_*] of
    api-rome-priv.h are not in the sources. When the condition fails the
    function sets the thread-local error string to the text, with the prefix
    rules of [RomeSetLastError], and returns its failure sentinel. *)
Definition SetLastError (text : string) (w : World) : World :=
  RomeThreadSetNamedString "RomeGetLastError"
    (edit_error (RomeThreadGetNamedString "RomeGetLastError" w) (Some text)) w.

Definition ASSERT_OR_SETERROR_AND_RETURN {R} (cond : bool) (text : string) (sentinel : R)
  : M World R unit :=
  if cond then ret tt else fun w => (Return sentinel, SetLastError text w).

Definition ASSERT_OR_SETERROR_AND_RETURN_FAILURE (cond : bool) (text : string)
  : M World Z unit :=
  ASSERT_OR_SETERROR_AND_RETURN cond text RX_FAILURE.

Definition ASSERT_OR_SETERROR_AND_RETURN_FALSE (cond : bool) (text : string)
  : M World Z unit :=
  ASSERT_OR_SETERROR_AND_RETURN cond text RX_FALSE.

(** In a function that returns an integer, [return NULL] returns 0. *)
Definition ASSERT_OR_SETERROR_AND_RETURN_NULL_int (cond : bool) (text : string)
  : M World Z unit :=
  ASSERT_OR_SETERROR_AND_RETURN cond text 0.

Definition ASSERT_OR_SETERROR_AND_RETURN_NULL {A} (cond : bool) (text : string)
  : M World (option A) unit :=
  ASSERT_OR_SETERROR_AND_RETURN cond text None.

(** The checks of [RomeSetLastError] on its session argument: a NULL pointer
    skips them all. *)
Definition error_call_accepted (pApp : AppPtr) (w : World) : bool :=
  is_AppNull pApp ||
  (is_AppGlobal pApp && negb (HasFlag (App w) DLLSTATE_CLOSED) &&
   (negb (USE_ROMEAPI_THREADIdS cfg) || negb (Z.eqb (m_nThreadId (App w)) (cur_thread w)))).

(** The last error of the calling thread. *)
Definition last_error (w : World) : string :=
  RomeThreadGetNamedString "RomeGetLastError" w.

(** *** Calls into the core *)

Definition log_event {R} (e : Event CAttr) : M World R unit :=
  fun w => (Next tt,
            mkWorld (App w) (cur_thread w) (named_strings w) (trace w ++ [e])%list (model w)).

Definition set_Engine (e : CEngine Task) (c : CRomeCore Task) : CRomeCore Task :=
  mkCore (m_nFlags c) (m_nThreadId c) (m_sCommandLine c) e.

(** The state of the core after a call that left the model [m] and threw
    [ts] on the stack. *)
Definition core_effect (m : Model) (ts : list Task) (w : World) : World :=
  let e := Engine (App w) in
  mkWorld (set_Engine (mkEngine (ts ++ m_stack e)%list (m_bUpdating e) (m_nLockCount e)) (App w))
          (cur_thread w) (named_strings w) (trace w) m.

(** Modelled from the spec: [CEngineBase::FinishUpdates] is not in the
    sources. This is the drain that completes, as the spec and the comment
    on [RomeEngineFinishUpdates] describe it: it finishes running the update
    stack until it is empty, whether or not auto-update is on, and leaves
    the auto-update state unchanged. What the drain does on a locked engine
    (a comment in [RomeFileSetAttrValueAux] says that it needs an unlocked
    one to run correctly) and its failure, a fatal error of the engine, are
    in neither the sources nor this definition. *)
Definition drain (w : World) : World :=
  let e := Engine (App w) in
  mkWorld (set_Engine (mkEngine [] (m_bUpdating e) (m_nLockCount e)) (App w))
          (cur_thread w) (named_strings w) (trace w)
          (fold_left (fun m t => RunTask core t m) (m_stack e) (model w)).

Definition FinishUpdates {R} : M World R unit :=
  log_event EvFinishUpdates ;;
  w <- get ;;
  put (drain w).

(** [CUpdateLock]: the constructor raises the lock count of the engine, the
    destructor lowers it. *)
Definition set_lock (d : Z) (w : World) : World :=
  let e := Engine (App w) in
  mkWorld (set_Engine (mkEngine (m_stack e) (m_bUpdating e) (m_nLockCount e + d)) (App w))
          (cur_thread w) (named_strings w) (trace w) (model w).

Definition LockUpdate {R} : M World R unit :=
  log_event EvLockUpdate ;; w <- get ;; put (set_lock 1 w).

Definition UnlockUpdate {R} : M World R unit :=
  log_event EvUnlockUpdate ;; w <- get ;; put (set_lock (-1) w).

(** A scope with a local [CUpdateLock]: the destructor runs however the
    scope is left. *)
Definition with_CUpdateLock {R A} (body : M World R A) : M World R A :=
  LockUpdate ;;
  fun w =>
    match body w with
    | (o, w') =>
        match UnlockUpdate (R := R) w' with
        | (_, w'') => (o, w'')
        end
    end.

Definition FindOrCreate {R} (pszAttr : string) (pFile : CFileObj) : M World R (option CAttr) :=
  log_event (EvFindOrCreate pszAttr) ;;
  w <- get ;;
  match FindOrCreate_ core pszAttr pFile (model w) with
  | None => throw
  | Some (pAttr, m, ts) => put (core_effect m ts w) ;; ret pAttr
  end.

Definition SetActiveObj {R} : M World R unit := log_event EvSetActiveObj.

Definition GetSize {R} (pAttr : CAttr) : M World R Z :=
  log_event (EvGetSize pAttr) ;;
  w <- get ;;
  ret (GetSize_ core pAttr (model w)).

Definition DimGetSize {R} (pAttr : CAttr) (nDim : Z) : M World R Z :=
  log_event (EvDimGetSize pAttr nDim) ;;
  w <- get ;;
  ret (DimGetSize_ core pAttr nDim (model w)).

Definition AttrGetIndex {R} (pAttr : CAttr) (nDim : Z) : M World R Z :=
  log_event (EvAttrGetIndex pAttr) ;;
  w <- get ;;
  ret (AttrGetIndex_ core pAttr nDim (model w)).

Definition AttrGetStr {R} (pAttr : CAttr) (nIndex nVariant : Z) (pszUnit : string)
  : M World R (option string) :=
  log_event (EvAttrGetStr pAttr nIndex) ;;
  w <- get ;;
  match AttrGetStr_ core pAttr nIndex nVariant pszUnit (model w) with
  | None => throw
  | Some pszValue => ret pszValue
  end.

Definition UserCmdResizeDim {R} (pDim : option CAttr) (psz : string)
           (nIndex : Z) (bDelete : bool) : M World R Z :=
  log_event (EvUserCmdResizeDim pDim nIndex bDelete) ;;
  w <- get ;;
  match UserCmdResizeDim_ core pDim psz nIndex bDelete (model w) with
  | None => throw
  | Some (r, m, ts) => put (core_effect m ts w) ;; ret r
  end.

Definition DoCmdSetStr {R} (pAttr : CAttr) (pszValue : string) (nIndex nVariant : Z)
           (pszUnit : string) : M World R Z :=
  log_event (EvDoCmdSetStr pAttr pszValue nIndex) ;;
  w <- get ;;
  match DoCmdSetStr_ core pAttr pszValue nIndex nVariant pszUnit (model w) with
  | None => throw
  | Some (r, m, ts) => put (core_effect m ts w) ;; ret r
  end.

(** The catch handler of an API function: it formats a text, sets it as the
    last error and returns the failure sentinel. *)
Definition catch_all {R} (text : string) (sentinel : R) : API R :=
  fun w => (sentinel, SetLastError text w).

Definition CStr (psz : option string) : string :=
  match psz with Some s => s | None => EmptyString end.

(** *** Attribute sizes *)

Definition RomeFileGetAttrDimSize (pFile : option CFileObj) (pszAttr : option string) (nDim : Z)
  : API Z :=
  try_catch
    (ASSERT_OR_SETERROR_AND_RETURN_FAILURE (isSome pFile)
       "RomeFileGetAttrDimSize: NULL file pointer." ;;
     ASSERT_OR_SETERROR_AND_RETURN_FAILURE (negb (strempty pszAttr))
       "RomeFileGetAttrDimSize: empty attr name." ;;
     file <- deref pFile ;;
     name <- deref pszAttr ;;
     w <- get ;;
     let bValidApp := f_core_is_App file in
     ASSERT_OR_SETERROR_AND_RETURN_NULL_int bValidApp
       "RomeFileGetAttrDimSize: invalid file pointer." ;;
     let bExited := HasFlag (App w) DLLSTATE_CLOSED in
     ASSERT_OR_SETERROR_AND_RETURN_NULL_int (negb bExited)
       "RomeFileGetAttrDimSize: RomeExit() has already been called." ;;
     let bValidFile := f_IsValid file in
     ASSERT_OR_SETERROR_AND_RETURN_FAILURE bValidFile
       "RomeFileGetAttrDimSize: invalid file pointer." ;;
     (if USE_ROMEAPI_REFCOUNT cfg then
        let bValidRefs := (1 <=? m_nRomeRefs file)%Z in
        ASSERT_OR_SETERROR_AND_RETURN_FAILURE bValidRefs
          "RomeFileGetAttrDimSize: invalid file reference count."
      else ret tt) ;;
     (if USE_ROMEAPI_THREADIdS cfg then
        nCurThreadId <- GetCurrentThreadId ;;
        let bSameThread := Z.eqb (m_nThreadId (App w)) nCurThreadId in
        ASSERT_OR_SETERROR_AND_RETURN_FAILURE (negb bSameThread)
          "RomeFileGetAttrDimSize: Rome API function called on different thread from RomeInit()."
      else ret tt) ;;
     (* Wait for the stack to finish. *)
     FinishUpdates ;;
     (* Find the attribute in the file. *)
     pAttr <- FindOrCreate name file ;;
     ASSERT_OR_SETERROR_AND_RETURN_FAILURE (isSome pAttr)
       "+RomeFileGetAttrDimSize: failed to create attr." ;;
     attr <- deref pAttr ;;
     (* Verify that the engine is finished before we get information back. *)
     FinishUpdates ;;
     nSize <- DimGetSize attr nDim ;;
     return_ nSize)
    (catch_all ("RomeFileGetAttrDimSize: exception for File = '" ++ FormatPtr core pFile
                ++ "', Attr = '" ++ CStr pszAttr ++ "'.") RX_FAILURE).

Definition RomeFileGetAttrSize (pFile : option CFileObj) (pszAttr : option string) : API Z :=
  try_catch
    (ASSERT_OR_SETERROR_AND_RETURN_FAILURE (isSome pFile)
       "RomeFileGetAttrSize: NULL file pointer." ;;
     ASSERT_OR_SETERROR_AND_RETURN_FAILURE (negb (strempty pszAttr))
       "RomeFileGetAttrSize: empty attr name." ;;
     file <- deref pFile ;;
     name <- deref pszAttr ;;
     w <- get ;;
     let bValidApp := f_core_is_App file in
     ASSERT_OR_SETERROR_AND_RETURN_NULL_int bValidApp
       "RomeFileGetAttrSize: invalid file pointer." ;;
     let bExited := HasFlag (App w) DLLSTATE_CLOSED in
     ASSERT_OR_SETERROR_AND_RETURN_NULL_int (negb bExited)
       "RomeFileGetAttrSize: RomeExit() has already been called." ;;
     let bValidFile := f_IsValid file in
     ASSERT_OR_SETERROR_AND_RETURN_FAILURE bValidFile
       "RomeFileGetAttrSize: invalid file pointer." ;;
     (if USE_ROMEAPI_REFCOUNT cfg then
        let bValidRefs := (1 <=? m_nRomeRefs file)%Z in
        ASSERT_OR_SETERROR_AND_RETURN_FAILURE bValidRefs
          "RomeFileGetAttrSize: invalid file reference count."
      else ret tt) ;;
     (if USE_ROMEAPI_THREADIdS cfg then
        nCurThreadId <- GetCurrentThreadId ;;
        let bSameThread := Z.eqb (m_nThreadId (App w)) nCurThreadId in
        ASSERT_OR_SETERROR_AND_RETURN_FAILURE (negb bSameThread)
          "RomeFileGetAttrSize: Rome API function called on different thread from RomeInit()."
      else ret tt) ;;
     (* Wait for the stack to finish. *)
     FinishUpdates ;;
     (* Find the attribute in the file. *)
     pAttr <- FindOrCreate name file ;;
     (if USE_ROMEAPI_ZEROATTRSIZE cfg then
        if negb (isSome pAttr) && f_IsEmpty file && isSome (GetListing core name)
        then return_ 0 else ret tt
      else ret tt) ;;
     ASSERT_OR_SETERROR_AND_RETURN_FAILURE (isSome pAttr)
       "+RomeFileGetAttrSize: failed to create attr." ;;
     attr <- deref pAttr ;;
     (* Verify that the engine is finished before we get information back. *)
     FinishUpdates ;;
     nSize <- GetSize attr ;;
     let xSize := to_short nSize in
     ASSERT_OR_SETERROR_AND_RETURN_FAILURE (Z.eqb nSize xSize)
       "RomeFileGetAttrSize: size is too large to cast to short." ;;
     return_ (to_short nSize))
    (catch_all ("RomeFileGetAttrSize: exception for File = '" ++ FormatPtr core pFile
                ++ "', Attr = '" ++ CStr pszAttr ++ "'.") RX_FAILURE).

Definition RomeFileGetAttrSizeEx (pFile : option CFileObj) (pszAttr : option string) : API Z :=
  try_catch
    (ASSERT_OR_SETERROR_AND_RETURN_FAILURE (isSome pFile)
       "RomeFileGetAttrSizeEx: NULL file pointer." ;;
     ASSERT_OR_SETERROR_AND_RETURN_FAILURE (negb (strempty pszAttr))
       "RomeFileGetAttrSizeEx: empty attr name." ;;
     file <- deref pFile ;;
     name <- deref pszAttr ;;
     w <- get ;;
     let bValidApp := f_core_is_App file in
     ASSERT_OR_SETERROR_AND_RETURN_FAILURE bValidApp
       "RomeFileGetAttrSizeEx: invalid file pointer." ;;
     let bExited := HasFlag (App w) DLLSTATE_CLOSED in
     ASSERT_OR_SETERROR_AND_RETURN_FAILURE (negb bExited)
       "RomeFileGetAttrSizeEx: RomeExit() has already been called." ;;
     let bValidFile := f_IsValid file in
     ASSERT_OR_SETERROR_AND_RETURN_FAILURE bValidFile
       "RomeFileGetAttrSizeEx: invalid file pointer." ;;
     (if USE_ROMEAPI_REFCOUNT cfg then
        let bValidRefs := (1 <=? m_nRomeRefs file)%Z in
        ASSERT_OR_SETERROR_AND_RETURN_FAILURE bValidRefs
          "RomeFileGetAttrSizeEx: invalid file reference count."
      else ret tt) ;;
     (if USE_ROMEAPI_THREADIdS cfg then
        nCurThreadId <- GetCurrentThreadId ;;
        let bSameThread := Z.eqb (m_nThreadId (App w)) nCurThreadId in
        ASSERT_OR_SETERROR_AND_RETURN_FAILURE (negb bSameThread)
          "RomeFileGetAttrSizeEx: Rome API function called on different thread from RomeInit()."
      else ret tt) ;;
     (* Wait for the stack to finish. *)
     FinishUpdates ;;
     (* Find the attribute in the file. *)
     pAttr <- FindOrCreate name file ;;
     (if USE_ROMEAPI_ZEROATTRSIZE cfg then
        if negb (isSome pAttr) && f_IsEmpty file && isSome (GetListing core name)
        then return_ 0 else ret tt
      else ret tt) ;;
     ASSERT_OR_SETERROR_AND_RETURN_FAILURE (isSome pAttr)
       "RomeFileGetAttrSizeEx: failed to create attr." ;;
     attr <- deref pAttr ;;
     (* Verify that the engine is finished before we get information back. *)
     FinishUpdates ;;
     nSize <- GetSize attr ;;
     return_ nSize)
    (catch_all ("RomeFileGetAttrSizeEx: exception for File = '" ++ FormatPtr core pFile
                ++ "', Attr = '" ++ CStr pszAttr ++ "'.") RX_FAILURE).

(** *** Attribute values *)

Definition RomeFileGetAttrValueAux (pFile : option CFileObj) (pszAttr : option string)
           (nIndex : Z) (nVariant : Z) (pszUnit : string) : API (option string) :=
  try_catch
    (ASSERT_OR_SETERROR_AND_RETURN_NULL (isSome pFile)
       "RomeFileGetAttrValue: NULL file pointer." ;;
     ASSERT_OR_SETERROR_AND_RETURN_NULL (negb (strempty pszAttr))
       "RomeFileGetAttrValue: empty attr name." ;;
     let bValidIndex := (0 <=? nIndex)%Z || Z.eqb nIndex (-1) in
     ASSERT_OR_SETERROR_AND_RETURN_NULL bValidIndex
       "RomeFileGetAttrValue: invalid index." ;;
     file <- deref pFile ;;
     name <- deref pszAttr ;;
     w <- get ;;
     let bValidApp := f_core_is_App file in
     ASSERT_OR_SETERROR_AND_RETURN_NULL bValidApp
       "RomeFileGetAttrValue: invalid file pointer." ;;
     let bExited := HasFlag (App w) DLLSTATE_CLOSED in
     ASSERT_OR_SETERROR_AND_RETURN_NULL (negb bExited)
       "RomeFileGetAttrValue: RomeExit() has already been called." ;;
     let bValidFile := f_IsValid file in
     ASSERT_OR_SETERROR_AND_RETURN_NULL bValidFile
       "RomeFileGetAttrValue: invalid file pointer." ;;
     (if USE_ROMEAPI_REFCOUNT cfg then
        let bValidRefs := (1 <=? m_nRomeRefs file)%Z in
        ASSERT_OR_SETERROR_AND_RETURN_NULL bValidRefs
          "RomeFileGetAttrValue: invalid file reference count."
      else ret tt) ;;
     (if USE_ROMEAPI_THREADIdS cfg then
        nCurThreadId <- GetCurrentThreadId ;;
        let bSameThread := Z.eqb (m_nThreadId (App w)) nCurThreadId in
        ASSERT_OR_SETERROR_AND_RETURN_NULL (negb bSameThread)
          "RomeFileGetAttrValue: Rome API function called on different thread from RomeInit()."
      else ret tt) ;;
     (* Wait for the stack to finish. *)
     FinishUpdates ;;
     (* Find the attribute in the file. *)
     pAttr <- FindOrCreate name file ;;
     (if negb (isSome pAttr) then
        (* The attr name must be listed in the catalog. *)
        let pAttrListing := GetListing core name in
        let bValidAttrName := isSome pAttrListing in
        ASSERT_OR_SETERROR_AND_RETURN_NULL bValidAttrName
          "RomeFileGetAttrValue: no Rusle2 parameter of that name." ;;
        (* The attr must be asked for in the correct object type. *)
        listing <- deref pAttrListing ;;
        let pszObjName := f_ObjTypeName file in
        let bValidObjType := IsValidObject core listing pszObjName in
        ASSERT_OR_SETERROR_AND_RETURN_NULL bValidObjType
          "RomeFileGetAttrValue: Rusle2 parameter asked for in wrong object type." ;;
        (* If not handled above, give a generic error message. *)
        ASSERT_OR_SETERROR_AND_RETURN_NULL (isSome pAttr)
          "RomeFileGetAttrValue: failed to create attr."
      else ret tt) ;;
     attr <- deref pAttr ;;
     (* Set the active object for debugging purposes. *)
     SetActiveObj ;;
     (* Get the current index for the attribute. *)
     (if Z.eqb nIndex (-1) then
        nCurrent <- AttrGetIndex attr 0 ;;
        w <- get ;;
        let sCurrent := Int2Str core nCurrent in
        put (RomeThreadSetNamedString "RomeFileGetAttrValue" sCurrent w) ;;
        return_ (Some sCurrent)
      else ret tt) ;;
     (* Verify that the engine is finished before we get information back. *)
     FinishUpdates ;;
     ASSERT_OR_RETURN (IsValidUnits core attr pszUnit) None ;;
     let pszUnit := if Z.eqb (strlen pszUnit) 0 then "#U_TEMPLATE" else pszUnit in
     (* Get the value string from the attribute. *)
     pszValue <- AttrGetStr attr nIndex nVariant pszUnit ;;
     let pszValue := match pszValue with None => "NULL" | Some v => v end in
     SetActiveObj ;;
     return_ (Some pszValue))
    (catch_all ("RomeFileGetAttrValue: exception for File = '" ++ FormatPtr core pFile
                ++ "', Attr = '" ++ CStr pszAttr ++ "', Index = " ++ Int2Str core nIndex ++ ".")
       None).

(** *** Resizing *)

(** The loop [for (int i = nNumRows; i > 0; i--)] of [RomeFileSetAttrSize]. *)
Fixpoint resize_rows (i : nat) (pAttr : CAttr) (nIndex : Z) (bDelete : bool)
  : M World Z unit :=
  match i with
  | O => ret tt
  | S i' =>
      UserCmdResizeDim (Some pAttr) EmptyString nIndex bDelete ;;
      resize_rows i' pAttr (if bDelete then to_int (nIndex - 1) else to_int (nIndex + 1)) bDelete
  end.

Definition RomeFileSetAttrSize (pFile : option CFileObj) (pszAttr : option string)
           (nNewSize : Z) : API Z :=
  try_catch
    (ASSERT_OR_SETERROR_AND_RETURN_FAILURE (isSome pFile)
       "RomeFileSetAttrSize: NULL file pointer." ;;
     ASSERT_OR_SETERROR_AND_RETURN_FAILURE (negb (strempty pszAttr))
       "RomeFileSetAttrSize: empty attr name." ;;
     ASSERT_OR_SETERROR_AND_RETURN_FAILURE (0 <=? nNewSize)%Z
       "RomeFileSetAttrSize: negative size." ;;
     ASSERT_OR_SETERROR_AND_RETURN_FAILURE (negb (Z.eqb nNewSize 0))
       "RomeFileSetAttrSize: zero size." ;;
     file <- deref pFile ;;
     name <- deref pszAttr ;;
     w <- get ;;
     let bValidApp := f_core_is_App file in
     ASSERT_OR_SETERROR_AND_RETURN_FAILURE bValidApp
       "RomeFileSetAttrSize: invalid file pointer." ;;
     let bExited := HasFlag (App w) DLLSTATE_CLOSED in
     ASSERT_OR_SETERROR_AND_RETURN_FAILURE (negb bExited)
       "RomeFileSetAttrSize: RomeExit() has already been called." ;;
     let bValidFile := f_IsValid file in
     ASSERT_OR_SETERROR_AND_RETURN_FAILURE bValidFile
       "RomeFileSetAttrSize: invalid file pointer." ;;
     (if USE_ROMEAPI_REFCOUNT cfg then
        let bValidRefs := (1 <=? m_nRomeRefs file)%Z in
        ASSERT_OR_SETERROR_AND_RETURN_FAILURE bValidRefs
          "RomeFileSetAttrSize: invalid file reference count."
      else ret tt) ;;
     (if USE_ROMEAPI_THREADIdS cfg then
        nCurThreadId <- GetCurrentThreadId ;;
        let bSameThread := Z.eqb (m_nThreadId (App w)) nCurThreadId in
        ASSERT_OR_SETERROR_AND_RETURN_FAILURE (negb bSameThread)
          "RomeFileSetAttrSize: Rome API function called on different thread from RomeInit()."
      else ret tt) ;;
     (* Wait for the stack to finish. *)
     FinishUpdates ;;
     (* Set the active object. *)
     SetActiveObj ;;
     (* Find the attribute in the file. *)
     pAttr <- FindOrCreate name file ;;
     ASSERT_OR_SETERROR_AND_RETURN_FAILURE (isSome pAttr)
       "RomeFileSetAttrSize: failed to create attr." ;;
     attr <- deref pAttr ;;
     ASSERT_OR_SETERROR_AND_RETURN_FAILURE (IsDimension core attr)
       "RomeFileSetAttrSize: cannot resize a non-dimension attr." ;;
     ASSERT_OR_SETERROR_AND_RETURN_FAILURE (CanUserResize core attr)
       "RomeFileSetAttrSize: the attr cannot be resized." ;;
     (* Verify that the engine is finished before we get information back. *)
     FinishUpdates ;;
     nOldSize <- GetSize attr ;;
     let nDeltaSize := to_int (nNewSize - nOldSize) in
     let bDelete := (nDeltaSize <? 0)%Z in
     let nNumRows := to_int (Z.abs nDeltaSize) in
     let nIndex := if bDelete then to_int (nOldSize - 1) else nOldSize in
     resize_rows (Z.to_nat nNumRows) attr nIndex bDelete ;;
     return_ (if negb (Z.eqb nOldSize nNewSize) then 1 else 0))
    (catch_all ("RomeFileSetAttrSize: exception for File = '" ++ FormatPtr core pFile
                ++ "', Attr = '" ++ CStr pszAttr ++ "', Size = " ++ Int2Str core nNewSize ++ ".")
       RX_FAILURE).

Definition RomeFileSetAttrValueAux (pFile : option CFileObj) (pszAttr : option string)
           (pszValue : option string) (nIndex : Z) (nVariant : Z) (pszUnit : string)
  : API Z :=
  try_catch
    (ASSERT_OR_SETERROR_AND_RETURN_FAILURE (isSome pFile)
       "RomeFileSetAttrValue: NULL file pointer." ;;
     ASSERT_OR_SETERROR_AND_RETURN_FAILURE (negb (strempty pszAttr))
       "RomeFileSetAttrValue: empty attr name." ;;
     ASSERT_OR_SETERROR_AND_RETURN_FAILURE (isSome pszValue)
       "RomeFileSetAttrValue: NULL value pointer." ;;
     ASSERT_OR_SETERROR_AND_RETURN_FAILURE (0 <=? nIndex)%Z
       "RomeFileSetAttrValue: negative index." ;;
     value <- deref pszValue ;;
     let bValidSize := (MAX_SETSTR_SIZE cfg <=? 0)%Z || (strlen value <=? MAX_SETSTR_SIZE cfg)%Z in
     ASSERT_OR_SETERROR_AND_RETURN_FAILURE bValidSize
       "RomeFileSetAttrValue: value string exceeds MAX_SETSTR_SIZE." ;;
     file <- deref pFile ;;
     name <- deref pszAttr ;;
     w <- get ;;
     let bValidApp := f_core_is_App file in
     ASSERT_OR_SETERROR_AND_RETURN_FAILURE bValidApp
       "RomeFileSetAttrValue: invalid file pointer." ;;
     let bExited := HasFlag (App w) DLLSTATE_CLOSED in
     ASSERT_OR_SETERROR_AND_RETURN_FAILURE (negb bExited)
       "RomeFileSetAttrValue: RomeExit() has already been called." ;;
     let bValidFile := f_IsValid file in
     ASSERT_OR_SETERROR_AND_RETURN_FAILURE bValidFile
       "RomeFileSetAttrValue: invalid file pointer." ;;
     (if USE_ROMEAPI_REFCOUNT cfg then
        let bValidRefs := (1 <=? m_nRomeRefs file)%Z in
        ASSERT_OR_SETERROR_AND_RETURN_FAILURE bValidRefs
          "RomeFileSetAttrValue: invalid file reference count."
      else ret tt) ;;
     (if USE_ROMEAPI_THREADIdS cfg then
        nCurThreadId <- GetCurrentThreadId ;;
        let bSameThread := Z.eqb (m_nThreadId (App w)) nCurThreadId in
        ASSERT_OR_SETERROR_AND_RETURN_FAILURE (negb bSameThread)
          "RomeFileSetAttrValue: Rome API function called on different thread from RomeInit()."
      else ret tt) ;;
     (* Wait for the stack to finish. *)
     FinishUpdates ;;
     (* Lock the engine while the parameter is created, and only then. *)
     pAttr <- with_CUpdateLock (FindOrCreate name file) ;;
     (if negb (isSome pAttr) then
        (* The attr name must be listed in the catalog. *)
        let pAttrListing := GetListing core name in
        let bValidAttrName := isSome pAttrListing in
        ASSERT_OR_SETERROR_AND_RETURN_FAILURE bValidAttrName
          "RomeFileSetAttrValue: no Rusle2 parameter of that name." ;;
        (* The attr must be asked for in the correct object type. *)
        listing <- deref pAttrListing ;;
        let pszObjName := f_ObjTypeName file in
        let bValidObjType := IsValidObject core listing pszObjName in
        ASSERT_OR_SETERROR_AND_RETURN_FAILURE bValidObjType
          "RomeFileSetAttrValue: Rusle2 parameter asked for in wrong object type." ;;
        (* If not handled above, give a generic error message. *)
        ASSERT_OR_SETERROR_AND_RETURN_FAILURE (isSome pAttr)
          "RomeFileSetAttrValue: failed to create attr."
      else ret tt) ;;
     attr <- deref pAttr ;;
     (* Set the active object for debugging purposes. *)
     SetActiveObj ;;
     (* Verify that the engine is finished before we alter the model. *)
     FinishUpdates ;;
     ASSERT_OR_RETURN (IsValidUnits core attr pszUnit) RX_FALSE ;;
     let pszUnit := if Z.eqb (strlen pszUnit) 0 then "#U_TEMPLATE" else pszUnit in
     (* Handle special values for INSERT and DELETE first. *)
     nRet <- (if strieq value "#INSERT" then
                let pDim := GetDimPtr core attr 0 in
                r <- UserCmdResizeDim pDim EmptyString nIndex false ;;
                ret (to_short r)
              else if strieq value "#DELETE" then
                let pDim := GetDimPtr core attr 0 in
                r <- UserCmdResizeDim pDim EmptyString nIndex true ;;
                ret (to_short r)
              else
                r <- DoCmdSetStr attr value nIndex nVariant pszUnit ;;
                ret (to_short r)) ;;
     return_ nRet)
    (catch_all ("RomeFileSetAttrValue: exception for File = '" ++ FormatPtr core pFile
                ++ "', Attr = '" ++ CStr pszAttr ++ "', Value = '" ++ CStr pszValue
                ++ "', Index = " ++ Int2Str core nIndex ++ ".")
       RX_FAILURE).

(** *** Session life cycle *)

Definition set_m_sCommandLine (psz : option string) (w : World) : World :=
  mkWorld (mkCore (m_nFlags (App w)) (m_nThreadId (App w)) psz (Engine (App w)))
          (cur_thread w) (named_strings w) (trace w) (model w).

Definition Init {R} (argv : list string) : M World R AppPtr :=
  fun w =>
    match CoreInit core argv (App w) (model w) with
    | None => (Raise, w)
    | Some (p, c, m) =>
        (Next p, mkWorld c (cur_thread w) (named_strings w) (trace w) m)
    end.

Definition Exit {R} : M World R Z :=
  fun w =>
    match CoreExit core (App w) (model w) with
    | None => (Raise, w)
    | Some (r, c, m) =>
        (Next r, mkWorld c (cur_thread w) (named_strings w) (trace w) m)
    end.

Definition RomeInit (pszArgs : option string) : API AppPtr :=
  try_catch
    (w <- get ;;
     let bExited := HasFlag (App w) DLLSTATE_CLOSED in
     ASSERT_OR_SETERROR_AND_RETURN (negb bExited)
       "RomeInit: RomeExit() has already been called." AppNull ;;
     (* RomeInit() may be called multiple times safely. *)
     (if HasFlag (App w) DLLSTATE_INITROME then return_ AppGlobal else ret tt) ;;
     (* Store a copy of the command line this was invoked with. *)
     put (set_m_sCommandLine pszArgs w) ;;
     let aCommandLine := ParseArgs core pszArgs in
     let bParsed := isSome aCommandLine in
     ASSERT_OR_SETERROR_AND_RETURN bParsed
       "-RomeInit: failed to parse command line arguments." AppNull ;;
     argv <- deref aCommandLine ;;
     (if USE_ROMEAPI_THREADIdS cfg then
        nCurThreadId <- GetCurrentThreadId ;;
        w <- get ;;
        put (set_m_nThreadId nCurThreadId w)
      else ret tt) ;;
     p <- Init argv ;;
     return_ p)
    (catch_all ("RomeInit: exception for Args = '" ++ CStr pszArgs ++ "'.") AppNull).

Definition RomeExit (pApp : AppPtr) : API Z :=
  try_catch
    (ASSERT_OR_SETERROR_AND_RETURN_FALSE (negb (is_AppNull pApp))
       "RomeExit: NULL Rome app pointer." ;;
     let bValidApp := is_AppGlobal pApp in
     ASSERT_OR_SETERROR_AND_RETURN_FALSE bValidApp
       "RomeExit: invalid Rome app pointer." ;;
     w <- get ;;
     let bExited := HasFlag (App w) DLLSTATE_CLOSED in
     ASSERT_OR_SETERROR_AND_RETURN_FALSE (negb bExited)
       "RomeExit: RomeExit() has already been called." ;;
     (* with thread ids the source only has ASSERT(!bSameThread) here *)
     r <- Exit ;;
     return_ r)
    (catch_all "RomeExit: exception." RX_FALSE).

End Facade.

(** ** The dependency walk of [RomeFilesGetDependencies] *)

Inductive ParamType :=
| ATTR_BOL | ATTR_DTE | ATTR_FLT | ATTR_INT | ATTR_LST | ATTR_PTR | ATTR_SUB | ATTR_STR.

Definition is_ATTR_PTR (t : ParamType) : bool :=
  match t with ATTR_PTR => true | _ => false end.

Definition is_ATTR_SUB (t : ParamType) : bool :=
  match t with ATTR_SUB => true | _ => false end.

(** What [pAttr->GetPtr(i)] points to. *)
Record CSubObj := mkSubObj {
  IsFile : bool;
  GetFileName : string
}.

(** An attribute of an open file as the walk reads it: the type of its
    listing, if it has one, and for each index [i] below [GetSize()] the pair
    of [GetStr(i)] and [GetPtr(i)]. *)
Record WalkAttr := mkWalkAttr {
  ListingType : option ParamType;
  entries : list (string * option CSubObj)
}.

(** [pFile->m_params], in the order of iteration. *)
Record WalkFile := mkWalkFile {
  m_params : list WalkAttr
}.

(** A [RT_Files*] argument as far as the function looks at it. *)
Record CFileSys := mkFileSys {
  fs_core_is_App : bool;  (* &pFiles->Core == &App *)
  fs_IsValid : bool       (* CFileSys::IsValid(pFiles) *)
}.

(** The file system behind the walk. [OpenFile_] stands for
    [RomeFilesOpen(pFiles, name, 0)], which returns NULL on failure, and
    [CloseFile_] for [RomeFileClose(pFile)]; [ArrayFind] returns the index of
    a string in an array, or -1. *)
Record FilesCollab (Model : Type) := mkFilesCollab {
  OpenFile_ : string -> Model -> option WalkFile * Model;
  CloseFile_ : WalkFile -> Model -> Model;
  FileExists_ : string -> Model -> bool;
  ArrayFind : list string -> string -> Z
}.
Arguments OpenFile_ {Model}.
Arguments CloseFile_ {Model}.
Arguments FileExists_ {Model}.
Arguments ArrayFind {Model}.

(** The reference arguments [depsArray] and [depsSize] of the caller. The
    array is [None] for a pointer that was never assigned by the callee. *)
Record DepsOut := mkDepsOut {
  depsArray : option (list string);
  depsSize : Z
}.

(** How the loop over the stack of filenames ends. [WalkNull] is the turn
    in which [RomeFilesOpen] returns NULL: the next statement reads
    [pFile->m_params] through that pointer without a test, which is
    undefined behaviour, so the function has no result from there on. *)
Inductive WalkResult (Model : Type) :=
| WalkDone (csaDeps : list string) (m : Model)
| WalkNull (m : Model)
| WalkOutOfFuel.
Arguments WalkDone {Model}.
Arguments WalkNull {Model}.
Arguments WalkOutOfFuel {Model}.

Section Dependencies.

Context {Model Task CAttr CListing : Type}.
Variable cfg : Config.
Variable core : Collab Model Task CAttr CListing.
Variable fsys : FilesCollab Model.

Abbreviation World := (World Model Task CAttr).

Local Open Scope api_scope.

(** The body of [for (int i = 0; i < numPtrs; i++)] for one index. The
    state is the stack of filenames still to open and [csaDeps]. *)
Definition scan_entry (m : Model) (attrType : ParamType)
           (st : list string * list string) (e : string * option CSubObj)
  : list string * list string :=
  let '(stack, csaDeps) := st in
  if is_ATTR_PTR attrType && negb (FileExists_ fsys (fst e) m) then st
  else
    match snd e with
    | Some pCheckSubObj =>
        if IsFile pCheckSubObj then
          let fileName := GetFileName pCheckSubObj in
          if Z.eqb (ArrayFind fsys csaDeps fileName) (-1)
          then (fileName :: stack, (csaDeps ++ [fileName])%list)
          else st
        else st
    | None => st
    end.

(** The body of [while (pos)] for one attribute. *)
Definition scan_attr (m : Model) (st : list string * list string) (pAttr : WalkAttr)
  : list string * list string :=
  match ListingType pAttr with
  | Some attrType =>
      if is_ATTR_PTR attrType || is_ATTR_SUB attrType
      then fold_left (scan_entry m attrType) (entries pAttr) st
      else st
  | None => st
  end.

(** [while (stack.GetSize() > 0)]. A file that cannot be opened is a NULL
    pointer, which the loop dereferences. *)
Fixpoint walk (fuel : nat) (stack csaDeps : list string) (m : Model) : WalkResult Model :=
  match fuel with
  | O => WalkOutOfFuel
  | S fuel' =>
      match stack with
      | [] => WalkDone csaDeps m
      | top :: rest =>
          match OpenFile_ fsys top m with
          | (None, m') => WalkNull m'
          | (Some pFile, m') =>
              let '(stack', csaDeps') := fold_left (scan_attr m') (m_params pFile) (rest, csaDeps) in
              walk fuel' stack' csaDeps' (CloseFile_ fsys pFile m')
          end
      end
  end.

(** The files that the walk opens, in the order in which it opens them,
    each with the filename it was opened under. *)
Fixpoint walk_opened (fuel : nat) (stack csaDeps : list string) (m : Model)
  : list (string * WalkFile) :=
  match fuel with
  | O => []
  | S fuel' =>
      match stack with
      | [] => []
      | top :: rest =>
          match OpenFile_ fsys top m with
          | (None, _) => []
          | (Some pFile, m') =>
              let '(stack', csaDeps') := fold_left (scan_attr m') (m_params pFile) (rest, csaDeps) in
              (top, pFile) :: walk_opened fuel' stack' csaDeps' (CloseFile_ fsys pFile m')
          end
      end
  end.

(** The filenames that the scan of a file can push: those of the pointers
    that are files. *)
Definition entry_target (e : string * option CSubObj) : list string :=
  match snd e with
  | Some pCheckSubObj => if IsFile pCheckSubObj then [GetFileName pCheckSubObj] else []
  | None => []
  end.

Definition file_targets (pFile : WalkFile) : list string :=
  flat_map (fun pAttr => flat_map entry_target (entries pAttr)) (m_params pFile).

Definition set_model (m : Model) (w : World) : World :=
  mkWorld (App w) (cur_thread w) (named_strings w) (trace w) m.

(** The function proper. The state carries the caller's reference arguments
    next to the world. The result is [None] when the call has no result:
    when [fuel] does not suffice for the walk, and when the walk dereferences
    a NULL file pointer. The thread check of the source names [pFile] before its
    declaration, so the function compiles only without
    [USE_ROMEAPI_THREADIdS] and the check is left out. *)
Definition RomeFilesGetDependencies (fuel : nat) (pFiles : option CFileSys)
           (pszFilename : option string) (out : DepsOut) (w : World)
  : option (Z * DepsOut * World) :=
  match
    (ASSERT_OR_SETERROR_AND_RETURN_FALSE (isSome pFiles)
       "RomeFilesGetDependecies: NULL file system pointer." ;;
     ASSERT_OR_SETERROR_AND_RETURN_NULL_int (isSome pszFilename)
       "RomeFilesGetDependecies: NULL filename pointer." ;;
     files <- deref pFiles ;;
     name <- deref pszFilename ;;
     w <- get ;;
     let bValidApp := fs_core_is_App files in
     ASSERT_OR_SETERROR_AND_RETURN_NULL_int bValidApp
       "RomeFilesGetDependecies: invalid file system pointer." ;;
     let bExited := HasFlag (App w) DLLSTATE_CLOSED in
     ASSERT_OR_SETERROR_AND_RETURN_NULL_int (negb bExited)
       "RomeFilesGetDependecies: RomeExit() has already been called." ;;
     let bValidFiles := fs_IsValid files in
     ASSERT_OR_SETERROR_AND_RETURN_NULL_int bValidFiles
       "RomeFilesGetDependecies: invalid file system pointer." ;;
     (* Wait for the stack to finish. *)
     FinishUpdates core ;;
     ret name) w
  with
  | (Return r, w') => Some (r, out, w')
  | (Raise, w') =>
      Some (RX_FALSE, out,
            SetLastError ("RomeFilesGetDependecies: exception for File = '"
                          ++ CStr pszFilename ++ "'.") w')
  | (Next name, w') =>
      match walk fuel [name] [] (model w') with
      | WalkOutOfFuel => None
      | WalkNull _ => None
      | WalkDone csaDeps m =>
          (* depsSize = csaDeps.GetCount() - 1; depsArray = new char*[depsSize]; *)
          let nSize := to_int (Z.of_nat (length csaDeps) - 1) in
          if (nSize <? 0)%Z then
            Some (RX_FALSE, mkDepsOut (depsArray out) nSize,
                  SetLastError ("RomeFilesGetDependecies: exception for File = '"
                                ++ CStr pszFilename ++ "'.") (set_model m w'))
          else
            Some (1, mkDepsOut (Some (firstn (Z.to_nat nSize) csaDeps)) nSize,
                  set_model m w')
      end
  end.

End Dependencies.

(** ** The catalog, the file collection, the database and the status bar

    More of the exported functions, over the same world. *)

(** Compile-time switches beyond those of [Config]. *)
Record Build := mkBuild {
  BUILD_MOSES : bool;
  USE_SKELETONS : bool;
  USE_FILESETS : bool;
  DEBUG : bool    (* _DEBUG: the build in which ASSERT is compiled *)
}.

(** [streq]: equality of C strings. The facade calls it only on a pointer
    that it has found not to be NULL. *)
Definition streq (a : option string) (b : string) : bool :=
  match a with
  | Some s => String.eqb s b
  | None => false
  end.

(** [psz + n]: the C string without its first [n] characters. *)
Fixpoint str_skip (n : nat) (s : string) : string :=
  match n, s with
  | O, _ => s
  | S n', String _ s' => str_skip n' s'
  | S _, EmptyString => EmptyString
  end.

Definition is_ATTR_FLT (t : option ParamType) : bool :=
  match t with Some ATTR_FLT => true | _ => false end.

(** The listing of a parameter as the catalog functions read it, and
    [GetParamTag]. None of these is defined in api-rome.cpp. A type of
    [None] is ATTR_NUL, which is 0. *)
Record CatalogCollab (CListing : Type) := mkCatalogCollab {
  GetDim : CListing -> Z -> option string;
  GetType : CListing -> option ParamType;
  GetFlag_ACF_INTEGRAL : CListing -> bool;
  GetParamTag : option ParamType -> option string
}.
Arguments GetDim {CListing}.
Arguments GetType {CListing}.
Arguments GetFlag_ACF_INTEGRAL {CListing}.
Arguments GetParamTag {CListing}.

(** Flag values that other headers define. *)
Record FlagValues := mkFlagValues {
  OMF_USE_OPEN : Z;
  OMF_NO_CREATE : Z;
  OMF_LOG_HIST : Z;
  OMF_CMD_USER : Z;
  OMF_FORMAT_CFF : Z;
  OMF_FORMAT_XML : Z;
  RX_FILESOPEN_PRIVATE : Z;
  CVF_NOSAVE : Z;
  CVF_CloseFiles : Z    (* CVF_CloseTempFiles | CVF_CloseComboFiles | CVF_CloseLazyFiles *)
}.

(** The file collection and the database behind the facade. None of these
    is defined in api-rome.cpp. A result of [None] is a C++ exception; a
    file pointer that a call returns comes with the state of the object it
    points to; the lists of tasks are the recalculations that the call
    throws on the engine's stack. *)
Record FileSysCollab (Model Task : Type) := mkFileSysCollab {
  IsOpen : Model -> bool;
  HasFlag_ : Z -> Z -> bool;
  ImportObject : string -> Z -> Model -> option (option CFileObj * Model * list Task);
  ImportObjectXML : string -> Z -> Model -> option (option CFileObj * Model * list Task);
  FilesetOpen : string -> Z -> Model -> option (bool * Model * list Task);
  OpenOrCreateFile : string -> Z -> Model -> option (option CFileObj * Model * list Task);
  GetFile : Z -> Model -> option (option CFileObj);
  CloseView : CFileObj -> Z -> Model -> option (Z * Model * list Task);
  DeleteFile : CFileObj -> Model -> option (Model * list Task);
  CloseFiles : Z -> Model -> option (Model * list Task);
  FilesToClose : bool -> Model -> bool;
  CloseDatabase : Model -> option (Z * Model);
  Open : option string -> Model -> option (Z * Model * list Task);
  FormatHex : Z -> string
}.
Arguments IsOpen {Model Task}.
Arguments HasFlag_ {Model Task}.
Arguments ImportObject {Model Task}.
Arguments ImportObjectXML {Model Task}.
Arguments FilesetOpen {Model Task}.
Arguments OpenOrCreateFile {Model Task}.
Arguments GetFile {Model Task}.
Arguments CloseView {Model Task}.
Arguments DeleteFile {Model Task}.
Arguments CloseFiles {Model Task}.
Arguments FilesToClose {Model Task}.
Arguments CloseDatabase {Model Task}.
Arguments Open {Model Task}.
Arguments FormatHex {Model Task}.

(** The main frame and its status bar, and the float arrays of the
    attributes. None of these is defined in api-rome.cpp. [GetMainFrame]
    tells whether there is a main frame; [FormatStatus] is the text of a
    status bar pointer under the format of the catch handler. *)
Record FrameCollab (Model Task CAttr Real : Type) := mkFrameCollab {
  GetMainFrame : Model -> bool;
  ProgressCreate : Z -> Z -> Z -> Model -> option (Z * Model);
  FormatStatus : bool -> string;
  VariantIsValid : Z -> bool -> bool;
  AttrGetFloatArray : CAttr -> list Real -> Z -> Z -> string -> Model
                      -> option (Z * list Real * Z)
}.
Arguments GetMainFrame {Model Task CAttr Real}.
Arguments ProgressCreate {Model Task CAttr Real}.
Arguments FormatStatus {Model Task CAttr Real}.
Arguments VariantIsValid {Model Task CAttr Real}.
Arguments AttrGetFloatArray {Model Task CAttr Real}.

(** Modelled from the spec: the reserved filename tokens, whose macros
    other headers define. *)
Definition ENTRY_CUSTOM : string := "#ENTRY_CUSTOM".
Definition ENTRY_NONE : string := "#ENTRY_NONE".
Definition ENTRY_NULL : string := "#ENTRY_NULL".

(** [RX_VARIANT_CATALOG], given as -2 in the comment on the variants. *)
Definition RX_VARIANT_CATALOG : Z := -2.

Definition set_m_nRomeRefs (n : Z) (f : CFileObj) : CFileObj :=
  mkFile (f_core_is_App f) (f_IsValid f) n (f_FileName f) (f_ObjTypeName f) (f_IsEmpty f).

Section MoreFacade.

Context {Model Task CAttr CListing Real : Type}.
Variable cfg : Config.
Variable build : Build.
Variable flags : FlagValues.
Variable core : Collab Model Task CAttr CListing.
Variable cat : CatalogCollab CListing.
Variable fs : FileSysCollab Model Task.
Variable frame : FrameCollab Model Task CAttr Real.

Abbreviation World := (World Model Task CAttr).
Abbreviation API R := (World -> R * World).

Local Open Scope api_scope.

(** Modelled from the spec: the macros [TEST_OR_SETERROR_AND_RETURN_*] and
    [ASSERT_OR_SETERROR_AND_RETURN_ZERO] of api-rome-priv.h are not in the
    sources. Like their siblings they set the error text and return the
    failure value of the function when the condition fails. *)
Definition TEST_OR_SETERROR_AND_RETURN {R} (cond : bool) (text : string) (sentinel : R)
  : M World R unit :=
  ASSERT_OR_SETERROR_AND_RETURN cond text sentinel.

Definition ASSERT_OR_SETERROR_AND_RETURN_ZERO {A} (cond : bool) (text : string)
  : M World (option A) unit :=
  ASSERT_OR_SETERROR_AND_RETURN cond text None.

(** A call of another API function inside a body. *)
Definition call {R A} (f : API A) : M World R A :=
  fun w => let (a, w') := f w in (Next a, w').

(** *** The catalog *)

(** The thread check of the source names [pFile], which the function does
    not declare, so the function compiles only without
    [USE_ROMEAPI_THREADIdS] and the check is left out. *)
Definition RomeCatalogGetAttrDimCount (pApp : AppPtr) (pszAttr : option string) : API Z :=
  try_catch
    (ASSERT_OR_SETERROR_AND_RETURN_FAILURE (negb (is_AppNull pApp))
       "RomeCatalogGetAttrDimCount: NULL Rome app pointer." ;;
     ASSERT_OR_SETERROR_AND_RETURN_FAILURE (negb (strempty pszAttr))
       "RomeCatalogGetAttrDimCount: empty attr name." ;;
     let bValidApp := is_AppGlobal pApp in
     ASSERT_OR_SETERROR_AND_RETURN_FAILURE bValidApp
       "RomeCatalogGetAttrDimCount: invalid Rome pointer." ;;
     w <- get ;;
     let bExited := HasFlag (App w) DLLSTATE_CLOSED in
     ASSERT_OR_SETERROR_AND_RETURN_FAILURE (negb bExited)
       "RomeCatalogGetAttrDimCount: RomeExit() has already been called." ;;
     name <- deref pszAttr ;;
     (* Find the catalog listing for this parameter. *)
     let pListing := GetListing core name in
     TEST_OR_SETERROR_AND_RETURN (isSome pListing)
       "RomeCatalogGetAttrDimCount: Parameter not found." RX_FAILURE ;;
     listing <- deref pListing ;;
     (* Get the number of dimensions from the catalog listing. *)
     let dim0 := GetDim cat listing 0 in
     let dim1 := GetDim cat listing 1 in
     let nDims := (Z.b2z (negb (strempty dim0) && negb (streq dim0 "1"))
                   + Z.b2z (negb (strempty dim1) && negb (streq dim1 "1")))%Z in
     return_ nDims)
    (catch_all ("RomeFileGetAttrDimCount: exception for Attr = '" ++ CStr pszAttr ++ "'.")
       RX_FAILURE).

Definition RomeCatalogGetAttrType (pApp : AppPtr) (pszAttr : option string)
  : API (option ParamType) :=
  try_catch
    (ASSERT_OR_SETERROR_AND_RETURN_ZERO (negb (is_AppNull pApp))
       "RomeCatalogGetAttrType: NULL Rome app pointer." ;;
     let bValidApp := is_AppGlobal pApp in
     ASSERT_OR_SETERROR_AND_RETURN_ZERO bValidApp
       "RomeCatalogGetAttrType: Invalid Rome app pointer." ;;
     w <- get ;;
     let bExited := HasFlag (App w) DLLSTATE_CLOSED in
     ASSERT_OR_SETERROR_AND_RETURN_ZERO (negb bExited)
       "RomeCatalogGetAttrType: RomeExit() has already been called." ;;
     ASSERT_OR_SETERROR_AND_RETURN_ZERO (isSome pszAttr)
       "RomeCatalogGetAttrType: NULL attr name." ;;
     ASSERT_OR_SETERROR_AND_RETURN_ZERO (negb (strempty pszAttr))
       "RomeCatalogGetAttrType: Empty attr name." ;;
     (if USE_ROMEAPI_THREADIdS cfg then
        nCurThreadId <- GetCurrentThreadId ;;
        let bSameThread := Z.eqb (m_nThreadId (App w)) nCurThreadId in
        ASSERT_OR_SETERROR_AND_RETURN_ZERO (negb bSameThread)
          "RomeCatalogGetAttrType: Rome API function called on different thread from RomeInit()."
      else ret tt) ;;
     name <- deref pszAttr ;;
     (* Find the catalog listing for this parameter. *)
     let pListing := GetListing core name in
     TEST_OR_SETERROR_AND_RETURN (isSome pListing)
       "RomeCatalogGetAttrType: Parameter not found." None ;;
     listing <- deref pListing ;;
     (* Get the type from the catalog listing. *)
     let nType := GetType cat listing in
     (* Handle case of a float which is really an integer. *)
     let nType := if is_ATTR_FLT nType && GetFlag_ACF_INTEGRAL cat listing
                  then Some ATTR_INT else nType in
     return_ nType)
    (fun w => (None, w)).

(** The texts name [RomeCatalogGetAttrType], as in the source. The thread
    check names [pFile] again and is left out. *)
Definition RomeCatalogGetAttrTag (pApp : AppPtr) (pszAttr : option string)
  : API (option string) :=
  try_catch
    (ASSERT_OR_SETERROR_AND_RETURN_NULL (negb (is_AppNull pApp))
       "RomeCatalogGetAttrType: NULL Rome app pointer." ;;
     ASSERT_OR_SETERROR_AND_RETURN_NULL (negb (strempty pszAttr))
       "RomeCatalogGetAttrType: empty attr name." ;;
     let bValidApp := is_AppGlobal pApp in
     ASSERT_OR_SETERROR_AND_RETURN_NULL bValidApp
       "RomeCatalogGetAttrType: invalid Rome pointer." ;;
     w <- get ;;
     let bExited := HasFlag (App w) DLLSTATE_CLOSED in
     ASSERT_OR_SETERROR_AND_RETURN_NULL (negb bExited)
       "RomeCatalogGetAttrType: RomeExit() has already been called." ;;
     nType <- call (RomeCatalogGetAttrType pApp pszAttr) ;;
     let pszTag := GetParamTag cat nType in
     return_ pszTag)
    (fun w => (Some EmptyString, w)).

(** *** The plain value functions *)

Definition RomeFileGetAttrValue (pFile : option CFileObj) (pszAttr : option string)
           (nIndex : Z) : API (option string) :=
  RomeFileGetAttrValueAux cfg core pFile pszAttr nIndex RX_VARIANT_CATALOG "#U_TEMPLATE".

Definition RomeFileSetAttrValue (pFile : option CFileObj) (pszAttr : option string)
           (pszValue : option string) (nIndex : Z) : API Z :=
  RomeFileSetAttrValueAux cfg core pFile pszAttr pszValue nIndex RX_VARIANT_CATALOG
    "#U_TEMPLATE".

(** *** Float arrays *)

(** Modelled from the spec: [CEngineBase::IsFinished] is not in the
    sources. The engine is finished when its pending-update queue is
    empty. *)
Definition IsFinished (e : CEngine Task) : bool :=
  match m_stack e with
  | [] => true
  | _ :: _ => false
  end.

(** The result is what the function returns together with the contents of
    [pArray] and of [*pSize] after the call, and [None] when the call stops
    at [ASSERT(Core.Engine.IsFinished())]: a debug build tests the condition
    and stops where it fails, the other builds do not contain the test. The
    read of the array is a call into the core for which the trace has no
    event. *)
Definition RomeFileGetFloatArray (pFile : option CFileObj) (pszAttr : option string)
           (pArray : option (list Real)) (pSize : option Z) (nVariant : Z) (pszUnit : string)
  : API (option (Z * option (list Real) * option Z)) :=
  let unchanged (r : Z) := Some (r, pArray, pSize) in
  try_catch
    (ASSERT_OR_SETERROR_AND_RETURN (isSome pFile)
       "RomeFileGetFloatArray: NULL file pointer." (unchanged RX_FALSE) ;;
     file <- deref pFile ;;
     w <- get ;;
     let bValidApp := f_core_is_App file in
     ASSERT_OR_SETERROR_AND_RETURN bValidApp
       "RomeFileGetFloatArray: invalid file pointer." (unchanged RX_FALSE) ;;
     let bExited := HasFlag (App w) DLLSTATE_CLOSED in
     ASSERT_OR_SETERROR_AND_RETURN (negb bExited)
       "RomeFileGetFloatArray: RomeExit() has already been called." (unchanged RX_FALSE) ;;
     let bValidFile := f_IsValid file in
     ASSERT_OR_SETERROR_AND_RETURN bValidFile
       "RomeFileGetFloatArray: invalid file pointer." (unchanged RX_FALSE) ;;
     ASSERT_OR_SETERROR_AND_RETURN (negb (strempty pszAttr))
       "RomeFileGetFloatArray: empty attr name." (unchanged RX_FALSE) ;;
     ASSERT_OR_SETERROR_AND_RETURN (isSome pArray)
       "RomeFileGetFloatArray: NULL array pointer." (unchanged RX_FALSE) ;;
     ASSERT_OR_SETERROR_AND_RETURN (isSome pSize)
       "RomeFileGetFloatArray: NULL size pointer." (unchanged RX_FALSE) ;;
     name <- deref pszAttr ;;
     array <- deref pArray ;;
     nArraySize <- deref pSize ;;
     (* the condition is [nArraySize] itself: any size but 0 passes *)
     ASSERT_OR_SETERROR_AND_RETURN (negb (Z.eqb nArraySize 0))
       "RomeFileGetFloatArray: non-positive size." (unchanged RX_FALSE) ;;
     let bValidVariant := VariantIsValid frame nVariant true in
     ASSERT_OR_SETERROR_AND_RETURN bValidVariant
       "RomeFileGetFloatArray: invalid variant." (unchanged RX_FALSE) ;;
     (if USE_ROMEAPI_REFCOUNT cfg then
        let bValidRefs := (1 <=? m_nRomeRefs file)%Z in
        ASSERT_OR_SETERROR_AND_RETURN bValidRefs
          "RomeFileGetFloatArray: invalid file reference count." (unchanged RX_FALSE)
      else ret tt) ;;
     (if USE_ROMEAPI_THREADIdS cfg then
        nCurThreadId <- GetCurrentThreadId ;;
        let bSameThread := Z.eqb (m_nThreadId (App w)) nCurThreadId in
        ASSERT_OR_SETERROR_AND_RETURN (negb bSameThread)
          "RomeFileGetFloatArray: Rome API function called on different thread from RomeInit()."
          (unchanged RX_FALSE)
      else ret tt) ;;
     (* Wait for the stack to finish. *)
     FinishUpdates core ;;
     (* Find the attribute in the file. *)
     pAttr <- FindOrCreate core name file ;;
     (if negb (isSome pAttr) then return_ (unchanged RX_FALSE) else ret tt) ;;
     attr <- deref pAttr ;;
     (* Set the active object for debugging purposes. *)
     SetActiveObj ;;
     (* Verify that the engine is finished before we get information back
        from the model. *)
     w <- get ;;
     (if DEBUG build && negb (IsFinished (Engine (App w))) then return_ None else ret tt) ;;
     match AttrGetFloatArray frame attr array nArraySize nVariant pszUnit (model w) with
     | None => throw
     | Some (bSet, array', nSize') => return_ (Some (bSet, Some array', Some nSize'))
     end)
    (catch_all ("RomeFileGetFloatArray: exception for File = '" ++ FormatPtr core pFile
                ++ "', Attr = '" ++ CStr pszAttr ++ "', Size = "
                ++ Int2Str core (match pSize with Some n => n | None => 0 end) ++ ".")
       (unchanged RX_FALSE)).

(** *** The file collection *)

(** The flags that [RomeFilesOpen] passes on: 0 stands for the default
    flags, and every open is logged as a user command. *)
Definition open_flags (nFlags : Z) : Z :=
  let nFlags := if Z.eqb nFlags 0
                then Z.lor (OMF_USE_OPEN flags) (OMF_NO_CREATE flags) else nFlags in
  Z.lor nFlags (Z.lor (OMF_LOG_HIST flags) (OMF_CMD_USER flags)).

Definition xml_flags (nFlags : Z) : Z :=
  Z.lor (Z.land nFlags (Z.lnot (Z.lor (OMF_FORMAT_CFF flags) (OMF_USE_OPEN flags))))
        (OMF_FORMAT_XML flags).

Definition cff_flags (nFlags : Z) : Z :=
  Z.lor (Z.land nFlags (Z.lnot (OMF_FORMAT_XML flags))) (OMF_FORMAT_CFF flags).

(** A call into the file collection that returns [a], leaves the model [m]
    and throws [ts] on the stack. *)
Definition fs_call {R A} (f : Model -> option (A * Model * list Task)) : M World R A :=
  w <- get ;;
  match f (model w) with
  | None => throw
  | Some (a, m, ts) => put (core_effect m ts w) ;; ret a
  end.

(** The value of [nFlags] when the catch handler formats it: the handler is
    reached from a call into the file collection, after the flags have been
    changed for that call. *)
Definition flags_in_handler (name : string) (nFlags : Z) : Z :=
  if String.prefix "#XML:" name then xml_flags (open_flags nFlags)
  else if String.prefix "<?xml" name then xml_flags (open_flags nFlags)
  else if BUILD_MOSES build && USE_SKELETONS build && String.prefix "#SKEL:" name
  then cff_flags (open_flags nFlags)
  else if USE_FILESETS build && String.prefix "#FILESET:" name
  then cff_flags (open_flags nFlags)
  else open_flags nFlags.

Definition RomeFilesOpen (pFiles : option CFileSys) (pszFullname : option string) (nFlags : Z)
  : API (option CFileObj) :=
  try_catch
    (ASSERT_OR_SETERROR_AND_RETURN_NULL (isSome pFiles)
       "RomeFilesOpen: NULL file system pointer." ;;
     ASSERT_OR_SETERROR_AND_RETURN_NULL (isSome pszFullname)
       "RomeFilesOpen: NULL filename pointer." ;;
     name <- deref pszFullname ;;
     TEST_OR_SETERROR_AND_RETURN (negb (strieq name ENTRY_CUSTOM))
       "RomeFilesOpen: attempt to open file '#ENTRY_CUSTOM'." None ;;
     TEST_OR_SETERROR_AND_RETURN (negb (strieq name ENTRY_NONE))
       "RomeFilesOpen: attempt to open file '#ENTRY_NONE'." None ;;
     TEST_OR_SETERROR_AND_RETURN (negb (strieq name ENTRY_NULL))
       "RomeFilesOpen: attempt to open file '#ENTRY_NULL'." None ;;
     TEST_OR_SETERROR_AND_RETURN (negb (strempty pszFullname))
       "RomeFilesOpen: attempt to open empty filename." None ;;
     files <- deref pFiles ;;
     w <- get ;;
     let bValidApp := fs_core_is_App files in
     ASSERT_OR_SETERROR_AND_RETURN_NULL bValidApp
       "RomeFilesOpen: invalid file system pointer." ;;
     let bExited := HasFlag (App w) DLLSTATE_CLOSED in
     ASSERT_OR_SETERROR_AND_RETURN_NULL (negb bExited)
       "RomeFilesOpen: RomeExit() has already been called." ;;
     let bValidFiles := fs_IsValid files in
     ASSERT_OR_SETERROR_AND_RETURN_NULL bValidFiles
       "RomeFilesOpen: invalid file system pointer." ;;
     let bOpen := IsOpen fs (model w) || HasFlag_ fs nFlags (RX_FILESOPEN_PRIVATE flags) in
     ASSERT_OR_SETERROR_AND_RETURN_NULL bOpen
       "RomeFilesOpen: no database open." ;;
     (if USE_ROMEAPI_THREADIdS cfg then
        nCurThreadId <- GetCurrentThreadId ;;
        let bSameThread := Z.eqb (m_nThreadId (App w)) nCurThreadId in
        ASSERT_OR_SETERROR_AND_RETURN_NULL (negb bSameThread)
          "RomeFilesOpen: Rome API function called on different thread from RomeInit()."
      else ret tt) ;;
     (* 0 means the default flags; log this as a user command. *)
     let nFlags := open_flags nFlags in
     (* Check for magic prefixes and strip them off. *)
     pFO <- (if String.prefix "#XML:" name then
               let pszDiskName := str_skip 5 name in
               fs_call (ImportObject fs pszDiskName (xml_flags nFlags))
             else if String.prefix "<?xml" name then
               fs_call (ImportObjectXML fs name (xml_flags nFlags))
             else if BUILD_MOSES build && USE_SKELETONS build && String.prefix "#SKEL:" name
             then
               let pszDiskName := str_skip 6 name in
               fs_call (ImportObject fs pszDiskName (cff_flags nFlags))
             else if USE_FILESETS build && String.prefix "#FILESET:" name then
               let pszDiskName := str_skip 9 name in
               bOpened <- fs_call (FilesetOpen fs pszDiskName (cff_flags nFlags)) ;;
               (* a todo in the source: the base file is not opened *)
               if negb bOpened then return_ None else return_ None
             else
               fs_call (OpenOrCreateFile fs name nFlags)) ;;
     (* This increments the count of times this pointer is returned. *)
     let pFO := if USE_ROMEAPI_REFCOUNT cfg
                then option_map (fun f => set_m_nRomeRefs (to_int (m_nRomeRefs f + 1)) f) pFO
                else pFO in
     return_ pFO)
    (catch_all ("RomeFilesOpen: exception for Filename = '" ++ CStr pszFullname
                ++ "', Flags = 0x" ++ FormatHex fs (flags_in_handler (CStr pszFullname) nFlags)
                ++ ".") None).


(** The functions that change the file object take the object that [pFile]
    points to and give it back as it is after the call, next to the result.
    The body runs over the world and that object. *)
Definition FileState : Type := World * CFileObj.

Definition on_world {R A} (c : M World R A) : M FileState R A :=
  fun s => let (o, w') := c (fst s) in (o, (w', snd s)).

Definition get_file {R} : M FileState R CFileObj := fun s => (Next (snd s), s).

Definition put_file {R} (f : CFileObj) : M FileState R unit :=
  fun s => (Next tt, (fst s, f)).

Definition catch_all_file (text : string) (sentinel : Z) : FileState -> Z * FileState :=
  fun s => (sentinel, (SetLastError text (fst s), snd s)).

Definition with_file (pFile : option CFileObj) (null_text : string)
           (body : CFileObj -> FileState -> Z * FileState) (w : World)
  : Z * option CFileObj * World :=
  match pFile with
  | None => (RX_FAILURE, None, SetLastError null_text w)
  | Some file =>
      match body file (w, file) with
      | (r, (w', file')) => (r, Some file', w')
      end
  end.



(** *** The database *)

Definition RomeDatabaseClose (pDatabase : option CFileSys) (pszDatabase : option string)
  : API Z :=
  try_catch
    (ASSERT_OR_SETERROR_AND_RETURN_FALSE (isSome pDatabase)
       "RomeDatabaseClose: null database pointer." ;;
     database <- deref pDatabase ;;
     w <- get ;;
     let bValidApp := fs_core_is_App database in
     ASSERT_OR_SETERROR_AND_RETURN_FALSE bValidApp
       "RomeDatabaseClose: invalid database pointer." ;;
     let bExited := HasFlag (App w) DLLSTATE_CLOSED in
     ASSERT_OR_SETERROR_AND_RETURN_FALSE (negb bExited)
       "RomeDatabaseClose: RomeExit() has already been called." ;;
     (if USE_ROMEAPI_THREADIdS cfg then
        nCurThreadId <- GetCurrentThreadId ;;
        let bSameThread := Z.eqb (m_nThreadId (App w)) nCurThreadId in
        ASSERT_OR_SETERROR_AND_RETURN_FALSE (negb bSameThread)
          "RomeDatabaseClose: Rome API function called on different thread from RomeInit()."
      else ret tt) ;;
     fs_call (fun m => option_map (fun r => (tt, fst r, snd r))
                         (CloseFiles fs (CVF_CloseFiles flags) m)) ;;
     w <- get ;;
     (if FilesToClose fs false (model w) then return_ RX_FALSE else ret tt) ;;
     (* Close the current database. *)
     bClosed <- fs_call (fun m => option_map (fun r => (fst r, snd r, [])) (CloseDatabase fs m)) ;;
     return_ bClosed)
    (catch_all ("RomeDatabaseClose: exception for Database = '" ++ CStr pszDatabase ++ "'.")
       RX_FALSE).

Definition RomeDatabaseOpen (pDatabase : option CFileSys) (pszDatabase : option string)
  : API Z :=
  try_catch
    (ASSERT_OR_SETERROR_AND_RETURN_FAILURE (isSome pDatabase)
       "RomeDatabaseOpen: NULL database pointer." ;;
     database <- deref pDatabase ;;
     w <- get ;;
     let bValidApp := fs_core_is_App database in
     ASSERT_OR_SETERROR_AND_RETURN_FAILURE bValidApp
       "RomeDatabaseOpen: invalid database pointer." ;;
     let bExited := HasFlag (App w) DLLSTATE_CLOSED in
     ASSERT_OR_SETERROR_AND_RETURN_FAILURE (negb bExited)
       "RomeDatabaseOpen: RomeExit() has already been called." ;;
     (if USE_ROMEAPI_THREADIdS cfg then
        nCurThreadId <- GetCurrentThreadId ;;
        let bSameThread := Z.eqb (m_nThreadId (App w)) nCurThreadId in
        ASSERT_OR_SETERROR_AND_RETURN_FAILURE (negb bSameThread)
          "RomeDatabaseOpen: Rome API function called on different thread from RomeInit()."
      else ret tt) ;;
     fs_call (fun m => option_map (fun r => (tt, fst r, snd r))
                         (CloseFiles fs (CVF_CloseFiles flags) m)) ;;
     w <- get ;;
     let bOpenFiles := FilesToClose fs false (model w) in
     ASSERT_OR_SETERROR_AND_RETURN_FALSE (negb bOpenFiles)
       "RomeDatabaseOpen: files still remaining open." ;;
     (* Close the current database. *)
     bClosed <- fs_call (fun m => option_map (fun r => (fst r, snd r, [])) (CloseDatabase fs m)) ;;
     ASSERT_OR_SETERROR_AND_RETURN_FALSE (negb (Z.eqb bClosed 0))
       "RomeDatabaseOpen: failed to close database." ;;
     bOpened <- fs_call (Open fs pszDatabase) ;;
     return_ bOpened)
    (catch_all ("RomeDatabaseOpen: exception for Database = '" ++ CStr pszDatabase ++ "'.")
       RX_FAILURE).

(** *** The status bar *)

(** A [RT_Statusbar*] is NULL or not; [true] is a pointer that is not
    NULL. *)
Definition RomeGetStatusbar (pApp : AppPtr) : API bool :=
  try_catch
    (if BUILD_MOSES build then
       ASSERT_OR_SETERROR_AND_RETURN (negb (is_AppNull pApp))
         "RomeGetStatusbar: NULL Rome app pointer." false ;;
       let bValidApp := is_AppGlobal pApp in
       ASSERT_OR_SETERROR_AND_RETURN bValidApp
         "RomeGetStatusbar: invalid Rome app pointer." false ;;
       w <- get ;;
       let bExited := HasFlag (App w) DLLSTATE_CLOSED in
       ASSERT_OR_SETERROR_AND_RETURN (negb bExited)
         "RomeGetStatusbar: RomeExit() has already been called." false ;;
       (if USE_ROMEAPI_THREADIdS cfg then
          nCurThreadId <- GetCurrentThreadId ;;
          let bSameThread := Z.eqb (m_nThreadId (App w)) nCurThreadId in
          ASSERT_OR_SETERROR_AND_RETURN (negb bSameThread)
            "RomeGetStatusbar: Rome API function called on different thread from RomeInit()."
            false
        else ret tt) ;;
       let pFrame := GetMainFrame frame (model w) in
       if negb pFrame then return_ false else return_ true
     else return_ false)
    (catch_all "RomeGetStatusbar: exception." false).

Definition frame_call {R} (f : Model -> option (Z * Model)) : M World R Z :=
  w <- get ;;
  match f (model w) with
  | None => throw
  | Some (r, m) => put (set_model m w) ;; ret r
  end.

Definition RomeProgressCreate (pStatus : bool) (nLower nUpper nStep : Z) : API Z :=
  try_catch
    (pStatus <- (if negb pStatus then call (RomeGetStatusbar AppGlobal) else ret pStatus) ;;
     TEST_OR_SETERROR_AND_RETURN pStatus
       "RomeProgressCreate: NULL statusbar pointer." RX_FALSE ;;
     w <- get ;;
     let bExited := HasFlag (App w) DLLSTATE_CLOSED in
     ASSERT_OR_SETERROR_AND_RETURN_FALSE (negb bExited)
       "RomeProgressCreate: RomeExit() has already been called." ;;
     (if USE_ROMEAPI_THREADIdS cfg then
        nCurThreadId <- GetCurrentThreadId ;;
        let bSameThread := Z.eqb (m_nThreadId (App w)) nCurThreadId in
        ASSERT_OR_SETERROR_AND_RETURN_FALSE (negb bSameThread)
          "RomeProgressCreate: Rome API function called on different thread from RomeInit()."
      else ret tt) ;;
     ASSERT_OR_SETERROR_AND_RETURN_FALSE (0 <=? nLower)%Z
       "RomeProgressCreate: invalid (negative) lower index." ;;
     ASSERT_OR_SETERROR_AND_RETURN_FALSE (0 <=? nUpper)%Z
       "RomeProgressCreate: invalid (negative) upper index." ;;
     ASSERT_OR_SETERROR_AND_RETURN_FALSE (1 <=? nStep)%Z
       "RomeProgressCreate: invalid step value (must be > 0)." ;;
     ASSERT_OR_SETERROR_AND_RETURN_FALSE (nLower <? nUpper)%Z
       "RomeProgressCreate: invalid upper index (less than lower index)." ;;
     if BUILD_MOSES build then
       r <- frame_call (ProgressCreate frame nLower nUpper nStep) ;;
       return_ r
     else return_ RX_FALSE)
    (* the handler is reached from [ProgressCreate], where the pointer is not NULL *)
    (catch_all ("RomeProgressCreate: exception for Status = " ++ FormatStatus frame true
                ++ ", Lower=" ++ Int2Str core nLower
                ++ ", Upper=" ++ Int2Str core nUpper ++ ", Step=" ++ Int2Str core nStep ++ ".")
       RX_FALSE).

End MoreFacade.

(** ** A small core to run the facade on

    One profile-like object type with a resizable dimension [ROWS] and a
    soil-like one with a scalar [CLAY]. The model maps the name of each live
    attribute to its values. *)

Module Toy.

Definition Model := gmap string (list string).
Definition Task := string.
Definition CAttr := string.
Definition CListing := list string.

Definition catalog : list (string * CListing) :=
  [("ROWS", ["PROFILE"]); ("CLAY", ["SOIL"]); ("BIG", ["PROFILE"])].

(** [BIG] stands for a large table that the model keeps in blocks of ten
    thousand rows. *)
Definition size_of (a : CAttr) (n : nat) : Z :=
  if String.eqb a "BIG" then 10000 * Z.of_nat n else Z.of_nat n.

Fixpoint lookup_listing (name : string) (c : list (string * CListing)) : option CListing :=
  match c with
  | [] => None
  | (n, l) :: c' => if String.eqb n name then Some l else lookup_listing name c'
  end.

Definition valid_object (l : CListing) (obj : string) : bool :=
  existsb (String.eqb obj) l.

Definition values (a : CAttr) (m : Model) : list string :=
  default [] (m !! a).

Definition find_or_create (name : string) (f : CFileObj) (m : Model)
  : option (option CAttr * Model * list Task) :=
  match lookup_listing name catalog with
  | None => Some (None, m, [])
  | Some l =>
      if valid_object l (f_ObjTypeName f) then
        match m !! name with
        | Some _ => Some (Some name, m, [])
        | None => Some (Some name, <[name := ["0"]]> m, [name])
        end
      else Some (None, m, [])
  end.

Definition in_range (i : Z) (n : nat) : bool := (0 <=? i)%Z && (i <? Z.of_nat n)%Z.

Definition resize_dim (pDim : option CAttr) (psz : string) (nIndex : Z) (bDelete : bool)
           (m : Model) : option (Z * Model * list Task) :=
  match pDim with
  | None => None
  | Some a =>
      let vs := values a m in
      let i := Z.to_nat nIndex in
      if bDelete then
        if in_range nIndex (length vs)
        then Some (1, <[a := (firstn i vs ++ skipn (S i) vs)%list]> m, [a])
        else None
      else
        if in_range nIndex (S (length vs))
        then Some (1, <[a := (firstn i vs ++ "0" :: skipn i vs)%list]> m, [a])
        else None
  end.

Definition get_str (a : CAttr) (nIndex nVariant : Z) (unit_ : string) (m : Model)
  : option (option string) :=
  if in_range nIndex (length (values a m))
  then Some (nth_error (values a m) (Z.to_nat nIndex))
  else None.

Definition set_str (a : CAttr) (v : string) (nIndex nVariant : Z) (unit_ : string)
           (m : Model) : option (Z * Model * list Task) :=
  let vs := values a m in
  if in_range nIndex (length vs) then
    if String.eqb (nth (Z.to_nat nIndex) vs EmptyString) v
    then Some (0, m, [])
    else Some (1, <[a := (firstn (Z.to_nat nIndex) vs ++ v :: skipn (S (Z.to_nat nIndex)) vs)%list]> m, [a])
  else Some (-1, m, []).

Definition add_flag (f : DllState) (c : CRomeCore Task) : CRomeCore Task :=
  mkCore (f :: m_nFlags c) (m_nThreadId c) (m_sCommandLine c) (Engine c).

Definition core : Collab Model Task CAttr CListing :=
  {| RunTask := fun _ m => m;
     FindOrCreate_ := find_or_create;
     GetSize_ := fun a m => size_of a (length (values a m));
     DimGetSize_ := fun a _ m => Z.of_nat (length (values a m));
     IsDimension := fun a => String.eqb a "ROWS";
     CanUserResize := fun a => String.eqb a "ROWS";
     IsValidUnits := fun _ _ => true;
     GetDimPtr := fun _ _ => Some "ROWS";
     AttrGetIndex_ := fun _ _ _ => 0;
     AttrGetStr_ := get_str;
     UserCmdResizeDim_ := resize_dim;
     DoCmdSetStr_ := set_str;
     GetListing := fun name => lookup_listing name catalog;
     IsValidObject := valid_object;
     Int2Str := fun z => NilZero.string_of_int (Z.to_int z);
     FormatPtr := fun _ => "0x00000000";
     ParseArgs := fun a => Some [CStr a];
     CoreInit := fun _ c m => Some (AppGlobal, add_flag DLLSTATE_INITROME c, m);
     CoreExit := fun c m => Some (1, add_flag DLLSTATE_CLOSED c, m) |}.

Definition cfg : Config := mkConfig false false false 255.

Definition profile : CFileObj := mkFile true true 1 "profiles\default" "PROFILE" false.
Definition soil : CFileObj := mkFile true true 1 "soils\loam" "SOIL" false.

(** A session initialised on thread 1, with auto-run on and one task
    pending; the file holds four rows. *)
Definition m0 : Model :=
  {["ROWS" := ["0"; "0"; "0"; "0"]; "BIG" := ["0"; "0"; "0"; "0"]]}.

Definition world (tid : Z) (flags : list DllState) : World Model Task CAttr :=
  mkWorld (mkCore flags 1 None (mkEngine ["pending"] true 0)) tid ∅ [] m0.

Definition w0 : World Model Task CAttr := world 1 [DLLSTATE_INITROME].

(** Files for the dependency walk: a profile that points to a soil and a
    climate, and the soil points back to the profile. *)
Definition ptr (name : string) : string * option CSubObj :=
  (name, Some (mkSubObj true name)).

Definition files : list (string * WalkFile) :=
  [("profiles\default",
     mkWalkFile [mkWalkAttr (Some ATTR_PTR) [ptr "soils\loam"; ptr "climates\knoxville"];
                 mkWalkAttr (Some ATTR_FLT) [("1.5", None)]]);
   ("soils\loam", mkWalkFile [mkWalkAttr (Some ATTR_PTR) [ptr "profiles\default"]]);
   ("climates\knoxville", mkWalkFile [mkWalkAttr None []])].

Fixpoint lookup_file (name : string) (fs : list (string * WalkFile)) : option WalkFile :=
  match fs with
  | [] => None
  | (n, f) :: fs' => if String.eqb n name then Some f else lookup_file name fs'
  end.

Fixpoint array_find (l : list string) (s : string) (i : Z) : Z :=
  match l with
  | [] => -1
  | x :: l' => if String.eqb x s then i else array_find l' s (i + 1)
  end.

Definition fsys : FilesCollab Model :=
  {| OpenFile_ := fun name m => (lookup_file name files, m);
     CloseFile_ := fun _ m => m;
     FileExists_ := fun name _ => isSome (lookup_file name files);
     ArrayFind := fun l s => array_find l s 0 |}.

Definition the_files : CFileSys := mkFileSys true true.

(** A second core for the edge cases. It rejects the unit [furlong], holds
    at most five rows in a dimension, does not parse a command line that is
    a lone quote, and faults in [Exit] while the engine is locked. *)
Definition resize_dim_capped (pDim : option CAttr) (psz : string) (nIndex : Z)
           (bDelete : bool) (m : Model) : option (Z * Model * list Task) :=
  if negb bDelete && (5 <=? nIndex)%Z then None
  else resize_dim pDim psz nIndex bDelete m.

Definition lone_quote : string := String "034"%char EmptyString.

Definition core_strict : Collab Model Task CAttr CListing :=
  {| RunTask := fun _ m => m;
     FindOrCreate_ := find_or_create;
     GetSize_ := fun a m => size_of a (length (values a m));
     DimGetSize_ := fun a _ m => Z.of_nat (length (values a m));
     IsDimension := fun a => String.eqb a "ROWS";
     CanUserResize := fun a => String.eqb a "ROWS";
     IsValidUnits := fun _ u => negb (String.eqb u "furlong");
     GetDimPtr := fun _ _ => Some "ROWS";
     AttrGetIndex_ := fun _ _ _ => 0;
     AttrGetStr_ := get_str;
     UserCmdResizeDim_ := resize_dim_capped;
     DoCmdSetStr_ := set_str;
     GetListing := fun name => lookup_listing name catalog;
     IsValidObject := valid_object;
     Int2Str := fun z => NilZero.string_of_int (Z.to_int z);
     FormatPtr := fun _ => "0x00000000";
     ParseArgs := fun a => if String.eqb (CStr a) lone_quote then None else Some [CStr a];
     CoreInit := fun _ c m => Some (AppGlobal, add_flag DLLSTATE_INITROME c, m);
     CoreExit := fun c m =>
       if (0 <? m_nLockCount (Engine c))%Z then None
       else Some (1, add_flag DLLSTATE_CLOSED c, m) |}.



Definition cfg_zero : Config := mkConfig false false true 255.

(** A profile that was just created and holds nothing yet. *)
Definition new_profile : CFileObj := mkFile true true 1 "profiles\new" "PROFILE" true.

(** A value of 300 characters. *)
Definition long_value : string := string_of_list_ascii (repeat "x"%char 300).

(** The session of [w0] with the engine locked once. *)
Definition w_locked : World Model Task CAttr :=
  mkWorld (mkCore [DLLSTATE_INITROME] 1 None (mkEngine ["pending"] true 1)) 1 ∅ [] m0.

(** The catalog of the toy core: a parameter of a profile is a text table
    over [ROWS]; a parameter of a soil is a float that holds whole
    numbers. *)
Definition cat : CatalogCollab CListing :=
  {| GetDim := fun l i =>
       if valid_object l "PROFILE" && (i =? 0)%Z then Some "ROWS" else Some "1";
     GetType := fun l => if valid_object l "SOIL" then Some ATTR_FLT else Some ATTR_STR;
     GetFlag_ACF_INTEGRAL := fun l => valid_object l "SOIL";
     GetParamTag := fun t =>
       match t with
       | Some ATTR_INT => Some "INT"
       | Some ATTR_FLT => Some "FLT"
       | Some _ => Some "STR"
       | None => None
       end |}.

Definition build : Build := mkBuild false false true false.
Definition build_moses : Build := mkBuild true true true false.
Definition build_debug : Build := mkBuild false false true true.

Definition flags : FlagValues := mkFlagValues 1 2 4 8 16 32 64 1 14.


(** A file collection that keeps the names of its open files under
    [#open], the open database under [#database] and the last fileset
    under [#fileset]. It opens the files of [files] and no others, and a
    view is closed for good when no reference to the file is left. *)
Definition file_named (n : string) : CFileObj := mkFile true true 0 n "PROFILE" false.

Definition open_file (n : string) (nFlags : Z) (m : Model)
  : option (option CFileObj * Model * list Task) :=
  match lookup_file n files with
  | Some _ => Some (Some (file_named n), <["#open" := n :: values "#open" m]> m, [])
  | None => Some (None, m, [])
  end.

Definition forget_file (f : CFileObj) (m : Model) : Model :=
  <["#open" := List.remove string_dec (f_FileName f) (values "#open" m)]> m.

Definition close_view (f : CFileObj) (nFlags : Z) (m : Model)
  : option (Z * Model * list Task) :=
  Some (1, if (m_nRomeRefs f <=? 0)%Z then forget_file f m else m, []).

Definition store : FileSysCollab Model Task :=
  {| IsOpen := fun _ => true;
     HasFlag_ := fun n f => negb (Z.land n f =? 0)%Z;
     ImportObject := fun _ _ m => Some (None, m, []);
     ImportObjectXML := fun _ _ m => Some (None, m, []);
     FilesetOpen := fun n _ m => Some (true, <["#fileset" := [n]]> m, []);
     OpenOrCreateFile := open_file;
     GetFile := fun i m => Some (option_map file_named (nth_error (values "#open" m) (Z.to_nat i)));
     CloseView := close_view;
     DeleteFile := fun f m => Some (forget_file f m, []);
     CloseFiles := fun _ m => Some (m, []);
     FilesToClose := fun _ m => negb (Nat.eqb (length (values "#open" m)) 0);
     CloseDatabase := fun m => Some (1, delete "#database" m);
     Open := fun n m =>
       match n with
       | Some s => Some (1, <["#database" := [s]]> m, [])
       | None => None
       end;
     FormatHex := fun _ => "00000000" |}.

(** A model with one file open. *)
Definition m_open : Model := <["#open" := ["soils\loam"]]> m0.

Definition w_open : World Model Task CAttr :=
  mkWorld (mkCore [DLLSTATE_INITROME] 1 None (mkEngine [] true 0)) 1 ∅ [] m_open.

(** A frame whose progress bar keeps its range under [#progress], and
    float arrays that read every value as 0. *)
Definition Real := Z.

Definition frame : FrameCollab Model Task CAttr Real :=
  {| GetMainFrame := fun _ => true;
     ProgressCreate := fun lo hi st m =>
       Some (1, <["#progress" := [Int2Str core lo; Int2Str core hi; Int2Str core st]]> m);
     FormatStatus := fun _ => "0x08X";
     VariantIsValid := fun v _ => (-2 <=? v)%Z && (v <=? 2)%Z;
     AttrGetFloatArray := fun a arr n _ _ m =>
       Some (1, firstn (Z.to_nat n) (map (fun _ => 0%Z) (values a m)),
             Z.of_nat (length (values a m))) |}.

End Toy.

(** ** Vocabulary for the statements *)

Section Vocabulary.

Context {Model Task CAttr CListing : Type}.
Variable cfg : Config.
Variable core : Collab Model Task CAttr CListing.

Abbreviation World := (World Model Task CAttr).

(** The checks that every file function makes on a non-NULL file pointer
    before it touches the core. *)
Definition file_call_ok (file : CFileObj) (w : World) : bool :=
  f_core_is_App file &&
  negb (HasFlag (App w) DLLSTATE_CLOSED) &&
  f_IsValid file &&
  (negb (USE_ROMEAPI_REFCOUNT cfg) || (1 <=? m_nRomeRefs file)%Z) &&
  (negb (USE_ROMEAPI_THREADIdS cfg) || negb (Z.eqb (m_nThreadId (App w)) (cur_thread w))).

(** The model after the tasks [ts] have run, first task first. *)
Definition run_tasks (ts : list Task) (m : Model) : Model :=
  fold_left (fun m t => RunTask core t m) ts m.

(** The model of [w] once its pending updates have run. *)
Definition settled_model (w : World) : Model :=
  run_tasks (m_stack (Engine (App w))) (model w).

(** The world after a call that went through the events [evs], left the
    model [m] and the tasks [ts] on the stack; the auto-run flag, the lock
    count and the strings are those of [w]. *)
Definition world_after (w : World) (evs : list (Event CAttr)) (ts : list Task) (m : Model)
  : World :=
  let e := Engine (App w) in
  mkWorld (mkCore (m_nFlags (App w)) (m_nThreadId (App w)) (m_sCommandLine (App w))
                  (mkEngine ts (m_bUpdating e) (m_nLockCount e)))
          (cur_thread w) (named_strings w) (trace w ++ evs)%list m.



(** The commands that [i] turns of the loop of [RomeFileSetAttrSize] issue
    from index [nIndex] on, in [int] arithmetic. *)
Fixpoint rows_events (i : nat) (attr : CAttr) (nIndex : Z) (bDelete : bool)
  : list (Event CAttr) :=
  match i with
  | O => []
  | S i' =>
      EvUserCmdResizeDim (Some attr) nIndex bDelete
      :: rows_events i' attr (if bDelete then to_int (nIndex - 1) else to_int (nIndex + 1))
           bDelete
  end.




(** Successive calls of [RomeInit]. *)
Fixpoint RomeInit_calls (argss : list (option string)) (w : World) : list AppPtr * World :=
  match argss with
  | [] => ([], w)
  | pszArgs :: rest =>
      let (p, w') := RomeInit cfg core pszArgs w in
      let (ps, w'') := RomeInit_calls rest w' in
      (p :: ps, w'')
  end.

(** No call into the core lies between [w] and [w']: the session, the trace
    and the model are the same; only the named strings of the thread may
    differ. *)
Definition core_untouched (w w' : World) : Prop :=
  App w' = App w /\ cur_thread w' = cur_thread w /\
  trace w' = trace w /\ model w' = model w.

(** A call that was refused before it reached the core: it returned
    [sentinel] and left [text] as the last error of the thread. *)
Definition refused {R} (w : World) (r : R * World) (sentinel : R) (text : string) : Prop :=
  fst r = sentinel /\ core_untouched w (snd r) /\ last_error (snd r) = text.

Definition is_lock (e : Event CAttr) : bool :=
  match e with EvLockUpdate => true | _ => false end.

Definition is_unlock (e : Event CAttr) : bool :=
  match e with EvUnlockUpdate => true | _ => false end.

Definition is_core_command (e : Event CAttr) : bool :=
  match e with
  | EvUserCmdResizeDim _ _ _ | EvDoCmdSetStr _ _ _ => true
  | _ => false
  end.



End Vocabulary.

(** * Properties *)

(** ** The error buffer *)

Section ErrorChannelFacts.

Context {Model Task CAttr : Type}.
Variable cfg : Config.

Abbreviation World := (World Model Task CAttr).

Lemma append_assoc (a b c : string) : (a ++ b) ++ c = a ++ b ++ c.
Proof.
  induction a as [|x a' IH]; [reflexivity|].
  change (String x ((a' ++ b) ++ c) = String x (a' ++ b ++ c)).
  rewrite IH. reflexivity.
Qed.

Lemma last_error_set (s : string) (w : World) :
  last_error (RomeThreadSetNamedString "RomeGetLastError" s w) = s.
Proof.
  unfold last_error, RomeThreadGetNamedString, RomeThreadSetNamedString; simpl.
  rewrite lookup_insert_eq. reflexivity.
Qed.

Lemma last_error_SetLastError (text : string) (w : World) :
  last_error (SetLastError text w) = edit_error (last_error w) (Some text).
Proof. unfold SetLastError. apply last_error_set. Qed.

Lemma RomeSetLastError_accepted (pApp : AppPtr) (pszInfo : option string) (w : World) :
  error_call_accepted cfg pApp w = true ->
  RomeSetLastError cfg pApp pszInfo w =
    (RX_TRUE,
     RomeThreadSetNamedString "RomeGetLastError" (edit_error (last_error w) pszInfo) w).
Proof.
  unfold error_call_accepted, RomeSetLastError, try_catch, bind, ASSERT_OR_RETURN,
    GetCurrentThreadId, get, put, ret, return_.
  destruct pApp; simpl; try discriminate; try reflexivity.
  destruct (HasFlag (App w) DLLSTATE_CLOSED); simpl; try discriminate.
  destruct (USE_ROMEAPI_THREADIdS cfg); simpl; try reflexivity.
  destruct (Z.eqb (m_nThreadId (App w)) (cur_thread w)); simpl; try discriminate.
  reflexivity.
Qed.

Lemma error_call_accepted_set (pApp : AppPtr) (name s : string) (w : World) :
  error_call_accepted cfg pApp (RomeThreadSetNamedString name s w)
  = error_call_accepted cfg pApp w.
Proof. reflexivity. Qed.

Lemma RomeGetLastError_reads (pApp : AppPtr) (w : World) :
  error_call_accepted cfg pApp w = true ->
  USE_ROMEAPI_THREADIdS cfg = false ->
  HasFlag (App w) DLLSTATE_CLOSED = false ->
  RomeGetLastError cfg pApp w = (Some (last_error w), w).
Proof.
  unfold error_call_accepted, RomeGetLastError, try_catch, bind, ASSERT_OR_RETURN,
    GetCurrentThreadId, get, put, ret, return_.
  intros Hacc Hthr Hopen. rewrite Hthr in *.
  destruct pApp; simpl in *; try discriminate; rewrite Hopen; reflexivity.
Qed.

Lemma HasFlag_set (f : DllState) (name s : string) (w : World) :
  HasFlag (App (RomeThreadSetNamedString name s w)) f = HasFlag (App w) f.
Proof. reflexivity. Qed.

(** C6. When the session accepts the call, [RomeSetLastError] with a text
    starting with '+' appends the remainder to the buffer on a new line (or
    just sets it when the buffer is empty), with '-' it prepends the remainder
    on a new line (or just sets it when the buffer is empty), with '=' it
    replaces the buffer with the remainder, and a text without a prefix
    character replaces the buffer. After setting a, then +b, then -c the
    buffer is c, a, b on three lines and after =d it is d; that is also what
    [RomeGetLastError] returns in an open session built without thread ids. *)
Theorem C6_error_buffer_editing (pApp : AppPtr) (w : World)
  (Hacc : error_call_accepted cfg pApp w = true) :
  let old := last_error w in
  let set text := RomeSetLastError cfg pApp (Some text) in
  (forall rest,
      fst (set (String "+" rest) w) = RX_TRUE /\
      last_error (snd (set (String "+" rest) w))
      = if strempty (Some old) then rest else old ++ LF ++ rest) /\
  (forall rest,
      fst (set (String "-" rest) w) = RX_TRUE /\
      last_error (snd (set (String "-" rest) w))
      = if strempty (Some old) then rest else rest ++ LF ++ old) /\
  (forall rest,
      fst (set (String "=" rest) w) = RX_TRUE /\
      last_error (snd (set (String "=" rest) w)) = rest) /\
  (forall text,
      has_prefix_char text = false ->
      fst (set text w) = RX_TRUE /\ last_error (snd (set text w)) = text) /\
  (let w1 := snd (set "a" w) in
   let w2 := snd (set "+b" w1) in
   let w3 := snd (set "-c" w2) in
   let w4 := snd (set "=d" w3) in
   last_error w3 = "c" ++ LF ++ "a" ++ LF ++ "b" /\
   last_error w4 = "d" /\
   (USE_ROMEAPI_THREADIdS cfg = false ->
    HasFlag (App w) DLLSTATE_CLOSED = false ->
    fst (RomeGetLastError cfg pApp w3) = Some ("c" ++ LF ++ "a" ++ LF ++ "b") /\
    fst (RomeGetLastError cfg pApp w4) = Some "d")).
Proof.
  intros old set.
  assert (Hset : forall text w', error_call_accepted cfg pApp w' = true ->
             set text w' = (RX_TRUE, RomeThreadSetNamedString "RomeGetLastError"
                                      (edit_error (last_error w') (Some text)) w')).
  { intros text w' H. unfold set. apply RomeSetLastError_accepted; exact H. }
  assert (Hret : forall text, fst (set text w) = RX_TRUE).
  { intros text. rewrite Hset by exact Hacc. reflexivity. }
  assert (Hkeep : forall text w', error_call_accepted cfg pApp w' = true ->
             error_call_accepted cfg pApp (snd (set text w')) = true).
  { intros text w' H. rewrite Hset by exact H. exact H. }
  assert (Hopen : forall text w' f, error_call_accepted cfg pApp w' = true ->
             HasFlag (App (snd (set text w'))) f = HasFlag (App w') f).
  { intros text w' f H. rewrite Hset by exact H. reflexivity. }
  assert (Hedit : forall text w', error_call_accepted cfg pApp w' = true ->
             last_error (snd (set text w')) = edit_error (last_error w') (Some text)).
  { intros text w' H. rewrite Hset by exact H. apply last_error_set. }
  assert (Hseq3 : last_error (snd (set "-c" (snd (set "+b" (snd (set "a" w))))))
                  = "c" ++ LF ++ "a" ++ LF ++ "b").
  { rewrite !Hedit by auto. reflexivity. }
  assert (Hseq4 : last_error (snd (set "=d" (snd (set "-c" (snd (set "+b" (snd (set "a" w))))))))
                  = "d").
  { rewrite (Hedit "=d") by auto. reflexivity. }
  split; [|split; [|split; [|split]]].
  - intros rest. split; [apply Hret|].
    rewrite Hedit by exact Hacc. fold old.
    destruct old; [reflexivity|]. apply append_assoc.
  - intros rest. split; [apply Hret|].
    rewrite Hedit by exact Hacc. fold old.
    destruct old; reflexivity.
  - intros rest. split; [apply Hret|].
    rewrite Hedit by exact Hacc. reflexivity.
  - intros text H. split; [apply Hret|].
    rewrite Hedit by exact Hacc.
    destruct text as [|c text']; [reflexivity|].
    destruct c as [[] [] [] [] [] [] [] []]; simpl in H; try discriminate; reflexivity.
  - cbv zeta. split; [exact Hseq3|]. split; [exact Hseq4|].
    intros Hthr Hnotclosed. split.
    + rewrite RomeGetLastError_reads; auto.
      * simpl fst. rewrite Hseq3. reflexivity.
      * rewrite !Hopen by auto. exact Hnotclosed.
    + rewrite RomeGetLastError_reads; auto.
      * simpl fst. rewrite Hseq4. reflexivity.
      * rewrite !Hopen by auto. exact Hnotclosed.
Qed.

End ErrorChannelFacts.

(** ** The file functions on the path where the attribute resolves *)

Section FacadeFacts.

Context {Model Task CAttr CListing : Type}.
Variable cfg : Config.
Variable core : Collab Model Task CAttr CListing.

Abbreviation World := (World Model Task CAttr).

Ltac api_unfold :=
  unfold with_CUpdateLock;
  unfold LockUpdate, UnlockUpdate, FinishUpdates, FindOrCreate, SetActiveObj, GetSize,
    DimGetSize, AttrGetIndex, AttrGetStr, UserCmdResizeDim, DoCmdSetStr, Init, Exit;
  unfold log_event, GetCurrentThreadId, catch_all,
    ASSERT_OR_SETERROR_AND_RETURN_FAILURE, ASSERT_OR_SETERROR_AND_RETURN_FALSE,
    ASSERT_OR_SETERROR_AND_RETURN_NULL_int, ASSERT_OR_SETERROR_AND_RETURN_NULL;
  unfold ASSERT_OR_SETERROR_AND_RETURN, ASSERT_OR_RETURN;
  unfold try_catch, bind, ret, return_, throw, get, put, deref.

Lemma file_call_ok_elim (file : CFileObj) (w : World) :
  file_call_ok cfg file w = true ->
  f_core_is_App file = true /\
  HasFlag (App w) DLLSTATE_CLOSED = false /\
  f_IsValid file = true /\
  (USE_ROMEAPI_REFCOUNT cfg = true -> (1 <=? m_nRomeRefs file)%Z = true) /\
  (USE_ROMEAPI_THREADIdS cfg = true ->
   Z.eqb (m_nThreadId (App w)) (cur_thread w) = false).
Proof.
  unfold file_call_ok. intros H.
  repeat (apply andb_prop in H; destruct H as [H ?]).
  repeat split; try assumption.
  - destruct (HasFlag (App w) DLLSTATE_CLOSED); [discriminate | reflexivity].
  - intros Hc. rewrite Hc in *. assumption.
  - intros Hc. rewrite Hc in *.
    destruct (Z.eqb (m_nThreadId (App w)) (cur_thread w)); [discriminate | reflexivity].
Qed.

#[local] Arguments strempty : simpl never.
#[local] Arguments HasFlag : simpl never.
#[local] Arguments SetLastError : simpl never.
#[local] Arguments RomeThreadSetNamedString : simpl never.
#[local] Arguments to_short : simpl never.
#[local] Arguments to_int : simpl never.
#[local] Arguments Z.eqb : simpl never.
#[local] Arguments Z.leb : simpl never.
#[local] Arguments Z.ltb : simpl never.
#[local] Arguments strlen : simpl never.
#[local] Arguments strieq : simpl never.

(** The checks of a file function, once they are known to pass; [pre] deals
    with the checks on the other arguments that come first. *)
Ltac pass_checks_with Hok pre :=
  apply file_call_ok_elim in Hok;
  let Happ := fresh "Happ" in
  let Hopen := fresh "Hopen" in
  let Hvalid := fresh "Hvalid" in
  let Hrefs := fresh "Hrefs" in
  let Hthr := fresh "Hthr" in
  destruct Hok as (Happ & Hopen & Hvalid & Hrefs & Hthr);
  api_unfold; simpl; pre; simpl;
  rewrite ?Happ, ?Hopen, ?Hvalid; simpl;
  destruct (USE_ROMEAPI_REFCOUNT cfg); [rewrite (Hrefs eq_refl) | clear Hrefs]; simpl;
  (destruct (USE_ROMEAPI_THREADIdS cfg); [rewrite (Hthr eq_refl) | clear Hthr]; simpl).

Ltac pass_checks Hok := pass_checks_with Hok idtac.

Lemma lock_unlock (n : Z) : (n + 1 + -1 = n)%Z.
Proof. lia. Qed.

Ltac finish_world :=
  unfold world_after, core_effect, drain, set_Engine, set_lock, run_tasks, settled_model;
  simpl; rewrite ?app_nil_r; rewrite <- ?app_assoc; rewrite ?lock_unlock; simpl;
  reflexivity.

Lemma RomeFileGetAttrSizeEx_resolved (file : CFileObj) (name : string) (w : World)
      (attr : CAttr) (m : Model) (ts : list Task) :
  strempty (Some name) = false ->
  file_call_ok cfg file w = true ->
  FindOrCreate_ core name file (settled_model core w) = Some (Some attr, m, ts) ->
  RomeFileGetAttrSizeEx cfg core (Some file) (Some name) w =
    (GetSize_ core attr (run_tasks core ts m),
     world_after w [EvFinishUpdates; EvFindOrCreate name; EvFinishUpdates; EvGetSize attr]
                 [] (run_tasks core ts m)).
Proof.
  intros Hname Hok Hfoc.
  unfold RomeFileGetAttrSizeEx. rewrite Hname. simpl negb.
  pass_checks Hok.
  all: unfold settled_model, run_tasks in Hfoc; rewrite Hfoc; simpl.
  all: destruct (USE_ROMEAPI_ZEROATTRSIZE cfg); simpl.
  all: finish_world.
Qed.

Lemma RomeFileGetAttrSize_resolved (file : CFileObj) (name : string) (w : World)
      (attr : CAttr) (m : Model) (ts : list Task) :
  strempty (Some name) = false ->
  file_call_ok cfg file w = true ->
  FindOrCreate_ core name file (settled_model core w) = Some (Some attr, m, ts) ->
  let nSize := GetSize_ core attr (run_tasks core ts m) in
  let w' := world_after w [EvFinishUpdates; EvFindOrCreate name; EvFinishUpdates;
                           EvGetSize attr] [] (run_tasks core ts m) in
  RomeFileGetAttrSize cfg core (Some file) (Some name) w =
    if Z.eqb nSize (to_short nSize)
    then (to_short nSize, w')
    else (RX_FAILURE,
          SetLastError "RomeFileGetAttrSize: size is too large to cast to short." w').
Proof.
  intros Hname Hok Hfoc nSize w'.
  unfold RomeFileGetAttrSize. rewrite Hname. simpl negb.
  pass_checks Hok.
  all: unfold settled_model, run_tasks in Hfoc; rewrite Hfoc; simpl.
  all: destruct (USE_ROMEAPI_ZEROATTRSIZE cfg); simpl.
  all: subst nSize w'; unfold run_tasks; rewrite ?app_nil_r.
  all: destruct (Z.eqb _ (to_short _)); simpl.
  all: try (f_equal; f_equal); finish_world.
Qed.

Lemma RomeFileGetAttrDimSize_resolved (file : CFileObj) (name : string) (nDim : Z)
      (w : World) (attr : CAttr) (m : Model) (ts : list Task) :
  strempty (Some name) = false ->
  file_call_ok cfg file w = true ->
  FindOrCreate_ core name file (settled_model core w) = Some (Some attr, m, ts) ->
  RomeFileGetAttrDimSize cfg core (Some file) (Some name) nDim w =
    (DimGetSize_ core attr nDim (run_tasks core ts m),
     world_after w [EvFinishUpdates; EvFindOrCreate name; EvFinishUpdates;
                    EvDimGetSize attr nDim] [] (run_tasks core ts m)).
Proof.
  intros Hname Hok Hfoc.
  unfold RomeFileGetAttrDimSize. rewrite Hname. simpl negb.
  pass_checks Hok.
  all: unfold settled_model, run_tasks in Hfoc; rewrite Hfoc; simpl.
  all: finish_world.
Qed.


(** [RomeFileGetAttrValueAux] with an index that is not negative. *)
Lemma RomeFileGetAttrValueAux_value (file : CFileObj) (name : string) (nIndex : Z)
      (nVariant : Z) (pszUnit : string) (w : World)
      (attr : CAttr) (m : Model) (ts : list Task) :
  strempty (Some name) = false ->
  (0 <= nIndex)%Z ->
  file_call_ok cfg file w = true ->
  FindOrCreate_ core name file (settled_model core w) = Some (Some attr, m, ts) ->
  IsValidUnits core attr pszUnit = true ->
  let unit_ := if Z.eqb (strlen pszUnit) 0 then "#U_TEMPLATE" else pszUnit in
  let evs := [EvFinishUpdates; EvFindOrCreate name; EvSetActiveObj; EvFinishUpdates;
              EvAttrGetStr attr nIndex] in
  RomeFileGetAttrValueAux cfg core (Some file) (Some name) nIndex nVariant pszUnit w =
    match AttrGetStr_ core attr nIndex nVariant unit_ (run_tasks core ts m) with
    | Some pszValue =>
        (Some (match pszValue with None => "NULL" | Some v => v end),
         world_after w (evs ++ [EvSetActiveObj]) [] (run_tasks core ts m))
    | None =>
        (None,
         SetLastError ("RomeFileGetAttrValue: exception for File = '"
                       ++ FormatPtr core (Some file) ++ "', Attr = '" ++ name
                       ++ "', Index = " ++ Int2Str core nIndex ++ ".")
           (world_after w evs [] (run_tasks core ts m)))
    end.
Proof.
  intros Hname Hidx Hok Hfoc Hunits unit_ evs.
  unfold RomeFileGetAttrValueAux. rewrite Hname. simpl negb.
  assert (Hle : (0 <=? nIndex)%Z = true) by (apply Z.leb_le; exact Hidx).
  assert (Hne : Z.eqb nIndex (-1) = false) by (apply Z.eqb_neq; lia).
  rewrite Hle, Hne. simpl orb.
  pass_checks Hok.
  all: unfold settled_model, run_tasks in Hfoc; rewrite Hfoc; simpl.
  all: rewrite Hunits; simpl.
  all: subst unit_ evs; unfold run_tasks; rewrite ?app_nil_r.
  all: destruct (AttrGetStr_ core attr nIndex nVariant _ _) as [pszValue|]; simpl.
  all: f_equal; try f_equal; finish_world.
Qed.

(** *** The resize loop *)

Lemma to_int_id (z : Z) : (- 2147483648 <= z <= 2147483647)%Z -> to_int z = z.
Proof.
  intros H. unfold to_int.
  rewrite Z.mod_small by lia. lia.
Qed.

(** What the loop leaves untouched, and the commands it issued: all [i] of
    them when it falls through, at least one and at most [i] when a command
    throws. It never returns from the function. *)
Lemma resize_rows_spec (i : nat) (attr : CAttr) (nIndex : Z) (bDelete : bool) (w : World) :
  exists k : nat,
    (k <= i)%nat /\
    trace (snd (resize_rows core i attr nIndex bDelete w))
    = (trace w ++ rows_events k attr nIndex bDelete)%list /\
    named_strings (snd (resize_rows core i attr nIndex bDelete w)) = named_strings w /\
    cur_thread (snd (resize_rows core i attr nIndex bDelete w)) = cur_thread w /\
    m_bUpdating (Engine (App (snd (resize_rows core i attr nIndex bDelete w))))
    = m_bUpdating (Engine (App w)) /\
    ((fst (resize_rows core i attr nIndex bDelete w) = Next tt /\ k = i) \/
     (fst (resize_rows core i attr nIndex bDelete w) = Raise /\ (0 < k)%nat)).
Proof.
  revert nIndex w. induction i as [|i IH]; intros nIndex w.
  - exists O. simpl. rewrite app_nil_r. repeat split; auto.
  - simpl resize_rows. api_unfold. simpl.
    destruct (UserCmdResizeDim_ core (Some attr) EmptyString nIndex bDelete (model w))
      as [[[r m] ts]|] eqn:Hcmd; simpl.
    + match goal with
      | |- context [resize_rows core i attr ?idx bDelete ?W] =>
          destruct (IH idx W) as (k & Hk & Htr & Hns & Hct & Hup & Hout)
      end.
      exists (S k). simpl in Htr, Hns, Hct, Hup.
      split; [lia|]. split; [|split; [|split; [|split]]]; try assumption.
      * rewrite Htr. rewrite <- app_assoc. reflexivity.
      * destruct Hout as [[Ho Hki] | [Ho Hki]]; [left | right]; split; auto; lia.
    + exists 1%nat. simpl.
      split; [lia|]. split; [|split; [|split; [|split]]]; try reflexivity.
      right. split; [reflexivity | lia].
Qed.





(** *** [RomeFileSetAttrSize] *)

Lemma RomeFileSetAttrSize_resolved (file : CFileObj) (name : string) (nNewSize : Z)
      (w : World) (attr : CAttr) (m : Model) (ts : list Task) :
  strempty (Some name) = false ->
  (0 < nNewSize)%Z ->
  file_call_ok cfg file w = true ->
  FindOrCreate_ core name file (settled_model core w) = Some (Some attr, m, ts) ->
  IsDimension core attr = true ->
  CanUserResize core attr = true ->
  let nOldSize := GetSize_ core attr (run_tasks core ts m) in
  let nDeltaSize := to_int (nNewSize - nOldSize) in
  let bDelete := (nDeltaSize <? 0)%Z in
  let nNumRows := to_int (Z.abs nDeltaSize) in
  let nIndex := if bDelete then to_int (nOldSize - 1) else nOldSize in
  let w1 := world_after w [EvFinishUpdates; EvSetActiveObj; EvFindOrCreate name;
                           EvFinishUpdates; EvGetSize attr] [] (run_tasks core ts m) in
  let loop := resize_rows core (Z.to_nat nNumRows) attr nIndex bDelete w1 in
  RomeFileSetAttrSize cfg core (Some file) (Some name) nNewSize w =
    match fst loop with
    | Next _ => (if negb (Z.eqb nOldSize nNewSize) then 1 else 0, snd loop)
    | Return r => (r, snd loop)
    | Raise =>
        (RX_FAILURE,
         SetLastError ("RomeFileSetAttrSize: exception for File = '"
                       ++ FormatPtr core (Some file) ++ "', Attr = '" ++ name
                       ++ "', Size = " ++ Int2Str core nNewSize ++ ".") (snd loop))
    end.
Proof.
  intros Hname Hnew Hok Hfoc Hdim Hres nOldSize nDeltaSize bDelete nNumRows nIndex w1 loop.
  unfold RomeFileSetAttrSize. rewrite Hname. simpl negb.
  assert (Hle : (0 <=? nNewSize)%Z = true) by (apply Z.leb_le; lia).
  assert (Hne : Z.eqb nNewSize 0 = false) by (apply Z.eqb_neq; lia).
  rewrite Hle, Hne. simpl negb.
  pass_checks Hok.
  all: unfold settled_model, run_tasks in Hfoc; rewrite Hfoc; simpl.
  all: rewrite Hdim, Hres; simpl; rewrite ?app_nil_r.
  all: fold (run_tasks core ts m); fold nOldSize; fold nDeltaSize; fold bDelete;
    fold nNumRows; fold nIndex.
  all: match goal with
       | |- context [resize_rows _ _ _ _ _ ?W] =>
           replace W with w1 by (subst w1; finish_world)
       end.
  all: fold loop; destruct loop as [[u | r |] w']; reflexivity.
Qed.

(** A requested size that is not positive fails, whatever else is passed. *)
Lemma RomeFileSetAttrSize_nonpositive (pFile : option CFileObj) (pszAttr : option string)
      (nNewSize : Z) (w : World) :
  (nNewSize <= 0)%Z ->
  fst (RomeFileSetAttrSize cfg core pFile pszAttr nNewSize w) = RX_FAILURE.
Proof.
  intros Hsize. unfold RomeFileSetAttrSize. api_unfold.
  destruct pFile as [file|]; simpl; [|reflexivity].
  destruct (strempty pszAttr); simpl; [reflexivity|].
  destruct (Z.leb_spec 0 nNewSize) as [Hge|Hlt]; simpl; [|reflexivity].
  assert (nNewSize = 0%Z) by lia. subst nNewSize. reflexivity.
Qed.

(** An attribute that is not a dimension, or is not marked user-resizable,
    fails with a text of its own. *)
Lemma RomeFileSetAttrSize_not_resizable (file : CFileObj) (name : string) (nNewSize : Z)
      (w : World) (attr : CAttr) (m : Model) (ts : list Task) :
  strempty (Some name) = false ->
  (0 < nNewSize)%Z ->
  file_call_ok cfg file w = true ->
  FindOrCreate_ core name file (settled_model core w) = Some (Some attr, m, ts) ->
  IsDimension core attr && CanUserResize core attr = false ->
  let r := RomeFileSetAttrSize cfg core (Some file) (Some name) nNewSize w in
  fst r = RX_FAILURE /\
  last_error (snd r)
  = if IsDimension core attr
    then "RomeFileSetAttrSize: the attr cannot be resized."
    else "RomeFileSetAttrSize: cannot resize a non-dimension attr.".
Proof.
  intros Hname Hnew Hok Hfoc Hnot.
  unfold RomeFileSetAttrSize. rewrite Hname. simpl negb.
  assert (Hle : (0 <=? nNewSize)%Z = true) by (apply Z.leb_le; lia).
  assert (Hne : Z.eqb nNewSize 0 = false) by (apply Z.eqb_neq; lia).
  rewrite Hle, Hne. simpl negb.
  pass_checks Hok.
  all: unfold settled_model, run_tasks in Hfoc; rewrite Hfoc; simpl.
  all: destruct (IsDimension core attr); simpl in *;
    [rewrite Hnot; simpl|]; (split; [reflexivity|]).
  all: rewrite last_error_SetLastError; reflexivity.
Qed.

(** *** Attributes that do not resolve *)

Lemma RomeFileGetAttrValueAux_unresolved (file : CFileObj) (name : string) (nIndex : Z)
      (nVariant : Z) (pszUnit : string) (w : World) (m : Model) (ts : list Task) :
  strempty (Some name) = false ->
  (-1 <= nIndex)%Z ->
  file_call_ok cfg file w = true ->
  FindOrCreate_ core name file (settled_model core w) = Some (None, m, ts) ->
  let r := RomeFileGetAttrValueAux cfg core (Some file) (Some name) nIndex nVariant pszUnit w in
  fst r = None /\
  last_error (snd r)
  = match GetListing core name with
    | None => "RomeFileGetAttrValue: no Rusle2 parameter of that name."
    | Some listing =>
        if IsValidObject core listing (f_ObjTypeName file)
        then "RomeFileGetAttrValue: failed to create attr."
        else "RomeFileGetAttrValue: Rusle2 parameter asked for in wrong object type."
    end.
Proof.
  intros Hname Hidx Hok Hfoc.
  unfold RomeFileGetAttrValueAux. rewrite Hname. simpl negb.
  assert (Hv : (0 <=? nIndex)%Z || Z.eqb nIndex (-1) = true).
  { destruct (Z.leb_spec 0 nIndex); [reflexivity|].
    simpl. apply Z.eqb_eq. lia. }
  rewrite Hv.
  pass_checks Hok.
  all: unfold settled_model, run_tasks in Hfoc; rewrite Hfoc; simpl.
  all: destruct (GetListing core name) as [listing|]; simpl;
    [destruct (IsValidObject core listing (f_ObjTypeName file)); simpl|].
  all: split; [reflexivity | rewrite last_error_SetLastError; reflexivity].
Qed.

Lemma RomeFileSetAttrValueAux_unresolved (file : CFileObj) (name value : string)
      (nIndex : Z) (nVariant : Z) (pszUnit : string) (w : World) (m : Model)
      (ts : list Task) :
  strempty (Some name) = false ->
  (0 <= nIndex)%Z ->
  (MAX_SETSTR_SIZE cfg <=? 0)%Z || (strlen value <=? MAX_SETSTR_SIZE cfg)%Z = true ->
  file_call_ok cfg file w = true ->
  FindOrCreate_ core name file (settled_model core w) = Some (None, m, ts) ->
  let r := RomeFileSetAttrValueAux cfg core (Some file) (Some name) (Some value) nIndex
             nVariant pszUnit w in
  fst r = RX_FAILURE /\
  last_error (snd r)
  = match GetListing core name with
    | None => "RomeFileSetAttrValue: no Rusle2 parameter of that name."
    | Some listing =>
        if IsValidObject core listing (f_ObjTypeName file)
        then "RomeFileSetAttrValue: failed to create attr."
        else "RomeFileSetAttrValue: Rusle2 parameter asked for in wrong object type."
    end.
Proof.
  intros Hname Hidx Hsize Hok Hfoc.
  unfold RomeFileSetAttrValueAux. rewrite Hname. simpl negb.
  assert (Hle : (0 <=? nIndex)%Z = true) by (apply Z.leb_le; lia).
  rewrite Hle.
  pass_checks_with Hok ltac:(rewrite Hsize).
  all: unfold settled_model, run_tasks in Hfoc; rewrite Hfoc; simpl.
  all: destruct (GetListing core name) as [listing|]; simpl;
    [destruct (IsValidObject core listing (f_ObjTypeName file)); simpl|].
  all: split; [reflexivity | rewrite last_error_SetLastError; reflexivity].
Qed.

(** *** Setting a value *)

Lemma RomeFileSetAttrValueAux_value (file : CFileObj) (name value : string)
      (nIndex : Z) (nVariant : Z) (pszUnit : string) (w : World)
      (attr : CAttr) (m : Model) (ts : list Task) :
  strempty (Some name) = false ->
  (0 <= nIndex)%Z ->
  (MAX_SETSTR_SIZE cfg <=? 0)%Z || (strlen value <=? MAX_SETSTR_SIZE cfg)%Z = true ->
  file_call_ok cfg file w = true ->
  FindOrCreate_ core name file (settled_model core w) = Some (Some attr, m, ts) ->
  IsValidUnits core attr pszUnit = true ->
  strieq value "#INSERT" = false ->
  strieq value "#DELETE" = false ->
  let unit_ := if Z.eqb (strlen pszUnit) 0 then "#U_TEMPLATE" else pszUnit in
  let evs := [EvFinishUpdates; EvLockUpdate; EvFindOrCreate name; EvUnlockUpdate;
              EvSetActiveObj; EvFinishUpdates; EvDoCmdSetStr attr value nIndex] in
  RomeFileSetAttrValueAux cfg core (Some file) (Some name) (Some value) nIndex nVariant
    pszUnit w =
    match DoCmdSetStr_ core attr value nIndex nVariant unit_ (run_tasks core ts m) with
    | Some (r, m', ts') => (to_short r, world_after w evs ts' m')
    | None =>
        (RX_FAILURE,
         SetLastError ("RomeFileSetAttrValue: exception for File = '"
                       ++ FormatPtr core (Some file) ++ "', Attr = '" ++ name
                       ++ "', Value = '" ++ value
                       ++ "', Index = " ++ Int2Str core nIndex ++ ".")
           (world_after w evs [] (run_tasks core ts m)))
    end.
Proof.
  intros Hname Hidx Hsize Hok Hfoc Hunits Hins Hdel unit_ evs.
  unfold RomeFileSetAttrValueAux. rewrite Hname. simpl negb.
  assert (Hle : (0 <=? nIndex)%Z = true) by (apply Z.leb_le; lia).
  rewrite Hle.
  pass_checks_with Hok ltac:(rewrite Hsize).
  all: unfold settled_model, run_tasks in Hfoc; rewrite Hfoc; simpl.
  all: rewrite Hunits; simpl; rewrite Hins, Hdel; simpl.
  all: subst unit_ evs; unfold run_tasks; rewrite ?app_nil_r.
  all: destruct (DoCmdSetStr_ core attr value nIndex nVariant _ _) as [[[r m'] ts']|]; simpl.
  all: f_equal; try f_equal; finish_world.
Qed.

(** *** The thread check *)



(** *** An index below -1 *)


(** ** The claims about the file functions *)

Lemma to_short_id (z : Z) : (- 32768 <= z <= 32767)%Z -> to_short z = z.
Proof.
  intros H. unfold to_short.
  rewrite Z.mod_small by lia. lia.
Qed.

Lemma to_short_range (z : Z) : (- 32768 <= to_short z <= 32767)%Z.
Proof.
  unfold to_short.
  pose proof (Z.mod_pos_bound (z + 32768) 65536 ltac:(lia)). lia.
Qed.




(** C3. [RomeFileSetAttrSize] returns -1 for every requested size that is not
    positive, whatever the other arguments; on a resolved attribute it returns
    -1 when the attribute is not a dimension or is not user-resizable; on a
    resolved, user-resizable dimension it returns 0 when the old size equals
    the new size, and otherwise 1 unless a resize command faults, so that a
    call that does not fail returns 1 exactly when the sizes differ. *)
Theorem C3_resize_return (file : CFileObj) (name : string) (w : World)
        (attr : CAttr) (m : Model) (ts : list Task)
  (Hname : strempty (Some name) = false)
  (Hok : file_call_ok cfg file w = true)
  (Hfoc : FindOrCreate_ core name file (settled_model core w) = Some (Some attr, m, ts)) :
  let nOldSize := GetSize_ core attr (run_tasks core ts m) in
  (forall pFile pszAttr nNewSize w',
      (nNewSize <= 0)%Z ->
      fst (RomeFileSetAttrSize cfg core pFile pszAttr nNewSize w') = RX_FAILURE) /\
  (forall nNewSize,
      (0 < nNewSize)%Z ->
      IsDimension core attr = false ->
      fst (RomeFileSetAttrSize cfg core (Some file) (Some name) nNewSize w) = RX_FAILURE) /\
  (forall nNewSize,
      (0 < nNewSize)%Z ->
      CanUserResize core attr = false ->
      fst (RomeFileSetAttrSize cfg core (Some file) (Some name) nNewSize w) = RX_FAILURE) /\
  (forall nNewSize,
      (0 < nNewSize)%Z ->
      IsDimension core attr = true ->
      CanUserResize core attr = true ->
      let r := fst (RomeFileSetAttrSize cfg core (Some file) (Some name) nNewSize w) in
      (nOldSize = nNewSize -> r = 0%Z) /\
      (nOldSize <> nNewSize -> r = 1%Z \/ r = RX_FAILURE) /\
      (r <> RX_FAILURE -> (r = 1%Z <-> nOldSize <> nNewSize)) /\
      (r <> RX_FAILURE -> (r = 0%Z <-> nOldSize = nNewSize))).
Proof.
  intros nOldSize.
  split; [|split; [|split]].
  - intros pFile pszAttr nNewSize w' Hle.
    apply RomeFileSetAttrSize_nonpositive; exact Hle.
  - intros nNewSize Hnew Hdim.
    apply (RomeFileSetAttrSize_not_resizable file name nNewSize w attr m ts); auto.
    rewrite Hdim. reflexivity.
  - intros nNewSize Hnew Hres.
    apply (RomeFileSetAttrSize_not_resizable file name nNewSize w attr m ts); auto.
    rewrite Hres. apply andb_false_r.
  - intros nNewSize Hnew Hdim Hres r.
    pose proof (RomeFileSetAttrSize_resolved file name nNewSize w attr m ts
                  Hname Hnew Hok Hfoc Hdim Hres) as H.
    cbv zeta in H. fold nOldSize in H.
    assert (Hcases :
              (nOldSize = nNewSize /\ r = 0%Z) \/
              (nOldSize <> nNewSize /\ (r = 1%Z \/ r = RX_FAILURE))).
    { subst r. rewrite H. clear H.
      destruct (Z.eqb_spec nOldSize nNewSize) as [Heq | Hneq].
      - left. split; [exact Heq|].
        rewrite Heq, Z.sub_diag. reflexivity.
      - right. split; [exact Hneq|].
        match goal with
        | |- context [resize_rows core ?n attr ?i ?d ?W] =>
            destruct (resize_rows_spec n attr i d W) as (k & _ & _ & _ & _ & _ & Hout);
            destruct Hout as [[Ho _] | [Ho _]]; rewrite Ho; simpl; auto
        end. }
    unfold RX_FAILURE in *.
    destruct Hcases as [[Heq Hr] | [Hneq [Hr | Hr]]]; rewrite Hr;
      repeat split; intros; try congruence; try lia; auto.
Qed.


(** C5. When the attribute does not resolve, the value-get returns NULL and
    the value-set returns -1. The error text says that there is no parameter
    of that name when the name is not in the catalog, and that the parameter
    was asked for in the wrong object type when the name is listed but the
    object type of the file is not valid for the listing; the two texts
    differ. *)
Theorem C5_catalog_gating (file : CFileObj) (name value : string) (nIndex : Z)
        (nVariant : Z) (pszUnit : string) (w : World) (m : Model) (ts : list Task)
  (Hname : strempty (Some name) = false)
  (Hidx : (0 <= nIndex)%Z)
  (Hsize : (MAX_SETSTR_SIZE cfg <=? 0)%Z || (strlen value <=? MAX_SETSTR_SIZE cfg)%Z = true)
  (Hok : file_call_ok cfg file w = true)
  (Hfoc : FindOrCreate_ core name file (settled_model core w) = Some (None, m, ts)) :
  let g := RomeFileGetAttrValueAux cfg core (Some file) (Some name) nIndex nVariant pszUnit w in
  let s := RomeFileSetAttrValueAux cfg core (Some file) (Some name) (Some value) nIndex
             nVariant pszUnit w in
  fst g = None /\
  fst s = RX_FAILURE /\
  (GetListing core name = None ->
   last_error (snd g) = "RomeFileGetAttrValue: no Rusle2 parameter of that name." /\
   last_error (snd s) = "RomeFileSetAttrValue: no Rusle2 parameter of that name.") /\
  (forall listing,
      GetListing core name = Some listing ->
      IsValidObject core listing (f_ObjTypeName file) = false ->
      last_error (snd g)
      = "RomeFileGetAttrValue: Rusle2 parameter asked for in wrong object type." /\
      last_error (snd s)
      = "RomeFileSetAttrValue: Rusle2 parameter asked for in wrong object type.") /\
  "RomeFileGetAttrValue: no Rusle2 parameter of that name."
  <> "RomeFileGetAttrValue: Rusle2 parameter asked for in wrong object type." /\
  "RomeFileSetAttrValue: no Rusle2 parameter of that name."
  <> "RomeFileSetAttrValue: Rusle2 parameter asked for in wrong object type.".
Proof.
  intros g s.
  assert (Hidx' : (-1 <= nIndex)%Z) by lia.
  destruct (RomeFileGetAttrValueAux_unresolved file name nIndex nVariant pszUnit w m ts
              Hname Hidx' Hok Hfoc) as [Hg Hge].
  destruct (RomeFileSetAttrValueAux_unresolved file name value nIndex nVariant pszUnit w m ts
              Hname Hidx Hsize Hok Hfoc) as [Hs Hse].
  fold g in Hg, Hge. fold s in Hs, Hse.
  split; [exact Hg|]. split; [exact Hs|].
  split; [|split; [|split]].
  - intros Hnone. rewrite Hnone in Hge, Hse. split; assumption.
  - intros listing Hsome Hbad. rewrite Hsome, Hbad in Hge, Hse. split; assumption.
  - discriminate.
  - discriminate.
Qed.


(** After [RomeExit] the two size functions still differ in their result:
    the short one leaves through a macro that returns NULL, which is 0. *)
Lemma RomeFileGetAttrSize_closed (file : CFileObj) (name : string) (w : World) :
  strempty (Some name) = false ->
  f_core_is_App file = true ->
  HasFlag (App w) DLLSTATE_CLOSED = true ->
  fst (RomeFileGetAttrSize cfg core (Some file) (Some name) w) = 0%Z /\
  fst (RomeFileGetAttrSizeEx cfg core (Some file) (Some name) w) = RX_FAILURE.
Proof.
  intros Hname Happ Hclosed.
  unfold RomeFileGetAttrSize, RomeFileGetAttrSizeEx. rewrite Hname. api_unfold. simpl.
  rewrite Happ, Hclosed. simpl. split; reflexivity.
Qed.

(** C10. On a resolved attribute whose drained size fits a signed 16-bit
    integer, [RomeFileGetAttrSize] and [RomeFileGetAttrSizeEx] return that
    size; when the size exceeds 32767, [RomeFileGetAttrSize] returns -1 and
    sets an error text while [RomeFileGetAttrSizeEx] returns the size. *)
Theorem C10_short_size_limit (file : CFileObj) (name : string) (w : World)
        (attr : CAttr) (m : Model) (ts : list Task)
  (Hname : strempty (Some name) = false)
  (Hok : file_call_ok cfg file w = true)
  (Hfoc : FindOrCreate_ core name file (settled_model core w) = Some (Some attr, m, ts)) :
  let nSize := GetSize_ core attr (run_tasks core ts m) in
  let short := RomeFileGetAttrSize cfg core (Some file) (Some name) w in
  let long := RomeFileGetAttrSizeEx cfg core (Some file) (Some name) w in
  fst long = nSize /\
  ((-32768 <= nSize <= 32767)%Z -> fst short = nSize /\ fst short = fst long) /\
  ((32767 < nSize)%Z ->
   fst short = RX_FAILURE /\
   last_error (snd short) = "RomeFileGetAttrSize: size is too large to cast to short.").
Proof.
  intros nSize short long.
  pose proof (RomeFileGetAttrSize_resolved file name w attr m ts Hname Hok Hfoc) as Hs.
  pose proof (RomeFileGetAttrSizeEx_resolved file name w attr m ts Hname Hok Hfoc) as Hl.
  cbv zeta in Hs. fold nSize in Hs, Hl. fold short in Hs. fold long in Hl.
  assert (Hlong : fst long = nSize) by (rewrite Hl; reflexivity).
  split; [exact Hlong|]. split.
  - intros Hfit. rewrite Hlong, Hs, (to_short_id nSize Hfit), Z.eqb_refl.
    split; reflexivity.
  - intros Hbig. rewrite Hs.
    pose proof (to_short_range nSize) as Hrange.
    destruct (Z.eqb_spec nSize (to_short nSize)) as [Heq | Hneq]; [lia|].
    simpl fst; simpl snd. rewrite last_error_SetLastError.
    split; reflexivity.
Qed.

(** ** The session life cycle *)

Lemma RomeInit_closed (pszArgs : option string) (w : World) :
  HasFlag (App w) DLLSTATE_CLOSED = true ->
  RomeInit cfg core pszArgs w
  = (AppNull, SetLastError "RomeInit: RomeExit() has already been called." w).
Proof.
  intros Hclosed. unfold RomeInit. api_unfold. simpl. rewrite Hclosed. reflexivity.
Qed.

Lemma RomeInit_again (pszArgs : option string) (w : World) :
  HasFlag (App w) DLLSTATE_CLOSED = false ->
  HasFlag (App w) DLLSTATE_INITROME = true ->
  RomeInit cfg core pszArgs w = (AppGlobal, w).
Proof.
  intros Hopen Hinit. unfold RomeInit. api_unfold. simpl.
  rewrite Hopen. simpl. rewrite Hinit. reflexivity.
Qed.

Lemma RomeInit_calls_closed (argss : list (option string)) (w : World) :
  HasFlag (App w) DLLSTATE_CLOSED = true ->
  Forall (fun p => p = AppNull) (fst (RomeInit_calls cfg core argss w)) /\
  HasFlag (App (snd (RomeInit_calls cfg core argss w))) DLLSTATE_CLOSED = true.
Proof.
  revert w. induction argss as [|pszArgs rest IH]; intros w Hclosed.
  - split; [constructor | exact Hclosed].
  - simpl. rewrite (RomeInit_closed pszArgs w Hclosed).
    destruct (IH (SetLastError "RomeInit: RomeExit() has already been called." w) Hclosed)
      as [Hall Hkeep].
    destruct (RomeInit_calls cfg core rest _) as [ps w''].
    split; [constructor; [reflexivity | exact Hall] | exact Hkeep].
Qed.

(** The first [RomeInit] hands the core over to [CRomeCore::Init] with the
    id of the calling thread stored in it, when thread ids are compiled in. *)
Lemma RomeInit_records_thread (pszArgs : option string) (w : World) (argv : list string) :
  USE_ROMEAPI_THREADIdS cfg = true ->
  HasFlag (App w) DLLSTATE_CLOSED = false ->
  HasFlag (App w) DLLSTATE_INITROME = false ->
  ParseArgs core pszArgs = Some argv ->
  forall p c m,
    CoreInit core argv
      (mkCore (m_nFlags (App w)) (cur_thread w) pszArgs (Engine (App w))) (model w)
    = Some (p, c, m) ->
    RomeInit cfg core pszArgs w
    = (p, mkWorld c (cur_thread w) (named_strings w) (trace w) m).
Proof.
  intros Hcfg Hopen Hinit Hparse p c m Hcore.
  unfold RomeInit. api_unfold. simpl.
  rewrite Hopen. simpl. rewrite Hinit. simpl. rewrite Hparse. simpl.
  rewrite Hcfg. simpl. unfold set_m_nThreadId, set_m_sCommandLine. simpl.
  rewrite Hcore. reflexivity.
Qed.

(** C7. While the session is open and initialised, [RomeInit] returns the
    existing instance and changes nothing, whatever its argument. Once the
    closed flag is set, as after a [RomeExit] that set it, every later call
    of [RomeInit] returns NULL, sets the text that [RomeExit] has already
    been called, and leaves the flag set. *)
Theorem C7_session_lifecycle (w : World) :
  (HasFlag (App w) DLLSTATE_CLOSED = false ->
   HasFlag (App w) DLLSTATE_INITROME = true ->
   forall pszArgs, RomeInit cfg core pszArgs w = (AppGlobal, w)) /\
  (HasFlag (App w) DLLSTATE_CLOSED = true ->
   (forall pszArgs,
       fst (RomeInit cfg core pszArgs w) = AppNull /\
       last_error (snd (RomeInit cfg core pszArgs w))
       = "RomeInit: RomeExit() has already been called.") /\
   (forall argss,
       Forall (fun p => p = AppNull) (fst (RomeInit_calls cfg core argss w)) /\
       HasFlag (App (snd (RomeInit_calls cfg core argss w))) DLLSTATE_CLOSED = true)) /\
  (forall pApp argss,
      HasFlag (App (snd (RomeExit core pApp w))) DLLSTATE_CLOSED = true ->
      Forall (fun p => p = AppNull)
             (fst (RomeInit_calls cfg core argss (snd (RomeExit core pApp w))))).
Proof.
  split; [|split].
  - intros Hopen Hinit pszArgs. apply RomeInit_again; assumption.
  - intros Hclosed. split.
    + intros pszArgs. rewrite (RomeInit_closed pszArgs w Hclosed).
      simpl fst; simpl snd. rewrite last_error_SetLastError.
      split; reflexivity.
    + intros argss. apply RomeInit_calls_closed; exact Hclosed.
  - intros pApp argss Hclosed. apply RomeInit_calls_closed; exact Hclosed.
Qed.

(** ** Further properties of the file functions *)

Lemma core_untouched_SetLastError (text : string) (w : World) :
  core_untouched w (SetLastError text w).
Proof. repeat split. Qed.

(** *** Arguments that are rejected before the session is looked at *)

(** X1. [RomeFileSetAttrValueAux] checks the value pointer, the index and
    the length of the value before it looks at the session: a NULL value, a
    negative index, or a value longer than [MAX_SETSTR_SIZE] when that limit
    is positive, gives -1 without any call into the core, whatever the other
    arguments are. With a file and an attribute name given, the error text
    names the first of the three checks that failed. *)
Theorem X1_set_value_rejected_early (pFile : option CFileObj)
        (pszAttr pszValue : option string) (nIndex nVariant : Z) (pszUnit : string)
        (w : World)
  (Hbad : pszValue = None \/ (nIndex < 0)%Z \/
          exists value, pszValue = Some value /\
                        (0 < MAX_SETSTR_SIZE cfg)%Z /\
                        (MAX_SETSTR_SIZE cfg < strlen value)%Z) :
  let r := RomeFileSetAttrValueAux cfg core pFile pszAttr pszValue nIndex nVariant pszUnit w in
  fst r = RX_FAILURE /\
  core_untouched w (snd r) /\
  (isSome pFile = true -> strempty pszAttr = false ->
   last_error (snd r)
   = match pszValue with
     | None => "RomeFileSetAttrValue: NULL value pointer."
     | Some _ =>
         if (nIndex <? 0)%Z
         then "RomeFileSetAttrValue: negative index."
         else "RomeFileSetAttrValue: value string exceeds MAX_SETSTR_SIZE."
     end).
Proof.
  intros r. subst r. unfold RomeFileSetAttrValueAux. api_unfold.
  destruct pFile as [file|]; simpl.
  2: { split; [reflexivity|]. split; [apply core_untouched_SetLastError|]. discriminate. }
  destruct (strempty pszAttr); simpl.
  { split; [reflexivity|]. split; [apply core_untouched_SetLastError|]. discriminate. }
  destruct pszValue as [value|]; simpl.
  2: { split; [reflexivity|]. split; [apply core_untouched_SetLastError|].
       intros _ _. rewrite last_error_SetLastError. reflexivity. }
  destruct (Z.leb_spec 0 nIndex) as [Hge | Hlt]; simpl.
  2: { split; [reflexivity|]. split; [apply core_untouched_SetLastError|].
       intros _ _. rewrite last_error_SetLastError.
       destruct (Z.ltb_spec nIndex 0); [reflexivity | lia]. }
  assert (Hlong : (0 < MAX_SETSTR_SIZE cfg)%Z /\ (MAX_SETSTR_SIZE cfg < strlen value)%Z).
  { destruct Hbad as [Hnull | [Hneg | (v & Hv & Hmax & Hlen)]];
      [discriminate | lia | injection Hv as <-; split; assumption]. }
  destruct (Z.leb_spec (MAX_SETSTR_SIZE cfg) 0) as [? | _]; [lia|].
  destruct (Z.leb_spec (strlen value) (MAX_SETSTR_SIZE cfg)) as [? | _]; [lia|].
  simpl.
  split; [reflexivity|]. split; [apply core_untouched_SetLastError|].
  intros _ _. rewrite last_error_SetLastError.
  destruct (Z.ltb_spec nIndex 0); [lia | reflexivity].
Qed.

(** *** The values [#INSERT] and [#DELETE] *)

Lemma strieq_DELETE_not_INSERT (value : string) :
  strieq value "#DELETE" = true -> strieq value "#INSERT" = false.
Proof.
  destruct value as [|c0 [|c1 rest]]; cbn [strieq]; intros H; try discriminate.
  all: apply andb_prop in H; destruct H as [H0 H]; try discriminate.
  apply andb_prop in H. destruct H as [H1 _].
  change (strieq (String c0 (String c1 rest)) "#INSERT")
    with (Ascii.eqb (to_upper c0) (to_upper "#")
          && (Ascii.eqb (to_upper c1) (to_upper "I") && strieq rest "NSERT")).
  rewrite H0. apply Ascii.eqb_eq in H1. rewrite H1. reflexivity.
Qed.

(** X2. On a resolved attribute with valid units, a value that equals
    [#INSERT] or [#DELETE] without regard to case does not set anything: the
    function issues one [UserCmdResizeDim] on the first dimension of the
    attribute, [GetDimPtr(pAttr, 0)], at the given index, inserting or
    deleting one row, and returns the result of that command as a short; no
    [DoCmdSetStr] is issued. A fault of the command gives -1. *)
Theorem X2_set_value_insert_delete (file : CFileObj) (name value : string)
        (nIndex : Z) (nVariant : Z) (pszUnit : string) (w : World)
        (attr : CAttr) (m : Model) (ts : list Task) (bDelete : bool)
  (Hname : strempty (Some name) = false)
  (Hidx : (0 <= nIndex)%Z)
  (Hsize : (MAX_SETSTR_SIZE cfg <=? 0)%Z || (strlen value <=? MAX_SETSTR_SIZE cfg)%Z = true)
  (Hok : file_call_ok cfg file w = true)
  (Hfoc : FindOrCreate_ core name file (settled_model core w) = Some (Some attr, m, ts))
  (Hunits : IsValidUnits core attr pszUnit = true)
  (Hcmd : strieq value (if bDelete then "#DELETE" else "#INSERT") = true) :
  let evs := [EvFinishUpdates; EvLockUpdate; EvFindOrCreate name; EvUnlockUpdate;
              EvSetActiveObj; EvFinishUpdates;
              EvUserCmdResizeDim (GetDimPtr core attr 0) nIndex bDelete] in
  RomeFileSetAttrValueAux cfg core (Some file) (Some name) (Some value) nIndex nVariant
    pszUnit w =
    match UserCmdResizeDim_ core (GetDimPtr core attr 0) EmptyString nIndex bDelete
            (run_tasks core ts m) with
    | Some (r, m', ts') => (to_short r, world_after w evs ts' m')
    | None =>
        (RX_FAILURE,
         SetLastError ("RomeFileSetAttrValue: exception for File = '"
                       ++ FormatPtr core (Some file) ++ "', Attr = '" ++ name
                       ++ "', Value = '" ++ value
                       ++ "', Index = " ++ Int2Str core nIndex ++ ".")
           (world_after w evs [] (run_tasks core ts m)))
    end.
Proof.
  intros evs.
  assert (Hins : strieq value "#INSERT" = negb bDelete).
  { destruct bDelete; [apply strieq_DELETE_not_INSERT|]; exact Hcmd. }
  unfold RomeFileSetAttrValueAux. rewrite Hname. simpl negb.
  assert (Hle : (0 <=? nIndex)%Z = true) by (apply Z.leb_le; lia).
  rewrite Hle.
  pass_checks_with Hok ltac:(rewrite Hsize).
  all: unfold settled_model, run_tasks in Hfoc; rewrite Hfoc; simpl.
  all: rewrite Hunits; simpl; rewrite Hins.
  all: destruct bDelete; simpl; rewrite ?Hcmd; simpl.
  all: subst evs; unfold run_tasks; rewrite ?app_nil_r.
  all: destruct (UserCmdResizeDim_ core (GetDimPtr core attr 0) EmptyString nIndex _ _)
         as [[[r m'] ts']|]; simpl.
  all: f_equal; try f_equal; finish_world.
Qed.

(** *** Units that the attribute does not accept *)

(** X3. On a resolved attribute, a unit that [IsValidUnits] rejects makes
    the value-get return NULL and the value-set return 0, the result for an
    unchanged value, not -1. Neither sets an error text, neither reads or
    writes the value, and both have drained the engine. *)
Theorem X3_invalid_units_quiet (file : CFileObj) (name value : string)
        (nIndex : Z) (nVariant : Z) (pszUnit : string) (w : World)
        (attr : CAttr) (m : Model) (ts : list Task)
  (Hname : strempty (Some name) = false)
  (Hidx : (0 <= nIndex)%Z)
  (Hsize : (MAX_SETSTR_SIZE cfg <=? 0)%Z || (strlen value <=? MAX_SETSTR_SIZE cfg)%Z = true)
  (Hok : file_call_ok cfg file w = true)
  (Hfoc : FindOrCreate_ core name file (settled_model core w) = Some (Some attr, m, ts))
  (Hunits : IsValidUnits core attr pszUnit = false) :
  let g := RomeFileGetAttrValueAux cfg core (Some file) (Some name) nIndex nVariant pszUnit w in
  let s := RomeFileSetAttrValueAux cfg core (Some file) (Some name) (Some value) nIndex
             nVariant pszUnit w in
  g = (None,
       world_after w [EvFinishUpdates; EvFindOrCreate name; EvSetActiveObj; EvFinishUpdates]
         [] (run_tasks core ts m)) /\
  s = (RX_FALSE,
       world_after w [EvFinishUpdates; EvLockUpdate; EvFindOrCreate name; EvUnlockUpdate;
                      EvSetActiveObj; EvFinishUpdates] [] (run_tasks core ts m)) /\
  last_error (snd g) = last_error w /\
  last_error (snd s) = last_error w.
Proof.
  intros g s.
  assert (Hle : (0 <=? nIndex)%Z = true) by (apply Z.leb_le; lia).
  assert (Hne : Z.eqb nIndex (-1) = false) by (apply Z.eqb_neq; lia).
  assert (Hg : g = (None,
       world_after w [EvFinishUpdates; EvFindOrCreate name; EvSetActiveObj; EvFinishUpdates]
         [] (run_tasks core ts m))).
  { subst g. unfold RomeFileGetAttrValueAux. rewrite Hname. simpl negb.
    rewrite Hle, Hne. simpl orb.
    pose proof Hok as Hok'.
    pass_checks Hok'.
    all: unfold settled_model, run_tasks in Hfoc; rewrite Hfoc; simpl.
    all: rewrite Hunits; simpl.
    all: f_equal; finish_world. }
  assert (Hs : s = (RX_FALSE,
       world_after w [EvFinishUpdates; EvLockUpdate; EvFindOrCreate name; EvUnlockUpdate;
                      EvSetActiveObj; EvFinishUpdates] [] (run_tasks core ts m))).
  { subst s. unfold RomeFileSetAttrValueAux. rewrite Hname. simpl negb.
    rewrite Hle.
    pass_checks_with Hok ltac:(rewrite Hsize).
    all: unfold settled_model, run_tasks in Hfoc; rewrite Hfoc; simpl.
    all: rewrite Hunits; simpl.
    all: f_equal; finish_world. }
  split; [exact Hg|]. split; [exact Hs|].
  rewrite Hg, Hs. split; reflexivity.
Qed.

(** *** The update lock *)

(** Every branch of a function body, one goal for each: the tests are
    decided innermost first. *)
Ltac no_branch x :=
  lazymatch x with
  | context [match _ with Some _ => _ | None => _ end] => fail
  | context [match _ with (_, _) => _ end] => fail
  | context [if _ then _ else _] => fail
  | _ => idtac
  end.

Ltac split_paths :=
  repeat first
    [ progress simpl
    | match goal with
      | |- context [if ?c then _ else _] => no_branch c; destruct c eqn:?
      | |- context [match ?x with Some _ => _ | None => _ end] =>
          no_branch x; destruct x eqn:?
      | |- context [match ?x with (_, _) => _ end] => no_branch x; destruct x eqn:?
      end ].

(** X4. [RomeFileSetAttrValueAux] takes the update lock of the engine only
    around [FindOrCreate] and gives it back on every path: for all
    arguments, also when [FindOrCreate] or the command faults or a check
    fails, the lock count at the return is the lock count at the call, and
    the calls it made hold as many [LockUpdate] as [UnlockUpdate]. *)
Theorem X4_update_lock_balanced (pFile : option CFileObj)
        (pszAttr pszValue : option string) (nIndex nVariant : Z) (pszUnit : string)
        (w : World) :
  let r := RomeFileSetAttrValueAux cfg core pFile pszAttr pszValue nIndex nVariant pszUnit w in
  m_nLockCount (Engine (App (snd r))) = m_nLockCount (Engine (App w)) /\
  exists evs,
    trace (snd r) = (trace w ++ evs)%list /\
    length (filter is_lock evs) = length (filter is_unlock evs).
Proof.
  intros r. subst r. unfold RomeFileSetAttrValueAux. api_unfold.
  unfold SetLastError, RomeThreadSetNamedString, core_effect, drain, set_lock, set_Engine.
  split_paths.
  all: split; [simpl; lia|].
  all: rewrite <- ?app_assoc; simpl.
  all: first [ exists []; split; [rewrite app_nil_r; reflexivity | reflexivity]
             | eexists; split; [reflexivity | reflexivity] ].
Qed.

(** *** Calls that are refused before the core is reached *)

Lemma refused_SetLastError {R} (w : World) (sentinel : R) (text : string) :
  has_prefix_char text = false ->
  refused w (sentinel, SetLastError text w) sentinel text.
Proof.
  intros Hp. split; [reflexivity|]. split; [apply core_untouched_SetLastError|].
  simpl snd. rewrite last_error_SetLastError.
  destruct text as [|c text']; [reflexivity|].
  destruct c as [[] [] [] [] [] [] [] []]; simpl in Hp; try discriminate; reflexivity.
Qed.

(** X5. Once the closed flag is set, each of the six file functions refuses
    a call with otherwise valid arguments before it reaches the core, and
    leaves the text that [RomeExit] has already been called. The result is
    the failure value -1 or NULL, except for [RomeFileGetAttrSize] and
    [RomeFileGetAttrDimSize], which leave through a macro that returns NULL
    and so return 0, a legal size. The text cannot be read back:
    [RomeGetLastError] returns NULL in a closed session for every session
    pointer. *)
Theorem X5_closed_session_refuses (file : CFileObj) (name value : string)
        (nIndex nNewSize nDim nVariant : Z) (pszUnit : string) (w : World)
  (Hname : strempty (Some name) = false)
  (Happ : f_core_is_App file = true)
  (Hclosed : HasFlag (App w) DLLSTATE_CLOSED = true)
  (Hidx : (0 <= nIndex)%Z)
  (Hnew : (0 < nNewSize)%Z)
  (Hsize : (MAX_SETSTR_SIZE cfg <=? 0)%Z || (strlen value <=? MAX_SETSTR_SIZE cfg)%Z = true) :
  refused w (RomeFileGetAttrSize cfg core (Some file) (Some name) w) 0%Z
    "RomeFileGetAttrSize: RomeExit() has already been called." /\
  refused w (RomeFileGetAttrSizeEx cfg core (Some file) (Some name) w) RX_FAILURE
    "RomeFileGetAttrSizeEx: RomeExit() has already been called." /\
  refused w (RomeFileGetAttrDimSize cfg core (Some file) (Some name) nDim w) 0%Z
    "RomeFileGetAttrDimSize: RomeExit() has already been called." /\
  refused w (RomeFileGetAttrValueAux cfg core (Some file) (Some name) nIndex nVariant pszUnit w)
    None "RomeFileGetAttrValue: RomeExit() has already been called." /\
  refused w (RomeFileSetAttrSize cfg core (Some file) (Some name) nNewSize w) RX_FAILURE
    "RomeFileSetAttrSize: RomeExit() has already been called." /\
  refused w (RomeFileSetAttrValueAux cfg core (Some file) (Some name) (Some value) nIndex
               nVariant pszUnit w)
    RX_FAILURE "RomeFileSetAttrValue: RomeExit() has already been called." /\
  (forall pApp,
      RomeGetLastError cfg pApp
        (snd (RomeFileGetAttrSizeEx cfg core (Some file) (Some name) w))
      = (None, snd (RomeFileGetAttrSizeEx cfg core (Some file) (Some name) w))).
Proof.
  assert (Hle : (0 <=? nIndex)%Z = true) by (apply Z.leb_le; lia).
  assert (Hle' : (0 <=? nNewSize)%Z = true) by (apply Z.leb_le; lia).
  assert (Hne : Z.eqb nNewSize 0 = false) by (apply Z.eqb_neq; lia).
  assert (Hex : RomeFileGetAttrSizeEx cfg core (Some file) (Some name) w
                = (RX_FAILURE,
                   SetLastError "RomeFileGetAttrSizeEx: RomeExit() has already been called." w)).
  { unfold RomeFileGetAttrSizeEx. rewrite Hname. api_unfold. simpl.
    rewrite Happ, Hclosed. reflexivity. }
  repeat split_and.
  - unfold RomeFileGetAttrSize. rewrite Hname. api_unfold. simpl.
    rewrite Happ, Hclosed. simpl. apply refused_SetLastError. reflexivity.
  - rewrite Hex. apply refused_SetLastError. reflexivity.
  - unfold RomeFileGetAttrDimSize. rewrite Hname. api_unfold. simpl.
    rewrite Happ, Hclosed. simpl. apply refused_SetLastError. reflexivity.
  - unfold RomeFileGetAttrValueAux. rewrite Hname, Hle. api_unfold. simpl.
    rewrite Happ, Hclosed. simpl. apply refused_SetLastError. reflexivity.
  - unfold RomeFileSetAttrSize. rewrite Hname, Hle', Hne. api_unfold. simpl.
    rewrite Happ, Hclosed. simpl. apply refused_SetLastError. reflexivity.
  - unfold RomeFileSetAttrValueAux. rewrite Hname, Hle. api_unfold. simpl.
    rewrite Hsize. simpl.
    rewrite Happ, Hclosed. simpl. apply refused_SetLastError. reflexivity.
  - intros pApp. rewrite Hex. simpl snd.
    unfold RomeGetLastError. api_unfold.
    destruct pApp; simpl; try reflexivity.
    all: change (HasFlag (App (SetLastError _ w)) DLLSTATE_CLOSED)
           with (HasFlag (App w) DLLSTATE_CLOSED); rewrite Hclosed; reflexivity.
Qed.

(** *** A resize that faults half way *)

(** X6. [RomeFileSetAttrSize] does not undo the rows it has added when a
    later command faults. Growing a dimension by two rows or more, with the
    first insert command accepted and the second one faulting, returns -1;
    the model is the one the first command left, the tasks that command
    scheduled are still on the stack, and both commands are in the trace. *)
Theorem X6_resize_fault_not_undone (file : CFileObj) (name : string) (nNewSize : Z)
        (w : World) (attr : CAttr) (m : Model) (ts : list Task)
        (r1 : Z) (m1 : Model) (ts1 : list Task)
  (Hname : strempty (Some name) = false)
  (Hok : file_call_ok cfg file w = true)
  (Hfoc : FindOrCreate_ core name file (settled_model core w) = Some (Some attr, m, ts))
  (Hdim : IsDimension core attr = true)
  (Hres : CanUserResize core attr = true)
  (Hold : (0 <= GetSize_ core attr (run_tasks core ts m))%Z)
  (Hnew : (GetSize_ core attr (run_tasks core ts m) + 2 <= nNewSize <= INT_MAX)%Z)
  (Hfirst : UserCmdResizeDim_ core (Some attr) EmptyString
              (GetSize_ core attr (run_tasks core ts m)) false (run_tasks core ts m)
            = Some (r1, m1, ts1))
  (Hsecond : UserCmdResizeDim_ core (Some attr) EmptyString
               (GetSize_ core attr (run_tasks core ts m) + 1) false m1 = None) :
  let nOldSize := GetSize_ core attr (run_tasks core ts m) in
  let r := RomeFileSetAttrSize cfg core (Some file) (Some name) nNewSize w in
  fst r = RX_FAILURE /\
  model (snd r) = m1 /\
  m_stack (Engine (App (snd r))) = ts1 /\
  trace (snd r)
  = (trace w ++ [EvFinishUpdates; EvSetActiveObj; EvFindOrCreate name; EvFinishUpdates;
                 EvGetSize attr; EvUserCmdResizeDim (Some attr) nOldSize false;
                 EvUserCmdResizeDim (Some attr) (nOldSize + 1) false])%list.
Proof.
  intros nOldSize r.
  assert (Hpos : (0 < nNewSize)%Z) by lia.
  pose proof (RomeFileSetAttrSize_resolved file name nNewSize w attr m ts
                Hname Hpos Hok Hfoc Hdim Hres) as H.
  cbv zeta in H. fold nOldSize in H, Hold, Hnew, Hfirst, Hsecond. fold r in H.
  unfold INT_MAX in Hnew.
  rewrite (to_int_id (nNewSize - nOldSize)) in H by lia.
  rewrite (to_int_id (Z.abs _)) in H by lia.
  destruct (Z.ltb_spec (nNewSize - nOldSize) 0) as [? | _]; [lia|].
  replace (Z.to_nat (Z.abs (nNewSize - nOldSize)))
    with (S (S (Z.to_nat (nNewSize - nOldSize - 2)))) in H by lia.
  cbn [resize_rows] in H.
  unfold UserCmdResizeDim, log_event, bind, get, put, ret, throw in H. simpl in H.
  rewrite Hfirst in H. unfold core_effect in H. simpl in H.
  rewrite (to_int_id (nOldSize + 1)) in H by lia.
  rewrite Hsecond in H. simpl in H.
  rewrite H. simpl. repeat split.
  - apply app_nil_r.
  - rewrite <- !app_assoc. reflexivity.
Qed.

(** *** The size of an attribute that was not created *)

(** X7. When [FindOrCreate] returns NULL for a name that the catalog lists
    and the file is empty, the two size functions return 0 and set no error
    text if [USE_ROMEAPI_ZEROATTRSIZE] is compiled in; without it both return
    -1. The text of [RomeFileGetAttrSize] starts with '+' and is appended to
    the text already in the buffer, that of [RomeFileGetAttrSizeEx] replaces
    it. *)
Theorem X7_zero_size_of_missing_attr (file : CFileObj) (name : string) (w : World)
        (m : Model) (ts : list Task)
  (Hname : strempty (Some name) = false)
  (Hok : file_call_ok cfg file w = true)
  (Hfoc : FindOrCreate_ core name file (settled_model core w) = Some (None, m, ts))
  (Hempty : f_IsEmpty file = true)
  (Hlisted : isSome (GetListing core name) = true) :
  let short := RomeFileGetAttrSize cfg core (Some file) (Some name) w in
  let long := RomeFileGetAttrSizeEx cfg core (Some file) (Some name) w in
  (USE_ROMEAPI_ZEROATTRSIZE cfg = true ->
   fst short = 0%Z /\ fst long = 0%Z /\
   last_error (snd short) = last_error w /\ last_error (snd long) = last_error w) /\
  (USE_ROMEAPI_ZEROATTRSIZE cfg = false ->
   fst short = RX_FAILURE /\ fst long = RX_FAILURE /\
   last_error (snd short)
   = (if strempty (Some (last_error w))
      then "RomeFileGetAttrSize: failed to create attr."
      else last_error w ++ LF ++ "RomeFileGetAttrSize: failed to create attr.") /\
   last_error (snd long) = "RomeFileGetAttrSizeEx: failed to create attr.").
Proof.
  intros short long. subst short long.
  unfold RomeFileGetAttrSize, RomeFileGetAttrSizeEx. rewrite Hname. simpl negb.
  pass_checks Hok.
  all: unfold settled_model, run_tasks in Hfoc; rewrite Hfoc; simpl.
  all: rewrite Hempty, Hlisted; simpl.
  all: split; intros Hz; rewrite Hz; simpl.
  all: repeat split; try reflexivity.
  all: rewrite last_error_SetLastError; try reflexivity.
  all: unfold edit_error.
  all: match goal with
       | |- context [strempty (Some (last_error ?W))] =>
           change (last_error W) with (last_error w)
       end.
  all: destruct (last_error w); [reflexivity | simpl; apply append_assoc].
Qed.

(** *** Failures of the session functions *)

(** X8. A first [RomeInit] whose command line does not parse returns NULL
    and does not call [CRomeCore::Init]: flags, recorded thread and model are
    as before, so the session is still uninitialised and open. The command
    line has been stored by then, and the error text is put in front of the
    text already in the buffer, on a line of its own. *)
Theorem X8_RomeInit_parse_failure (pszArgs : option string) (w : World)
  (Hopen : HasFlag (App w) DLLSTATE_CLOSED = false)
  (Hinit : HasFlag (App w) DLLSTATE_INITROME = false)
  (Hparse : ParseArgs core pszArgs = None) :
  let r := RomeInit cfg core pszArgs w in
  let text := "RomeInit: failed to parse command line arguments." in
  fst r = AppNull /\
  m_sCommandLine (App (snd r)) = pszArgs /\
  m_nFlags (App (snd r)) = m_nFlags (App w) /\
  m_nThreadId (App (snd r)) = m_nThreadId (App w) /\
  model (snd r) = model w /\
  last_error (snd r)
  = (if strempty (Some (last_error w)) then text else text ++ LF ++ last_error w).
Proof.
  intros r text. subst r.
  unfold RomeInit. api_unfold. simpl.
  rewrite Hopen. simpl. rewrite Hinit. simpl. rewrite Hparse. simpl.
  repeat split.
  rewrite last_error_SetLastError. unfold edit_error.
  change (last_error (set_m_sCommandLine pszArgs w)) with (last_error w).
  destruct (last_error w); reflexivity.
Qed.

(** X9. [RomeExit] returns FALSE, never -1, and does not call
    [CRomeCore::Exit] when the pointer is NULL or is not the address of the
    session, or when the session is already closed; each case has a text of
    its own. A fault inside [CRomeCore::Exit] also gives FALSE. After a
    [RomeExit] that set the closed flag, every further [RomeExit] is refused
    in this way. *)
Theorem X9_RomeExit_refused (w : World) :
  (forall pApp,
      pApp <> AppGlobal \/ HasFlag (App w) DLLSTATE_CLOSED = true ->
      refused w (RomeExit core pApp w) RX_FALSE
        (match pApp with
         | AppNull => "RomeExit: NULL Rome app pointer."
         | AppOther => "RomeExit: invalid Rome app pointer."
         | AppGlobal => "RomeExit: RomeExit() has already been called."
         end)) /\
  (HasFlag (App w) DLLSTATE_CLOSED = false ->
   CoreExit core (App w) (model w) = None ->
   refused w (RomeExit core AppGlobal w) RX_FALSE "RomeExit: exception.") /\
  (forall pApp,
      let w1 := snd (RomeExit core AppGlobal w) in
      HasFlag (App w1) DLLSTATE_CLOSED = true ->
      fst (RomeExit core pApp w1) = RX_FALSE /\
      core_untouched w1 (snd (RomeExit core pApp w1))).
Proof.
  assert (Hrefuse : forall (w' : World) pApp,
             pApp <> AppGlobal \/ HasFlag (App w') DLLSTATE_CLOSED = true ->
             refused w' (RomeExit core pApp w') RX_FALSE
               (match pApp with
                | AppNull => "RomeExit: NULL Rome app pointer."
                | AppOther => "RomeExit: invalid Rome app pointer."
                | AppGlobal => "RomeExit: RomeExit() has already been called."
                end)).
  { intros w' pApp Hbad. unfold RomeExit. api_unfold.
    destruct pApp; simpl; try (apply refused_SetLastError; reflexivity).
    destruct Hbad as [Hne | Hclosed]; [congruence|].
    rewrite Hclosed. simpl. apply refused_SetLastError. reflexivity. }
  split; [apply Hrefuse|]. split.
  - intros Hopen Hfault. unfold RomeExit. api_unfold. simpl.
    rewrite Hopen. simpl. rewrite Hfault.
    apply refused_SetLastError. reflexivity.
  - intros pApp w1 Hclosed.
    destruct (Hrefuse w1 pApp (or_intror Hclosed)) as (Hr & Hu & _).
    split; assumption.
Qed.

(** X10. [RomeSetLastError] returns FALSE and changes nothing for a pointer
    that is not the session, and for the session once it is closed;
    [RomeGetLastError] returns NULL for such a pointer and, in a closed
    session, for every pointer. With a NULL pointer [RomeSetLastError] still
    stores a text in a closed session, which [RomeGetLastError] then cannot
    return. A NULL text clears the buffer. *)
Theorem X10_error_channel_refusals (w : World) :
  (forall pszInfo, RomeSetLastError cfg AppOther pszInfo w = (RX_FALSE, w)) /\
  RomeGetLastError cfg AppOther w = (None, w) /\
  (HasFlag (App w) DLLSTATE_CLOSED = true ->
   (forall pszInfo, RomeSetLastError cfg AppGlobal pszInfo w = (RX_FALSE, w)) /\
   (forall pApp, RomeGetLastError cfg pApp w = (None, w)) /\
   (forall pszInfo pApp,
       fst (RomeSetLastError cfg AppNull pszInfo w) = RX_TRUE /\
       fst (RomeGetLastError cfg pApp (snd (RomeSetLastError cfg AppNull pszInfo w)))
       = None)) /\
  (forall pApp,
      error_call_accepted cfg pApp w = true ->
      fst (RomeSetLastError cfg pApp None w) = RX_TRUE /\
      last_error (snd (RomeSetLastError cfg pApp None w)) = EmptyString).
Proof.
  split; [reflexivity|]. split; [reflexivity|]. split.
  - intros Hclosed.
    assert (Hget : forall (w' : World) pApp,
               HasFlag (App w') DLLSTATE_CLOSED = true ->
               RomeGetLastError cfg pApp w' = (None, w')).
    { intros w' pApp Hc. unfold RomeGetLastError. api_unfold.
      destruct pApp; simpl; try reflexivity; rewrite Hc; reflexivity. }
    split; [|split].
    + intros pszInfo. unfold RomeSetLastError. api_unfold. simpl.
      rewrite Hclosed. reflexivity.
    + intros pApp. apply Hget; exact Hclosed.
    + intros pszInfo pApp.
      rewrite (RomeSetLastError_accepted cfg AppNull pszInfo w eq_refl).
      split; [reflexivity|]. simpl snd. rewrite Hget; [reflexivity | exact Hclosed].
  - intros pApp Hacc.
    rewrite (RomeSetLastError_accepted cfg pApp None w Hacc).
    split; [reflexivity|]. simpl snd. apply last_error_set.
Qed.

(** *** The error text after a call that succeeds *)

(** X11. A file function that succeeds does not clear the error buffer: in
    an open session built without thread ids, [RomeGetLastError] after a
    successful size query, value query or value change returns the text that
    was in the buffer before the call. *)
Theorem X11_success_keeps_error_text (file : CFileObj) (name : string) (w : World)
        (attr : CAttr) (m : Model) (ts : list Task)
  (Hname : strempty (Some name) = false)
  (Hok : file_call_ok cfg file w = true)
  (Hfoc : FindOrCreate_ core name file (settled_model core w) = Some (Some attr, m, ts))
  (Hthr : USE_ROMEAPI_THREADIdS cfg = false) :
  let read (w' : World) := fst (RomeGetLastError cfg AppGlobal w') in
  read (snd (RomeFileGetAttrSizeEx cfg core (Some file) (Some name) w))
  = Some (last_error w) /\
  (forall nDim,
      read (snd (RomeFileGetAttrDimSize cfg core (Some file) (Some name) nDim w))
      = Some (last_error w)) /\
  (forall nIndex nVariant pszUnit,
      (0 <= nIndex)%Z ->
      IsValidUnits core attr pszUnit = true ->
      fst (RomeFileGetAttrValueAux cfg core (Some file) (Some name) nIndex nVariant pszUnit w)
      <> None ->
      read (snd (RomeFileGetAttrValueAux cfg core (Some file) (Some name) nIndex nVariant
                   pszUnit w))
      = Some (last_error w)) /\
  (forall value nIndex nVariant pszUnit,
      (0 <= nIndex)%Z ->
      (MAX_SETSTR_SIZE cfg <=? 0)%Z || (strlen value <=? MAX_SETSTR_SIZE cfg)%Z = true ->
      IsValidUnits core attr pszUnit = true ->
      strieq value "#INSERT" = false ->
      strieq value "#DELETE" = false ->
      DoCmdSetStr_ core attr value nIndex nVariant
        (if Z.eqb (strlen pszUnit) 0 then "#U_TEMPLATE" else pszUnit)
        (run_tasks core ts m) <> None ->
      read (snd (RomeFileSetAttrValueAux cfg core (Some file) (Some name) (Some value) nIndex
                   nVariant pszUnit w))
      = Some (last_error w)).
Proof.
  intros read.
  destruct (file_call_ok_elim file w Hok) as (_ & Hopen & _).
  assert (Hread : forall evs ts' m',
             read (world_after w evs ts' m') = Some (last_error w)).
  { intros evs ts' m'. unfold read.
    rewrite RomeGetLastError_reads; [reflexivity | | exact Hthr | exact Hopen].
    unfold error_call_accepted.
    change (HasFlag (App (world_after w evs ts' m')) DLLSTATE_CLOSED)
      with (HasFlag (App w) DLLSTATE_CLOSED).
    rewrite Hopen, Hthr. reflexivity. }
  split; [|split; [|split]].
  - rewrite (RomeFileGetAttrSizeEx_resolved file name w attr m ts Hname Hok Hfoc).
    apply Hread.
  - intros nDim.
    rewrite (RomeFileGetAttrDimSize_resolved file name nDim w attr m ts Hname Hok Hfoc).
    apply Hread.
  - intros nIndex nVariant pszUnit Hidx Hunits Hsome.
    pose proof (RomeFileGetAttrValueAux_value file name nIndex nVariant pszUnit w attr
                  m ts Hname Hidx Hok Hfoc Hunits) as H.
    cbv zeta in H. rewrite H in Hsome |- *.
    destruct (AttrGetStr_ core attr nIndex nVariant _ _) as [v|]; [apply Hread|].
    exfalso. apply Hsome. reflexivity.
  - intros value nIndex nVariant pszUnit Hidx Hsize Hunits Hins Hdel Hsome.
    pose proof (RomeFileSetAttrValueAux_value file name value nIndex nVariant pszUnit w
                  attr m ts Hname Hidx Hsize Hok Hfoc Hunits Hins Hdel) as H.
    cbv zeta in H. rewrite H.
    destruct (DoCmdSetStr_ core attr value nIndex nVariant _ _) as [[[r m'] ts']|];
      [apply Hread|].
    exfalso. apply Hsome. reflexivity.
Qed.

End FacadeFacts.

(** ** The dependency walk *)

Section DependencyFacts.

Context {Model Task CAttr CListing : Type}.
Variable core : Collab Model Task CAttr CListing.
Variable fsys : FilesCollab Model.

Abbreviation World := (World Model Task CAttr).

(** *** What a scan pushes

    The filenames that the scan of a file adds to the stack are among the
    pointers of that file. *)

Lemma scan_entry_stack (m : Model) (attrType : ParamType)
      (st : list string * list string) (e : string * option CSubObj) :
  incl (fst (scan_entry fsys m attrType st e)) (entry_target e ++ fst st).
Proof.
  destruct st as [stack csaDeps]. unfold scan_entry, entry_target.
  destruct (is_ATTR_PTR attrType && negb (FileExists_ fsys (fst e) m));
    [apply incl_appr, incl_refl|].
  destruct (snd e) as [pCheckSubObj|]; [|apply incl_appr, incl_refl].
  destruct (IsFile pCheckSubObj); [|apply incl_appr, incl_refl].
  destruct (Z.eqb (ArrayFind fsys csaDeps (GetFileName pCheckSubObj)) (-1));
    [apply incl_refl | apply incl_appr, incl_refl].
Qed.

Lemma scan_entries_stack (m : Model) (attrType : ParamType)
      (es : list (string * option CSubObj)) (st : list string * list string) :
  incl (fst (fold_left (scan_entry fsys m attrType) es st))
       (flat_map entry_target es ++ fst st).
Proof.
  revert st. induction es as [|e es IH]; intros st; [apply incl_refl|].
  simpl. intros a Ha. apply IH in Ha. apply in_app_iff in Ha.
  destruct Ha as [Ha | Ha].
  - apply in_app_iff. left. apply in_app_iff. right. exact Ha.
  - apply scan_entry_stack in Ha. apply in_app_iff in Ha.
    destruct Ha as [Ha | Ha]; apply in_app_iff; [left | right; exact Ha].
    apply in_app_iff. left. exact Ha.
Qed.

Lemma scan_attrs_stack (m : Model) (attrs : list WalkAttr) (st : list string * list string) :
  incl (fst (fold_left (scan_attr fsys m) attrs st))
       (flat_map (fun pAttr => flat_map entry_target (entries pAttr)) attrs ++ fst st).
Proof.
  revert st. induction attrs as [|pAttr attrs IH]; intros st; [apply incl_refl|].
  simpl. intros a Ha. apply IH in Ha. apply in_app_iff in Ha.
  destruct Ha as [Ha | Ha].
  - apply in_app_iff. left. apply in_app_iff. right. exact Ha.
  - assert (Hone : incl (fst (scan_attr fsys m st pAttr))
                        (flat_map entry_target (entries pAttr) ++ fst st)).
    { unfold scan_attr. destruct (ListingType pAttr) as [attrType|];
        [|apply incl_appr, incl_refl].
      destruct (is_ATTR_PTR attrType || is_ATTR_SUB attrType);
        [apply scan_entries_stack | apply incl_appr, incl_refl]. }
    apply Hone in Ha. apply in_app_iff in Ha.
    destruct Ha as [Ha | Ha]; apply in_app_iff; [left | right; exact Ha].
    apply in_app_iff. left. exact Ha.
Qed.

(** The checks of [RomeFilesGetDependencies] and its drain, on arguments
    that pass them. *)
Lemma dependencies_after_checks (fuel : nat) (files : CFileSys) (name : string)
      (out : DepsOut) (w : World) :
  fs_core_is_App files = true ->
  HasFlag (App w) DLLSTATE_CLOSED = false ->
  fs_IsValid files = true ->
  RomeFilesGetDependencies core fsys fuel (Some files) (Some name) out w
  = let w1 := world_after w [EvFinishUpdates] [] (settled_model core w) in
    match walk fsys fuel [name] [] (settled_model core w) with
    | WalkOutOfFuel => None
    | WalkNull _ => None
    | WalkDone csaDeps m =>
        let nSize := to_int (Z.of_nat (length csaDeps) - 1) in
        if (nSize <? 0)%Z then
          Some (RX_FALSE, mkDepsOut (depsArray out) nSize,
                SetLastError ("RomeFilesGetDependecies: exception for File = '"
                              ++ name ++ "'.") (set_model m w1))
        else
          Some (1%Z, mkDepsOut (Some (firstn (Z.to_nat nSize) csaDeps)) nSize,
                set_model m w1)
    end.
Proof.
  intros Happ Hopen Hvalid.
  unfold RomeFilesGetDependencies.
  unfold FinishUpdates, log_event, ASSERT_OR_SETERROR_AND_RETURN_FALSE,
    ASSERT_OR_SETERROR_AND_RETURN_NULL_int, ASSERT_OR_SETERROR_AND_RETURN,
    bind, ret, get, put, deref.
  simpl. rewrite Happ, Hopen, Hvalid. simpl. reflexivity.
Qed.

(** A call that returns true has passed the checks. *)
Lemma dependencies_true_checked (fuel : nat) (pFiles : option CFileSys)
      (pszFilename : option string) (out out' : DepsOut) (w w' : World) :
  RomeFilesGetDependencies core fsys fuel pFiles pszFilename out w = Some (1%Z, out', w') ->
  exists files name,
    pFiles = Some files /\ pszFilename = Some name /\
    fs_core_is_App files = true /\
    HasFlag (App w) DLLSTATE_CLOSED = false /\
    fs_IsValid files = true.
Proof.
  intros Hcall. unfold RomeFilesGetDependencies in Hcall.
  unfold FinishUpdates, log_event, ASSERT_OR_SETERROR_AND_RETURN_FALSE,
    ASSERT_OR_SETERROR_AND_RETURN_NULL_int, ASSERT_OR_SETERROR_AND_RETURN,
    bind, ret, get, put, deref in Hcall.
  destruct pFiles as [files|]; simpl in Hcall; [|discriminate].
  destruct pszFilename as [name|]; simpl in Hcall; [|discriminate].
  destruct (fs_core_is_App files) eqn:Happ; simpl in Hcall; [|discriminate].
  destruct (HasFlag (App w) DLLSTATE_CLOSED) eqn:Hopen; simpl in Hcall; [discriminate|].
  destruct (fs_IsValid files) eqn:Hvalid; simpl in Hcall; [|discriminate].
  exists files, name. repeat split; assumption.
Qed.

(** *** The walk ends

    Every filename that is pushed is new in [csaDeps], so when the pointers
    of all files lie in a finite list [U] of names, the walk opens at most
    one file more than [U] has names. *)

Section WalkEnds.

Variable U : list string.
Hypothesis ArrayFind_absent :
  forall l s, ArrayFind fsys l s = (-1)%Z -> ~ In s l.
Hypothesis targets_in_U :
  forall name m pFile m',
    OpenFile_ fsys name m = (Some pFile, m') -> incl (file_targets pFile) U.

(** What a scan keeps: [csaDeps] stays free of duplicates and within [U],
    and the stack grows by as much as [csaDeps]. *)
Definition scan_keeps (st st' : list string * list string) : Prop :=
  List.NoDup (snd st) -> incl (snd st) U ->
  List.NoDup (snd st') /\ incl (snd st') U /\
  (length (fst st') + length (snd st) = length (fst st) + length (snd st'))%nat.

Lemma scan_keeps_refl (st : list string * list string) : scan_keeps st st.
Proof. intros Hnd Hin. repeat split; auto. Qed.

Lemma scan_keeps_trans (a b c : list string * list string) :
  scan_keeps a b -> scan_keeps b c -> scan_keeps a c.
Proof.
  intros Hab Hbc Hnd Hin.
  destruct (Hab Hnd Hin) as (Hnd' & Hin' & Hlen).
  destruct (Hbc Hnd' Hin') as (Hnd'' & Hin'' & Hlen').
  repeat split; auto. lia.
Qed.

Lemma scan_entry_keeps (m : Model) (attrType : ParamType)
      (st : list string * list string) (e : string * option CSubObj) :
  incl (entry_target e) U ->
  scan_keeps st (scan_entry fsys m attrType st e).
Proof.
  intros Htarget. destruct st as [stack csaDeps]. unfold scan_entry, entry_target in *.
  destruct (is_ATTR_PTR attrType && negb (FileExists_ fsys (fst e) m));
    [apply scan_keeps_refl|].
  destruct (snd e) as [pCheckSubObj|]; [|apply scan_keeps_refl].
  destruct (IsFile pCheckSubObj); [|apply scan_keeps_refl].
  destruct (Z.eqb_spec (ArrayFind fsys csaDeps (GetFileName pCheckSubObj)) (-1))
    as [Hfind|_]; [|apply scan_keeps_refl].
  intros Hnd Hin. simpl in *.
  split; [|split].
  - apply List.NoDup_app; auto.
    + constructor; [intros [] | constructor].
    + intros a Ha [Hb | []]. subst a.
      exact (ArrayFind_absent _ _ Hfind Ha).
  - intros a Ha. apply in_app_iff in Ha. destruct Ha as [Ha | [Ha | []]].
    + apply Hin; exact Ha.
    + subst a. apply Htarget. left; reflexivity.
  - rewrite length_app. simpl. lia.
Qed.

Lemma scan_entries_keeps (m : Model) (attrType : ParamType)
      (es : list (string * option CSubObj)) (st : list string * list string) :
  incl (flat_map entry_target es) U ->
  scan_keeps st (fold_left (scan_entry fsys m attrType) es st).
Proof.
  revert st. induction es as [|e es IH]; intros st Hin; [apply scan_keeps_refl|].
  simpl in *. apply scan_keeps_trans with (b := scan_entry fsys m attrType st e).
  - apply scan_entry_keeps. intros a Ha. apply Hin. apply in_app_iff. left; exact Ha.
  - apply IH. intros a Ha. apply Hin. apply in_app_iff. right; exact Ha.
Qed.

Lemma scan_attrs_keeps (m : Model) (attrs : list WalkAttr) (st : list string * list string) :
  incl (flat_map (fun pAttr => flat_map entry_target (entries pAttr)) attrs) U ->
  scan_keeps st (fold_left (scan_attr fsys m) attrs st).
Proof.
  revert st. induction attrs as [|pAttr attrs IH]; intros st Hin; [apply scan_keeps_refl|].
  simpl in *. apply scan_keeps_trans with (b := scan_attr fsys m st pAttr).
  - unfold scan_attr. destruct (ListingType pAttr) as [attrType|]; [|apply scan_keeps_refl].
    destruct (is_ATTR_PTR attrType || is_ATTR_SUB attrType); [|apply scan_keeps_refl].
    apply scan_entries_keeps. intros a Ha. apply Hin. apply in_app_iff. left; exact Ha.
  - apply IH. intros a Ha. apply Hin. apply in_app_iff. right; exact Ha.
Qed.

Lemma walk_ends (fuel : nat) (stack csaDeps : list string) (m : Model) :
  List.NoDup csaDeps -> incl csaDeps U ->
  (length stack + (length U - length csaDeps) < fuel)%nat ->
  walk fsys fuel stack csaDeps m <> WalkOutOfFuel.
Proof.
  revert stack csaDeps m. induction fuel as [|fuel IH]; intros stack csaDeps m Hnd Hin Hfuel;
    [lia|].
  simpl. destruct stack as [|top rest]; [discriminate|].
  destruct (OpenFile_ fsys top m) as [[pFile|] m'] eqn:Hopen; [|discriminate].
  pose proof (scan_attrs_keeps m' (m_params pFile) (rest, csaDeps)
                (targets_in_U _ _ _ _ Hopen) Hnd Hin) as (Hnd' & Hin' & Hlen).
  destruct (fold_left (scan_attr fsys m') (m_params pFile) (rest, csaDeps))
    as [stack' csaDeps'].
  simpl in *.
  pose proof (List.NoDup_incl_length Hnd' Hin') as Hbound.
  pose proof (List.NoDup_incl_length Hnd Hin) as Hbound0.
  apply IH; auto. lia.
Qed.

(** When every filename of a list [S] opens, and [S] holds the stack and
    [U], the walk never comes to a NULL file pointer. *)
Lemma walk_opens (S : list string) (fuel : nat) (stack csaDeps : list string) (m : Model) :
  incl U S ->
  (forall n m0, In n S -> fst (OpenFile_ fsys n m0) <> None) ->
  incl stack S ->
  forall m', walk fsys fuel stack csaDeps m <> WalkNull m'.
Proof.
  intros HU Hopens. revert stack csaDeps m.
  induction fuel as [|fuel IH]; intros stack csaDeps m Hstack m1; [discriminate|].
  simpl. destruct stack as [|top rest]; [discriminate|].
  destruct (OpenFile_ fsys top m) as [[pFile|] m'] eqn:Hopen.
  - pose proof (scan_attrs_stack m' (m_params pFile) (rest, csaDeps)) as Hpush.
    destruct (fold_left (scan_attr fsys m') (m_params pFile) (rest, csaDeps))
      as [stack' csaDeps'].
    apply IH. intros a Ha. apply Hpush in Ha. apply in_app_iff in Ha.
    destruct Ha as [Ha | Ha].
    + apply HU. exact (targets_in_U _ _ _ _ Hopen a Ha).
    + apply Hstack. right. exact Ha.
  - exfalso. apply (Hopens top m); [apply Hstack; left; reflexivity|].
    rewrite Hopen. reflexivity.
Qed.

(** X14. The walk of [RomeFilesGetDependencies] ends: with fuel for one
    file more than [U] has names, and one turn to see the empty stack, it
    does not run out of fuel whatever file it starts from, since each
    collected filename is opened once and files that point at each other do
    not keep it going. If in addition the file asked for and every file of
    [U] can be opened, the function returns, with false or true, for all
    arguments. *)
Theorem X14_dependencies_returns (pFiles : option CFileSys)
        (pszFilename : option string) (out : DepsOut) (w : World) (fuel : nat)
  (Hfuel : (length U + 2 <= fuel)%nat) :
  (forall name m, walk fsys fuel [name] [] m <> WalkOutOfFuel) /\
  ((forall name n m,
       pszFilename = Some name -> In n (name :: U) -> fst (OpenFile_ fsys n m) <> None) ->
   exists r out' w',
     RomeFilesGetDependencies core fsys fuel pFiles pszFilename out w = Some (r, out', w') /\
     (r = RX_FALSE \/ r = RX_TRUE)).
Proof.
  assert (Hends : forall name m, walk fsys fuel [name] [] m <> WalkOutOfFuel).
  { intros name m.
    apply (walk_ends fuel [name] [] m (List.NoDup_nil _)
             (fun a (H : In a []) => match H with end)).
    simpl; lia. }
  split; [exact Hends|].
  intros Hopens.
  unfold RomeFilesGetDependencies.
  unfold FinishUpdates, log_event, ASSERT_OR_SETERROR_AND_RETURN_FALSE,
    ASSERT_OR_SETERROR_AND_RETURN_NULL_int, ASSERT_OR_SETERROR_AND_RETURN,
    bind, ret, get, put, deref.
  destruct pFiles as [files|]; simpl;
    [|do 3 eexists; split; [reflexivity | left; reflexivity]].
  destruct pszFilename as [name|]; simpl;
    [|do 3 eexists; split; [reflexivity | left; reflexivity]].
  destruct (fs_core_is_App files); simpl;
    [|do 3 eexists; split; [reflexivity | left; reflexivity]].
  destruct (HasFlag (App w) DLLSTATE_CLOSED); simpl;
    [do 3 eexists; split; [reflexivity | left; reflexivity]|].
  destruct (fs_IsValid files); simpl;
    [|do 3 eexists; split; [reflexivity | left; reflexivity]].
  match goal with
  | |- context [walk fsys fuel [name] [] ?M] =>
      pose proof (Hends name M) as Hfuel';
      pose proof (walk_opens (name :: U) fuel [name] [] M
                    (fun a Ha => or_intror Ha)
                    (fun n m0 Hn => Hopens name n m0 eq_refl Hn)
                    (fun a (Ha : In a [name]) =>
                       match Ha with
                       | or_introl e => or_introl e
                       | or_intror f => match f with end
                       end)) as Hnull;
      destruct (walk fsys fuel [name] [] M) as [csaDeps m | m |]
  end.
  - destruct (to_int (Z.of_nat (length csaDeps) - 1) <? 0)%Z;
      do 3 eexists; (split; [reflexivity|]); [left | right]; reflexivity.
  - exfalso. exact (Hnull m eq_refl).
  - contradiction.
Qed.

End WalkEnds.

(** *** What the walk collects *)

Section WalkCollects.

Hypothesis ArrayFind_absent :
  forall l s, ArrayFind fsys l s = (-1)%Z -> ~ In s l.

Lemma walk_collects (fuel : nat) (stack csaDeps : list string) (m : Model)
      (deps : list string) (m' : Model) :
  List.NoDup csaDeps ->
  walk fsys fuel stack csaDeps m = WalkDone deps m' ->
  List.NoDup deps /\
  forall d, In d deps ->
            In d csaDeps \/
            exists n pFile,
              In (n, pFile) (walk_opened fsys fuel stack csaDeps m) /\
              In d (file_targets pFile).
Proof.
  revert stack csaDeps m. induction fuel as [|fuel IH]; intros stack csaDeps m Hnd Hwalk;
    [discriminate|].
  simpl in Hwalk |- *. destruct stack as [|top rest].
  - injection Hwalk as <- _. split; [exact Hnd | intros d Hd; left; exact Hd].
  - destruct (OpenFile_ fsys top m) as [[pFile|] m1] eqn:Hopen; [|discriminate].
    pose proof (scan_attrs_keeps (csaDeps ++ file_targets pFile) ArrayFind_absent
                  m1 (m_params pFile) (rest, csaDeps)
                  (incl_appr _ (incl_refl _)) Hnd (incl_appl _ (incl_refl _)))
      as (Hnd' & Hin' & _).
    destruct (fold_left (scan_attr fsys m1) (m_params pFile) (rest, csaDeps))
      as [stack' csaDeps'].
    simpl in Hnd', Hin'.
    destruct (IH _ _ _ Hnd' Hwalk) as [Hnd'' Hfrom].
    split; [exact Hnd''|].
    intros d Hd. destruct (Hfrom d Hd) as [Hhere | (n & f & Hn & Hf)].
    + apply Hin' in Hhere. apply in_app_iff in Hhere.
      destruct Hhere as [Hold | Hnew]; [left; exact Hold|].
      right. exists top, pFile. split; [left; reflexivity | exact Hnew].
    + right. exists n, f. split; [right; exact Hn | exact Hf].
Qed.

Lemma to_int_le (z : Z) : (0 <= z)%Z -> (to_int z <= z)%Z.
Proof.
  intros Hz. unfold to_int.
  pose proof (Z.mod_le (z + 2147483648) 4294967296 ltac:(lia) ltac:(lia)). lia.
Qed.

(** X12. When [RomeFilesGetDependencies] returns true, [depsArray] holds
    [depsSize] filenames without a duplicate, and each of them is the
    filename of a file pointer found in a file that the walk opened. This
    rests on [ArrayFind] returning -1 only for a string that is not in the
    array. *)
Theorem X12_dependencies_distinct_targets (fuel : nat) (pFiles : option CFileSys)
        (pszFilename : option string) (out out' : DepsOut) (w w' : World)
  (Hcall : RomeFilesGetDependencies core fsys fuel pFiles pszFilename out w
           = Some (1%Z, out', w')) :
  exists name array,
    pszFilename = Some name /\
    depsArray out' = Some array /\
    depsSize out' = Z.of_nat (length array) /\
    List.NoDup array /\
    forall d, In d array ->
              exists n pFile,
                In (n, pFile) (walk_opened fsys fuel [name] [] (settled_model core w)) /\
                In d (file_targets pFile).
Proof.
  destruct (dependencies_true_checked fuel pFiles pszFilename out out' w w' Hcall)
    as (files & name & -> & -> & Happ & Hopen & Hvalid).
  rewrite (dependencies_after_checks fuel files name out w Happ Hopen Hvalid) in Hcall.
  cbv zeta in Hcall.
  destruct (walk fsys fuel [name] [] (settled_model core w)) as [csaDeps m | m |] eqn:Hwalk;
    [|discriminate|discriminate].
  destruct (walk_collects fuel [name] [] (settled_model core w) csaDeps m
              (List.NoDup_nil _) Hwalk) as [Hnd Hfrom].
  destruct (Z.ltb_spec (to_int (Z.of_nat (length csaDeps) - 1)) 0) as [Hlt | Hge];
    [discriminate|].
  injection Hcall as <- _. simpl.
  exists name, (firstn (Z.to_nat (to_int (Z.of_nat (length csaDeps) - 1))) csaDeps).
  split; [reflexivity|]. split; [reflexivity|].
  assert (Hlen : (to_int (Z.of_nat (length csaDeps) - 1) <= Z.of_nat (length csaDeps) - 1)%Z).
  { destruct csaDeps as [|d ds].
    - exfalso.
      replace (to_int (Z.of_nat (length (@nil string)) - 1)) with (-1)%Z in Hge
        by reflexivity.
      lia.
    - apply to_int_le. rewrite length_cons. lia. }
  split; [rewrite length_firstn; lia|].
  assert (Hsub : forall d,
             In d (firstn (Z.to_nat (to_int (Z.of_nat (length csaDeps) - 1))) csaDeps) ->
             In d csaDeps).
  { intros d Hd.
    rewrite <- (firstn_skipn (Z.to_nat (to_int (Z.of_nat (length csaDeps) - 1))) csaDeps).
    apply in_or_app. left. exact Hd. }
  split.
  - rewrite <- (firstn_skipn (Z.to_nat (to_int (Z.of_nat (length csaDeps) - 1))) csaDeps)
      in Hnd.
    apply List.NoDup_app_remove_r in Hnd. exact Hnd.
  - intros d Hd. destruct (Hfrom d (Hsub d Hd)) as [[] | Hfound]. exact Hfound.
Qed.

End WalkCollects.

(** *** A file without file pointers, and a file that does not open *)

Lemma scan_entry_no_target (m : Model) (attrType : ParamType)
      (st : list string * list string) (e : string * option CSubObj) :
  entry_target e = [] -> scan_entry fsys m attrType st e = st.
Proof.
  destruct st as [stack csaDeps]. unfold scan_entry, entry_target.
  destruct (is_ATTR_PTR attrType && negb (FileExists_ fsys (fst e) m)); [reflexivity|].
  destruct (snd e) as [pCheckSubObj|]; [|reflexivity].
  destruct (IsFile pCheckSubObj); [discriminate | reflexivity].
Qed.

Lemma scan_attrs_no_target (m : Model) (attrs : list WalkAttr)
      (st : list string * list string) :
  flat_map (fun pAttr => flat_map entry_target (entries pAttr)) attrs = [] ->
  fold_left (scan_attr fsys m) attrs st = st.
Proof.
  revert st. induction attrs as [|pAttr attrs IH]; intros st Hnone; [reflexivity|].
  simpl in Hnone. apply app_eq_nil in Hnone. destruct Hnone as [Hhere Hrest].
  simpl. rewrite <- (IH st Hrest) at 2. f_equal.
  unfold scan_attr. destruct (ListingType pAttr) as [attrType|]; [|reflexivity].
  destruct (is_ATTR_PTR attrType || is_ATTR_SUB attrType); [|reflexivity].
  clear IH Hrest. revert st Hhere.
  induction (entries pAttr) as [|e es IHe]; intros st Hhere; [reflexivity|].
  simpl in Hhere. apply app_eq_nil in Hhere. destruct Hhere as [He Hes].
  simpl. rewrite (scan_entry_no_target m attrType st e He). apply IHe. exact Hes.
Qed.

(** X13. For a file that opens and holds no pointer to a file,
    [RomeFilesGetDependencies] does not return an empty array: no filename
    is collected, [depsSize] becomes -1, the allocation of the array faults,
    and the function returns false with the array untouched and the text of
    an exception. For a file that does not open, the walk reads the
    parameters of the file through the NULL pointer that it got: the call
    has no result, not the result false. *)
Theorem X13_dependencies_of_plain_file (fuel : nat) (files : CFileSys) (name : string)
        (out : DepsOut) (w : World)
  (Happ : fs_core_is_App files = true)
  (Hopen : HasFlag (App w) DLLSTATE_CLOSED = false)
  (Hvalid : fs_IsValid files = true)
  (Hfuel : (2 <= fuel)%nat) :
  let text := "RomeFilesGetDependecies: exception for File = '" ++ name ++ "'." in
  (forall pFile m',
      OpenFile_ fsys name (settled_model core w) = (Some pFile, m') ->
      file_targets pFile = [] ->
      exists w',
        RomeFilesGetDependencies core fsys fuel (Some files) (Some name) out w
        = Some (RX_FALSE, mkDepsOut (depsArray out) (-1), w') /\
        last_error w' = text /\
        model w' = CloseFile_ fsys pFile m') /\
  (forall m',
      OpenFile_ fsys name (settled_model core w) = (None, m') ->
      walk fsys fuel [name] [] (settled_model core w) = WalkNull m' /\
      RomeFilesGetDependencies core fsys fuel (Some files) (Some name) out w = None).
Proof.
  intros text.
  rewrite (dependencies_after_checks fuel files name out w Happ Hopen Hvalid).
  destruct fuel as [|[|fuel]]; [lia | lia |].
  split.
  - intros pFile m' Hroot Hnone.
    cbn [walk]. rewrite Hroot.
    rewrite (scan_attrs_no_target m' (m_params pFile) ([], []) Hnone).
    cbv zeta. simpl.
    eexists. split; [reflexivity|]. split; [|reflexivity].
    rewrite last_error_SetLastError. reflexivity.
  - intros m' Hroot.
    cbn [walk]. rewrite Hroot. split; reflexivity.
Qed.

(** C9. When the checks pass, the walk ends without a fault and has
    collected at least one filename (so that the allocation of the array does
    not fault), [RomeFilesGetDependencies] returns true, sets [depsSize] to
    one less than the number of collected filenames and [depsArray] to an
    array of exactly [depsSize] entries, the first [depsSize] collected
    filenames. *)
Theorem C9_dependencies_result (fuel : nat) (files : CFileSys) (name : string)
        (out : DepsOut) (w : World) (csaDeps : list string) (m : Model)
  (Happ : fs_core_is_App files = true)
  (Hopen : HasFlag (App w) DLLSTATE_CLOSED = false)
  (Hvalid : fs_IsValid files = true)
  (Hwalk : walk fsys fuel [name] [] (settled_model core w) = WalkDone csaDeps m)
  (Hsome : (1 <= length csaDeps)%nat)
  (Hint : (Z.of_nat (length csaDeps) <= INT_MAX)%Z) :
  exists w' array,
    RomeFilesGetDependencies core fsys fuel (Some files) (Some name) out w
    = Some (1%Z, mkDepsOut (Some array) (Z.of_nat (length csaDeps) - 1), w') /\
    array = firstn (length csaDeps - 1) csaDeps /\
    Z.of_nat (length array) = (Z.of_nat (length csaDeps) - 1)%Z.
Proof.
  unfold RomeFilesGetDependencies.
  unfold FinishUpdates, log_event, ASSERT_OR_SETERROR_AND_RETURN_FALSE,
    ASSERT_OR_SETERROR_AND_RETURN_NULL_int, ASSERT_OR_SETERROR_AND_RETURN,
    bind, ret, get, put, deref.
  simpl. rewrite Happ, Hopen, Hvalid. simpl.
  unfold settled_model, run_tasks in Hwalk. rewrite Hwalk.
  unfold INT_MAX in Hint.
  rewrite to_int_id by lia.
  destruct (Z.ltb_spec (Z.of_nat (length csaDeps) - 1) 0) as [Hlt | Hge]; [lia|].
  eexists. eexists. split; [reflexivity|].
  replace (Z.to_nat (Z.of_nat (length csaDeps) - 1)) with (length csaDeps - 1)%nat by lia.
  split; [reflexivity|].
  rewrite length_firstn. lia.
Qed.

End DependencyFacts.

(** ** The catalog, the file collection, the database and the progress
    bar *)

Section MoreFacadeFacts.

Context {Model Task CAttr CListing Real : Type}.
Variable cfg : Config.
Variable build : Build.
Variable flags : FlagValues.
Variable core : Collab Model Task CAttr CListing.
Variable cat : CatalogCollab CListing.
Variable fs : FileSysCollab Model Task.
Variable frame : FrameCollab Model Task CAttr Real.

Abbreviation World := (World Model Task CAttr).

(** A name with the fileset prefix has none of the other magic prefixes. *)
Lemma prefix_FILESET (name : string) :
  String.prefix "#FILESET:" name = true ->
  String.prefix "#XML:" name = false /\
  String.prefix "<?xml" name = false /\
  String.prefix "#SKEL:" name = false.
Proof.
  intros H. destruct name as [|c0 [|c1 rest]]; cbn [String.prefix] in H |- *;
    try discriminate.
  - destruct (ascii_dec "#" c0); discriminate.
  - destruct (ascii_dec "#" c0) as [<-|]; [|discriminate].
    destruct (ascii_dec "F" c1) as [<-|]; [|discriminate].
    cbn. repeat split.
Qed.

(** The functions of this part, unfolded down to the state monad. *)
Ltac api_unfold :=
  unfold with_file, catch_all_file;
  unfold TEST_OR_SETERROR_AND_RETURN, ASSERT_OR_SETERROR_AND_RETURN_ZERO, call, fs_call,
    frame_call, on_world, get_file, put_file;
  unfold with_CUpdateLock;
  unfold LockUpdate, UnlockUpdate, FinishUpdates, FindOrCreate, SetActiveObj, GetSize,
    DimGetSize, AttrGetIndex, AttrGetStr, UserCmdResizeDim, DoCmdSetStr, Init, Exit;
  unfold log_event, GetCurrentThreadId, catch_all,
    ASSERT_OR_SETERROR_AND_RETURN_FAILURE, ASSERT_OR_SETERROR_AND_RETURN_FALSE,
    ASSERT_OR_SETERROR_AND_RETURN_NULL_int, ASSERT_OR_SETERROR_AND_RETURN_NULL;
  unfold ASSERT_OR_SETERROR_AND_RETURN, ASSERT_OR_RETURN;
  unfold try_catch, bind, ret, return_, throw, get, put, deref.

#[local] Arguments strempty : simpl never.
#[local] Arguments HasFlag : simpl never.
#[local] Arguments SetLastError : simpl never.
#[local] Arguments RomeThreadSetNamedString : simpl never.
#[local] Arguments to_short : simpl never.
#[local] Arguments to_int : simpl never.
#[local] Arguments Z.eqb : simpl never.
#[local] Arguments Z.leb : simpl never.
#[local] Arguments Z.ltb : simpl never.
#[local] Arguments strlen : simpl never.
#[local] Arguments strieq : simpl never.
#[local] Arguments String.prefix : simpl never.
#[local] Arguments str_skip : simpl never.

Ltac pass_checks_with Hok pre :=
  apply file_call_ok_elim in Hok;
  let Happ := fresh "Happ" in
  let Hopen := fresh "Hopen" in
  let Hvalid := fresh "Hvalid" in
  let Hrefs := fresh "Hrefs" in
  let Hthr := fresh "Hthr" in
  destruct Hok as (Happ & Hopen & Hvalid & Hrefs & Hthr);
  api_unfold; simpl; pre; simpl;
  rewrite ?Happ, ?Hopen, ?Hvalid; simpl;
  destruct (USE_ROMEAPI_REFCOUNT cfg); [rewrite (Hrefs eq_refl) | clear Hrefs]; simpl;
  (destruct (USE_ROMEAPI_THREADIdS cfg); [rewrite (Hthr eq_refl) | clear Hthr]; simpl).

Ltac pass_checks Hok := pass_checks_with Hok idtac.

Ltac finish_world :=
  unfold world_after, core_effect, drain, set_Engine, set_lock, run_tasks, settled_model;
  simpl; rewrite ?app_nil_r; rewrite <- ?app_assoc; rewrite ?lock_unlock; simpl;
  reflexivity.

(** Case analysis on the tests of a body, innermost first. *)
Ltac no_branch x :=
  lazymatch x with
  | context [match _ with Some _ => _ | None => _ end] => fail
  | context [match _ with (_, _) => _ end] => fail
  | context [if _ then _ else _] => fail
  | _ => idtac
  end.

Ltac split_paths :=
  repeat first
    [ progress simpl
    | match goal with
      | |- context [if ?c then _ else _] => no_branch c; destruct c eqn:?
      | |- context [match ?x with Some _ => _ | None => _ end] =>
          no_branch x; destruct x eqn:?
      | |- context [match ?x with (_, _) => _ end] => no_branch x; destruct x eqn:?
      end ].

(** The tests whose outcome is among the hypotheses. *)
Ltac use_facts :=
  repeat (simpl;
          match goal with
          | H : ?x = true |- context [?x] => rewrite H
          | H : ?x = false |- context [?x] => rewrite H
          end);
  simpl.



(** *** The catalog *)

(** A call that failed with an error text. *)
Ltac failed_call :=
  split; [unfold RX_FAILURE; lia|];
  split; [apply core_untouched_SetLastError|];
  let H := fresh in intros H; exfalso; apply H; reflexivity.

(** X15. [RomeCatalogGetAttrDimCount] gives -1, 0, 1 or 2 and never
    changes the core. A result other than -1 leaves the whole world as it
    was, error text included, and is the number of the first two
    dimensions of the catalog listing whose name is neither empty nor
    ["1"]. *)
Theorem X15_catalog_dim_count (pApp : AppPtr) (pszAttr : option string) (w : World) :
  let r := RomeCatalogGetAttrDimCount core cat pApp pszAttr w in
  (RX_FAILURE <= fst r <= 2)%Z /\
  core_untouched w (snd r) /\
  (fst r <> RX_FAILURE ->
   snd r = w /\
   exists name listing,
     pszAttr = Some name /\
     GetListing core name = Some listing /\
     fst r = (Z.b2z (negb (strempty (GetDim cat listing 0))
                     && negb (streq (GetDim cat listing 0) "1"))
              + Z.b2z (negb (strempty (GetDim cat listing 1))
                       && negb (streq (GetDim cat listing 1) "1")))%Z).
Proof.
  intros r. subst r. unfold RomeCatalogGetAttrDimCount. api_unfold.
  destruct (strempty pszAttr) eqn:Hempty; simpl;
    [destruct pApp; simpl; failed_call|].
  destruct pszAttr as [name|]; [|discriminate].
  destruct pApp; simpl; try failed_call.
  destruct (HasFlag (App w) DLLSTATE_CLOSED); simpl; [failed_call|].
  destruct (GetListing core name) as [listing|] eqn:Hl; simpl; [|failed_call].
  split.
  - unfold RX_FAILURE.
    destruct (negb (strempty (GetDim cat listing 0)) && negb (streq (GetDim cat listing 0) "1"));
      destruct (negb (strempty (GetDim cat listing 1))
                && negb (streq (GetDim cat listing 1) "1")); simpl; lia.
  - split; [repeat split|]. intros _. split; [reflexivity|].
    exists name, listing. split; [reflexivity|]. split; [exact Hl | reflexivity].
Qed.

(** X16. On an open session, without thread ids, [RomeCatalogGetAttrTag]
    is [GetParamTag] of what [RomeCatalogGetAttrType] returns, with the same
    world. For a parameter of the catalog the type is that of its listing,
    except that a float whose listing is marked integral is reported as
    ATTR_INT: such a parameter is never reported as ATTR_FLT. A name that
    the catalog does not have gives the NULL type and the text that the
    parameter was not found. *)
Theorem X16_catalog_type_and_tag (pszAttr : option string) (name : string) (w : World)
  (Hattr : pszAttr = Some name)
  (Hname : strempty pszAttr = false)
  (Hopen : HasFlag (App w) DLLSTATE_CLOSED = false)
  (Hthr : USE_ROMEAPI_THREADIdS cfg = false) :
  let t := RomeCatalogGetAttrType cfg core cat AppGlobal pszAttr w in
  let g := RomeCatalogGetAttrTag cfg core cat AppGlobal pszAttr w in
  g = (GetParamTag cat (fst t), snd t) /\
  (forall listing,
      GetListing core name = Some listing ->
      t = (if is_ATTR_FLT (GetType cat listing) && GetFlag_ACF_INTEGRAL cat listing
           then Some ATTR_INT else GetType cat listing, w) /\
      (GetFlag_ACF_INTEGRAL cat listing = true -> fst t <> Some ATTR_FLT)) /\
  (GetListing core name = None ->
   t = (None, SetLastError "RomeCatalogGetAttrType: Parameter not found." w)).
Proof.
  intros t g.
  assert (Ht : t = match GetListing core name with
                   | Some listing =>
                       (if is_ATTR_FLT (GetType cat listing) && GetFlag_ACF_INTEGRAL cat listing
                        then Some ATTR_INT else GetType cat listing, w)
                   | None =>
                       (None, SetLastError "RomeCatalogGetAttrType: Parameter not found." w)
                   end).
  { subst t. unfold RomeCatalogGetAttrType. api_unfold. simpl.
    rewrite Hopen, Hname, Hthr, Hattr. simpl.
    destruct (GetListing core name); reflexivity. }
  split; [|split].
  - subst g. unfold RomeCatalogGetAttrTag. api_unfold. simpl.
    rewrite Hname. simpl. rewrite Hopen. simpl. fold t.
    destruct t as [nType w']. reflexivity.
  - intros listing Hl. rewrite Hl in Ht. split; [exact Ht|].
    intros Hint. rewrite Ht. simpl. rewrite Hint, andb_true_r.
    destruct (GetType cat listing) as [[]|]; simpl; discriminate.
  - intros Hl. rewrite Hl in Ht. exact Ht.
Qed.

(** *** Opening files *)

(** X17. [RomeFilesOpen] refuses the three reserved names, in any
    letter case, and the empty name before it looks at the collection
    pointer, the session or the database: the result is NULL, the core is
    untouched and the text names the first check that failed. *)
Theorem X17_files_open_reserved_names (files : CFileSys) (name : string) (nFlags : Z)
        (w : World)
  (Hres : strieq name ENTRY_CUSTOM || strieq name ENTRY_NONE || strieq name ENTRY_NULL
          || strempty (Some name) = true) :
  refused w (RomeFilesOpen cfg build flags fs (Some files) (Some name) nFlags w) None
    (if strieq name ENTRY_CUSTOM
     then "RomeFilesOpen: attempt to open file '#ENTRY_CUSTOM'."
     else if strieq name ENTRY_NONE
     then "RomeFilesOpen: attempt to open file '#ENTRY_NONE'."
     else if strieq name ENTRY_NULL
     then "RomeFilesOpen: attempt to open file '#ENTRY_NULL'."
     else "RomeFilesOpen: attempt to open empty filename.").
Proof.
  unfold RomeFilesOpen. api_unfold. simpl.
  destruct (strieq name ENTRY_CUSTOM); simpl; [apply refused_SetLastError; reflexivity|].
  destruct (strieq name ENTRY_NONE); simpl; [apply refused_SetLastError; reflexivity|].
  destruct (strieq name ENTRY_NULL); simpl; [apply refused_SetLastError; reflexivity|].
  simpl in Hres. rewrite Hres. simpl. apply refused_SetLastError; reflexivity.
Qed.

(** X18. With filesets built in, [RomeFilesOpen] on a name with the
    prefix [#FILESET:] never returns a file, whatever happens: when all
    checks pass, the fileset named after the prefix is opened with the CFF
    format flag set and the XML one cleared, the core is left as
    [FilesetOpen] leaves it, and the result is NULL whether or not the
    fileset was opened. *)
Theorem X18_files_open_fileset (pFiles : option CFileSys) (name : string) (nFlags : Z)
        (w : World)
  (Hbuild : USE_FILESETS build = true)
  (Hprefix : String.prefix "#FILESET:" name = true) :
  let r := RomeFilesOpen cfg build flags fs pFiles (Some name) nFlags w in
  fst r = None /\
  (forall files bOpened m ts,
      pFiles = Some files ->
      fs_core_is_App files = true ->
      HasFlag (App w) DLLSTATE_CLOSED = false ->
      fs_IsValid files = true ->
      IsOpen fs (model w) || HasFlag_ fs nFlags (RX_FILESOPEN_PRIVATE flags) = true ->
      (USE_ROMEAPI_THREADIdS cfg = true ->
       Z.eqb (m_nThreadId (App w)) (cur_thread w) = false) ->
      strieq name ENTRY_CUSTOM || strieq name ENTRY_NONE || strieq name ENTRY_NULL = false ->
      FilesetOpen fs (str_skip 9 name) (cff_flags flags (open_flags flags nFlags)) (model w)
      = Some (bOpened, m, ts) ->
      r = (None, core_effect m ts w)).
Proof.
  intros r.
  destruct (prefix_FILESET name Hprefix) as (Hxml & Hlit & Hskel).
  assert (Hne : strempty (Some name) = false).
  { destruct name; [discriminate | reflexivity]. }
  split.
  - subst r. unfold RomeFilesOpen. api_unfold. simpl.
    rewrite Hxml, Hlit, Hskel, Hbuild, Hprefix, andb_false_r. simpl.
    rewrite Hne.
    split_paths; reflexivity.
  - intros files bOpened m ts -> Happ Hopen Hvalid Hdb Hthr Hres Hset.
    apply orb_false_elim in Hres. destruct Hres as [Hres Hnull].
    apply orb_false_elim in Hres. destruct Hres as [Hcustom Hnone].
    subst r. unfold RomeFilesOpen. api_unfold. simpl.
    rewrite Hxml, Hlit, Hskel, Hbuild, Hprefix, andb_false_r. simpl.
    rewrite Hcustom, Hnone, Hnull, Hne. simpl.
    rewrite Happ, Hopen, Hvalid. simpl. rewrite Hdb. simpl.
    destruct (USE_ROMEAPI_THREADIdS cfg); [rewrite (Hthr eq_refl)|]; simpl.
    all: rewrite Hset; destruct bOpened; reflexivity.
Qed.

(** *** The reference count of a file *)




(** *** The database *)

(** X23. [RomeDatabaseOpen] first does what [RomeDatabaseClose] does.
    When files remain open after [CloseFiles], both return false and the
    database is neither closed nor opened; only the open sets an error
    text. Otherwise the database is closed; the close returns the result of
    [CloseDatabase], and the open returns false with a text when that
    result is 0, and else what [Open] returns on the model that the close
    left, or -1 with the exception text when [Open] throws: the old
    database stays closed in each case. *)
Theorem X23_database_open_closes_first (db : CFileSys) (pszDatabase pszClosed : option string)
        (w : World) (m1 : Model) (ts1 : list Task)
  (Happ : fs_core_is_App db = true)
  (Hopen : HasFlag (App w) DLLSTATE_CLOSED = false)
  (Hthr : USE_ROMEAPI_THREADIdS cfg = true ->
          Z.eqb (m_nThreadId (App w)) (cur_thread w) = false)
  (Hfiles : CloseFiles fs (CVF_CloseFiles flags) (model w) = Some (m1, ts1)) :
  let opened := RomeDatabaseOpen cfg flags fs (Some db) pszDatabase w in
  let closed := RomeDatabaseClose cfg flags fs (Some db) pszClosed w in
  let w1 := core_effect m1 ts1 w in
  (FilesToClose fs false m1 = true ->
   closed = (RX_FALSE, w1) /\
   opened = (RX_FALSE, SetLastError "RomeDatabaseOpen: files still remaining open." w1)) /\
  (forall bClosed m2,
      FilesToClose fs false m1 = false ->
      CloseDatabase fs m1 = Some (bClosed, m2) ->
      let w2 := core_effect m2 [] w1 in
      closed = (bClosed, w2) /\
      opened = if Z.eqb bClosed 0
               then (RX_FALSE, SetLastError "RomeDatabaseOpen: failed to close database." w2)
               else match Open fs pszDatabase m2 with
                    | Some (bOpened, m3, ts3) => (bOpened, core_effect m3 ts3 w2)
                    | None =>
                        (RX_FAILURE,
                         SetLastError ("RomeDatabaseOpen: exception for Database = '"
                                       ++ CStr pszDatabase ++ "'.") w2)
                    end).
Proof.
  intros opened closed w1. subst opened closed w1.
  unfold RomeDatabaseOpen, RomeDatabaseClose. api_unfold.
  split.
  - intros Hremain.
    destruct (USE_ROMEAPI_THREADIdS cfg); [specialize (Hthr eq_refl)|clear Hthr].
    all: use_facts; rewrite Hfiles; simpl; rewrite Hremain; simpl.
    all: split; reflexivity.
  - intros bClosed m2 Hremain Hclose.
    destruct (USE_ROMEAPI_THREADIdS cfg); [specialize (Hthr eq_refl)|clear Hthr].
    all: use_facts; rewrite Hfiles; simpl; rewrite Hremain; simpl.
    all: rewrite Hclose; simpl.
    all: split; [reflexivity|].
    all: destruct (Z.eqb bClosed 0); simpl; [reflexivity|].
    all: destruct (Open fs pszDatabase m2) as [[[bOpened m3] ts3]|]; reflexivity.
Qed.

(** *** The progress bar *)

(** X24. [RomeProgressCreate] returns false and leaves the core
    untouched, so that no progress bar is created, when the build is not
    BUILD_MOSES, when the session is closed, or when the range is not
    valid: a negative lower bound, an upper bound that is not above the
    lower one, or a step below 1. This holds with and without a status bar
    pointer. *)
Theorem X24_progress_create_refusals (pStatus : bool) (nLower nUpper nStep : Z) (w : World)
  (Hbad : BUILD_MOSES build = false \/ HasFlag (App w) DLLSTATE_CLOSED = true \/
          (nLower < 0)%Z \/ (nUpper <= nLower)%Z \/ (nStep < 1)%Z) :
  let r := RomeProgressCreate cfg build core frame pStatus nLower nUpper nStep w in
  fst r = RX_FALSE /\ core_untouched w (snd r).
Proof.
  intros r. subst r. unfold RomeProgressCreate, RomeGetStatusbar. api_unfold.
  assert (Hsame : core_untouched w w) by (repeat split).
  destruct (BUILD_MOSES build) eqn:Hb; simpl.
  2:{ destruct pStatus; simpl.
      2:{ (split; [reflexivity|repeat split]). }
      destruct (HasFlag (App w) DLLSTATE_CLOSED); simpl;
        [(split; [reflexivity|repeat split])|].
      destruct (USE_ROMEAPI_THREADIdS cfg); simpl.
      1: destruct (Z.eqb (m_nThreadId (App w)) (cur_thread w)); simpl;
        [(split; [reflexivity|repeat split])|].
      all: destruct (0 <=? nLower)%Z; simpl;
        [|(split; [reflexivity|repeat split])].
      all: destruct (0 <=? nUpper)%Z; simpl;
        [|(split; [reflexivity|repeat split])].
      all: destruct (1 <=? nStep)%Z; simpl;
        [|(split; [reflexivity|repeat split])].
      all: destruct (nLower <? nUpper)%Z; simpl;
        [|(split; [reflexivity|repeat split])].
      all: split; [reflexivity|exact Hsame]. }
  destruct Hbad as [Hbad|Hbad]; [discriminate|].
  assert (Hrange : HasFlag (App w) DLLSTATE_CLOSED = true \/
                   (0 <=? nLower)%Z && (0 <=? nUpper)%Z && (1 <=? nStep)%Z
                   && (nLower <? nUpper)%Z = false).
  { destruct Hbad as [H|H]; [left; exact H|right].
    destruct (Z.leb_spec 0 nLower), (Z.leb_spec 0 nUpper), (Z.leb_spec 1 nStep),
      (Z.ltb_spec nLower nUpper); simpl; try reflexivity; lia. }
  clear Hbad.
  destruct (HasFlag (App w) DLLSTATE_CLOSED) eqn:Hclosed; simpl.
  { destruct pStatus; simpl; rewrite ?Hclosed; simpl.
    all: split; [reflexivity|repeat split]. }
  destruct Hrange as [?|Hrange]; [discriminate|].
  destruct pStatus; simpl; rewrite ?Hclosed; simpl.
  all: destruct (USE_ROMEAPI_THREADIdS cfg); simpl.
  all: try (destruct (Z.eqb (m_nThreadId (App w)) (cur_thread w)); simpl).
  all: try (destruct (GetMainFrame frame (model w)); simpl).
  all: rewrite ?Hclosed; simpl.
  all: try ((split; [reflexivity|repeat split])).
  all: try (destruct (Z.eqb (m_nThreadId (App w)) (cur_thread w)); simpl).
  all: try ((split; [reflexivity|repeat split])).
  all: destruct (0 <=? nLower)%Z; simpl;
    [|(split; [reflexivity|repeat split])].
  all: destruct (0 <=? nUpper)%Z; simpl;
    [|(split; [reflexivity|repeat split])].
  all: destruct (1 <=? nStep)%Z; simpl;
    [|(split; [reflexivity|repeat split])].
  all: destruct (nLower <? nUpper)%Z; simpl;
    [|(split; [reflexivity|repeat split])].
  all: discriminate.
Qed.

(** *** Float arrays *)

(** X25. [RomeFileGetFloatArray] with valid arguments: a size of 0 is
    refused with a text before any call into the core, and the array and
    the size are unchanged. Any other size, negative ones included, goes
    on. When the attribute does not resolve the result is false, the array
    and the size are unchanged and no error text is set. When it resolves
    and [FindOrCreate] scheduled no update, the array is read from the
    model as [FindOrCreate] left it, after the updates that were pending
    before the call have run. When [FindOrCreate] scheduled updates, a
    debug build stops at the assertion that the engine is finished, and the
    call has no result. *)
Theorem X25_float_array_read (file : CFileObj) (name : string) (array : list Real)
        (nSize nVariant : Z) (pszUnit : string) (w : World)
  (Hname : strempty (Some name) = false)
  (Hok : file_call_ok cfg file w = true)
  (Hvariant : VariantIsValid frame nVariant true = true) :
  let read n := RomeFileGetFloatArray cfg build core frame (Some file) (Some name)
                  (Some array) (Some n) nVariant pszUnit w in
  read 0%Z = (Some (RX_FALSE, Some array, Some 0%Z),
              SetLastError "RomeFileGetFloatArray: non-positive size." w) /\
  (nSize <> 0%Z ->
   forall m ts,
     FindOrCreate_ core name file (settled_model core w) = Some (None, m, ts) ->
     read nSize = (Some (RX_FALSE, Some array, Some nSize),
                   world_after w [EvFinishUpdates; EvFindOrCreate name] ts m)) /\
  (nSize <> 0%Z ->
   forall attr m bSet array' nSize',
     FindOrCreate_ core name file (settled_model core w) = Some (Some attr, m, []) ->
     AttrGetFloatArray frame attr array nSize nVariant pszUnit m
     = Some (bSet, array', nSize') ->
     read nSize
     = (Some (bSet, Some array', Some nSize'),
        world_after w [EvFinishUpdates; EvFindOrCreate name; EvSetActiveObj] [] m)) /\
  (nSize <> 0%Z ->
   DEBUG build = true ->
   forall attr m t ts,
     FindOrCreate_ core name file (settled_model core w) = Some (Some attr, m, t :: ts) ->
     fst (read nSize) = None).
Proof.
  intros read. subst read. unfold RomeFileGetFloatArray, IsFinished.
  split; [|split; [|split]].
  - destruct (file_call_ok_elim cfg file w Hok) as (Happ & Hopen & Hvalid & _ & _).
    api_unfold. use_facts. reflexivity.
  - intros Hsize m ts Hfoc. pose proof Hok as Hok'. rewrite Hname. simpl negb.
    apply Z.eqb_neq in Hsize.
    pass_checks_with Hok' ltac:(rewrite ?Hsize, ?Hvariant).
    all: rewrite ?Hsize, ?Hvariant; simpl.
    all: unfold settled_model, run_tasks in Hfoc; rewrite Hfoc; simpl.
    all: finish_world.
  - intros Hsize attr m bSet array' nSize' Hfoc Hread. pose proof Hok as Hok'.
    rewrite Hname. simpl negb.
    apply Z.eqb_neq in Hsize.
    pass_checks_with Hok' ltac:(rewrite ?Hsize, ?Hvariant).
    all: rewrite ?Hsize, ?Hvariant; simpl.
    all: unfold settled_model, run_tasks in Hfoc; rewrite Hfoc; simpl.
    all: rewrite andb_false_r; simpl.
    all: rewrite Hread; simpl.
    all: finish_world.
  - intros Hsize Hdebug attr m t ts Hfoc. pose proof Hok as Hok'.
    rewrite Hname. simpl negb.
    apply Z.eqb_neq in Hsize.
    pass_checks_with Hok' ltac:(rewrite ?Hsize, ?Hvariant).
    all: rewrite ?Hsize, ?Hvariant; simpl.
    all: unfold settled_model, run_tasks in Hfoc; rewrite Hfoc; simpl.
    all: rewrite Hdebug; reflexivity.
Qed.

End MoreFacadeFacts.

(** ** The statements at concrete inputs *)

Section Instances.

Import Toy.

Local Open Scope Z_scope.




Lemma C3_witness :
  fst (RomeFileSetAttrSize cfg core (Some profile) (Some "ROWS") 0 w0) = RX_FAILURE /\
  fst (RomeFileSetAttrSize cfg core (Some profile) (Some "ROWS") 4 w0) = 0 /\
  (fst (RomeFileSetAttrSize cfg core (Some profile) (Some "ROWS") 6 w0) = 1 <-> 4 <> 6).
Proof.
  pose proof (C3_resize_return cfg core profile "ROWS" w0 "ROWS" m0 []
                ltac:(reflexivity) ltac:(vm_compute; reflexivity)
                ltac:(vm_compute; reflexivity)) as H.
  destruct H as (Hle & _ & _ & Hok).
  split; [apply Hle; lia|]. split.
  - destruct (Hok 4 ltac:(lia) ltac:(reflexivity) ltac:(reflexivity)) as (Heq & _).
    exact (Heq eq_refl).
  - destruct (Hok 6 ltac:(lia) ltac:(reflexivity) ltac:(reflexivity)) as (_ & _ & Hiff & _).
    exact (Hiff ltac:(vm_compute; discriminate)).
Defined.



Lemma C5_witness :
  last_error (snd (RomeFileGetAttrValueAux cfg core (Some profile) (Some "NOPE") 0 0
                     EmptyString w0))
  = "RomeFileGetAttrValue: no Rusle2 parameter of that name."%string /\
  last_error (snd (RomeFileSetAttrValueAux cfg core (Some profile) (Some "CLAY") (Some "7"%string)
                     0 0 EmptyString w0))
  = "RomeFileSetAttrValue: Rusle2 parameter asked for in wrong object type."%string.
Proof.
  split.
  - pose proof (C5_catalog_gating cfg core profile "NOPE" "7" 0 0 EmptyString w0 m0 []
                  ltac:(reflexivity) ltac:(lia) ltac:(reflexivity)
                  ltac:(vm_compute; reflexivity) ltac:(vm_compute; reflexivity)) as H.
    destruct H as (_ & _ & Hnone & _).
    apply Hnone. reflexivity.
  - pose proof (C5_catalog_gating cfg core profile "CLAY" "7" 0 0 EmptyString w0 m0 []
                  ltac:(reflexivity) ltac:(lia) ltac:(reflexivity)
                  ltac:(vm_compute; reflexivity) ltac:(vm_compute; reflexivity)) as H.
    destruct H as (_ & _ & _ & Hwrong & _).
    apply (Hwrong ["SOIL"%string]); reflexivity.
Defined.

Lemma C6_witness :
  error_call_accepted cfg AppGlobal w0 = true /\
  fst (RomeGetLastError cfg AppGlobal
         (snd (RomeSetLastError cfg AppGlobal (Some "-c"%string)
                 (snd (RomeSetLastError cfg AppGlobal (Some "+b"%string)
                         (snd (RomeSetLastError cfg AppGlobal (Some "a"%string) w0)))))))
  = Some ("c" ++ LF ++ "a" ++ LF ++ "b")%string.
Proof.
  pose proof (C6_error_buffer_editing cfg AppGlobal w0 ltac:(reflexivity)) as H.
  cbv zeta in H. destruct H as (_ & _ & _ & _ & _ & _ & Hread).
  split; [reflexivity|].
  apply Hread; reflexivity.
Defined.

Lemma C7_witness :
  RomeInit cfg core (Some "other args"%string) w0 = (AppGlobal, w0) /\
  Forall (fun p => p = AppNull)
         (fst (RomeInit_calls cfg core [None; Some "again"%string]
                 (snd (RomeExit core AppGlobal w0)))).
Proof.
  split.
  - apply (proj1 (C7_session_lifecycle cfg core w0)); reflexivity.
  - apply (proj2 (proj2 (C7_session_lifecycle cfg core w0))). reflexivity.
Defined.



Lemma C9_witness :
  exists w',
    RomeFilesGetDependencies core fsys 10 (Some the_files) (Some "profiles\default"%string)
      (mkDepsOut None 0) w0
    = Some (1, mkDepsOut (Some ["soils\loam"; "climates\knoxville"]%string) 2, w').
Proof.
  destruct (C9_dependencies_result core fsys 10 the_files "profiles\default"
              (mkDepsOut None 0) w0
              ["soils\loam"; "climates\knoxville"; "profiles\default"]%string m0
              ltac:(reflexivity) ltac:(reflexivity) ltac:(reflexivity)
              ltac:(vm_compute; reflexivity) ltac:(simpl; lia)
              ltac:(vm_compute; discriminate))
    as (w' & array & Hcall & Harray & _).
  exists w'. rewrite Hcall, Harray. reflexivity.
Defined.

Lemma C10_witness :
  fst (RomeFileGetAttrSize cfg core (Some profile) (Some "ROWS") w0) = 4 /\
  fst (RomeFileGetAttrSizeEx cfg core (Some profile) (Some "ROWS") w0) = 4 /\
  fst (RomeFileGetAttrSize cfg core (Some profile) (Some "BIG") w0) = RX_FAILURE /\
  fst (RomeFileGetAttrSizeEx cfg core (Some profile) (Some "BIG") w0) = 40000.
Proof.
  pose proof (C10_short_size_limit cfg core profile "ROWS" w0 "ROWS" m0 []
                ltac:(reflexivity) ltac:(vm_compute; reflexivity)
                ltac:(vm_compute; reflexivity)) as Hrows.
  pose proof (C10_short_size_limit cfg core profile "BIG" w0 "BIG" m0 []
                ltac:(reflexivity) ltac:(vm_compute; reflexivity)
                ltac:(vm_compute; reflexivity)) as Hbig.
  cbv zeta in Hrows, Hbig.
  destruct Hrows as (Hlong & Hfit & _). destruct Hbig as (Hlong' & _ & Hover).
  split; [apply Hfit; vm_compute; split; discriminate|].
  split; [exact Hlong|].
  split; [apply Hover; vm_compute; reflexivity | exact Hlong'].
Defined.

Lemma array_find_absent (l : list string) (s : string) (i : Z) :
  0 <= i -> array_find l s i = -1 -> ~ In s l.
Proof.
  revert i. induction l as [|x l IH]; intros i Hi Hfind; [intros []|].
  simpl in Hfind. destruct (String.eqb_spec x s) as [Heq | Hneq]; [lia|].
  intros [Hx | Hin]; [contradiction|].
  apply (IH (i + 1)); auto; lia.
Qed.

Lemma lookup_file_In (name : string) (fs : list (string * WalkFile)) (pFile : WalkFile) :
  lookup_file name fs = Some pFile -> In pFile (map snd fs).
Proof.
  induction fs as [|[n f] fs IH]; intros Hfind; [discriminate|].
  cbn [lookup_file] in Hfind. cbn [map snd].
  destruct (String.eqb n name).
  - left. congruence.
  - right. apply IH. exact Hfind.
Qed.

(** *** Further statements at concrete inputs *)

Lemma X1_witness :
  fst (RomeFileSetAttrValueAux cfg core (Some profile) (Some "ROWS") None 0 0 EmptyString w0)
  = RX_FAILURE /\
  trace (snd (RomeFileSetAttrValueAux cfg core (Some profile) (Some "ROWS")
                (Some long_value) 0 0 EmptyString w0)) = [] /\
  last_error (snd (RomeFileSetAttrValueAux cfg core (Some profile) (Some "ROWS")
                     (Some "5"%string) (-3) 0 EmptyString w0))
  = "RomeFileSetAttrValue: negative index."%string.
Proof.
  pose proof (X1_set_value_rejected_early cfg core (Some profile) (Some "ROWS"%string) None
                0 0 EmptyString w0 ltac:(left; reflexivity)) as Hnull.
  pose proof (X1_set_value_rejected_early cfg core (Some profile) (Some "ROWS"%string)
                (Some long_value) 0 0 EmptyString w0
                ltac:(right; right; exists long_value; vm_compute; repeat split)) as Hlong.
  pose proof (X1_set_value_rejected_early cfg core (Some profile) (Some "ROWS"%string)
                (Some "5"%string) (-3) 0 EmptyString w0 ltac:(right; left; lia)) as Hneg.
  cbv zeta in Hnull, Hlong, Hneg.
  destruct Hnull as (Hr & _). destruct Hlong as (_ & (_ & _ & Htr & _) & _).
  destruct Hneg as (_ & _ & Htext).
  split; [exact Hr|]. split; [exact Htr|].
  exact (Htext eq_refl eq_refl).
Defined.

Lemma X2_witness :
  RomeFileSetAttrValueAux cfg core (Some profile) (Some "ROWS") (Some "#insert"%string) 1 0
    EmptyString w0
  = (1, world_after w0
          [EvFinishUpdates; EvLockUpdate; EvFindOrCreate "ROWS"; EvUnlockUpdate;
           EvSetActiveObj; EvFinishUpdates; EvUserCmdResizeDim (Some "ROWS"%string) 1 false]
          ["ROWS"%string] (<["ROWS"%string := ["0"; "0"; "0"; "0"; "0"]%string]> m0)).
Proof.
  pose proof (X2_set_value_insert_delete cfg core profile "ROWS" "#insert" 1 0 EmptyString w0
                "ROWS" m0 [] false
                ltac:(reflexivity) ltac:(lia) ltac:(reflexivity)
                ltac:(vm_compute; reflexivity) ltac:(vm_compute; reflexivity)
                ltac:(reflexivity) ltac:(vm_compute; reflexivity)) as H.
  cbv zeta in H. rewrite H. vm_compute. reflexivity.
Defined.

Lemma X3_witness :
  fst (RomeFileGetAttrValueAux cfg core_strict (Some profile) (Some "ROWS") 0 0 "furlong" w0)
  = None /\
  fst (RomeFileSetAttrValueAux cfg core_strict (Some profile) (Some "ROWS") (Some "5"%string)
         0 0 "furlong" w0) = 0 /\
  last_error (snd (RomeFileSetAttrValueAux cfg core_strict (Some profile) (Some "ROWS")
                     (Some "5"%string) 0 0 "furlong" w0)) = EmptyString.
Proof.
  pose proof (X3_invalid_units_quiet cfg core_strict profile "ROWS" "5" 0 0 "furlong" w0
                "ROWS" m0 []
                ltac:(reflexivity) ltac:(lia) ltac:(reflexivity)
                ltac:(vm_compute; reflexivity) ltac:(vm_compute; reflexivity)
                ltac:(reflexivity)) as H.
  cbv zeta in H. destruct H as (Hg & Hs & _ & Hes).
  split; [rewrite Hg; reflexivity|]. split; [rewrite Hs; reflexivity|].
  rewrite Hes. reflexivity.
Defined.

Lemma X5_witness :
  let w := world 1 [DLLSTATE_CLOSED; DLLSTATE_INITROME] in
  fst (RomeFileGetAttrSize cfg core (Some profile) (Some "ROWS") w) = 0 /\
  fst (RomeFileGetAttrSizeEx cfg core (Some profile) (Some "ROWS") w) = RX_FAILURE /\
  trace (snd (RomeFileSetAttrValueAux cfg core (Some profile) (Some "ROWS") (Some "5"%string)
                0 0 EmptyString w)) = [].
Proof.
  pose proof (X5_closed_session_refuses cfg core profile "ROWS" "5" 0 6 0 0 EmptyString
                (world 1 [DLLSTATE_CLOSED; DLLSTATE_INITROME])
                ltac:(reflexivity) ltac:(reflexivity) ltac:(reflexivity)
                ltac:(lia) ltac:(lia) ltac:(reflexivity)) as H.
  destruct H as ((Hs & _) & (Hl & _) & _ & _ & _ & (_ & (_ & _ & Htr & _) & _) & _).
  cbv zeta. split; [exact Hs|]. split; [exact Hl | exact Htr].
Defined.

Lemma X6_witness :
  let r := RomeFileSetAttrSize cfg core_strict (Some profile) (Some "ROWS") 6 w0 in
  fst r = RX_FAILURE /\
  model r.2 = <["ROWS"%string := ["0"; "0"; "0"; "0"; "0"]%string]> m0 /\
  m_stack (Engine (App r.2)) = ["ROWS"%string].
Proof.
  pose proof (X6_resize_fault_not_undone cfg core_strict profile "ROWS" 6 w0 "ROWS" m0 []
                1 (<["ROWS"%string := ["0"; "0"; "0"; "0"; "0"]%string]> m0) ["ROWS"%string]
                ltac:(reflexivity) ltac:(vm_compute; reflexivity)
                ltac:(vm_compute; reflexivity) ltac:(reflexivity) ltac:(reflexivity)
                ltac:(vm_compute; discriminate)
                ltac:(vm_compute; split; discriminate)
                ltac:(vm_compute; reflexivity) ltac:(vm_compute; reflexivity)) as H.
  cbv zeta in H. destruct H as (Hr & Hm & Hs & _).
  cbv zeta. split; [exact Hr|]. split; [exact Hm | exact Hs].
Defined.

Lemma X7_witness :
  fst (RomeFileGetAttrSize cfg_zero core (Some new_profile) (Some "CLAY") w0) = 0 /\
  fst (RomeFileGetAttrSizeEx cfg core (Some new_profile) (Some "CLAY") w0) = RX_FAILURE.
Proof.
  pose proof (X7_zero_size_of_missing_attr cfg_zero core new_profile "CLAY" w0 m0 []
                ltac:(reflexivity) ltac:(vm_compute; reflexivity)
                ltac:(vm_compute; reflexivity) ltac:(reflexivity) ltac:(reflexivity)) as Hz.
  pose proof (X7_zero_size_of_missing_attr cfg core new_profile "CLAY" w0 m0 []
                ltac:(reflexivity) ltac:(vm_compute; reflexivity)
                ltac:(vm_compute; reflexivity) ltac:(reflexivity) ltac:(reflexivity)) as Hn.
  cbv zeta in Hz, Hn.
  destruct Hz as (Hz & _). destruct Hn as (_ & Hn).
  destruct (Hz eq_refl) as (Hs & _). destruct (Hn eq_refl) as (_ & Hl & _).
  split; [exact Hs | exact Hl].
Defined.

Lemma X8_witness :
  let r := RomeInit cfg core_strict (Some lone_quote) (world 1 []) in
  fst r = AppNull /\
  HasFlag (App r.2) DLLSTATE_INITROME = false /\
  last_error r.2 = "RomeInit: failed to parse command line arguments."%string.
Proof.
  pose proof (X8_RomeInit_parse_failure cfg core_strict (Some lone_quote) (world 1 [])
                ltac:(reflexivity) ltac:(reflexivity) ltac:(reflexivity)) as H.
  cbv zeta in H. destruct H as (Hr & _ & Hflags & _ & _ & Htext).
  cbv zeta. split; [exact Hr|]. split.
  - unfold HasFlag. rewrite Hflags. reflexivity.
  - rewrite Htext. reflexivity.
Defined.

Lemma X9_witness :
  fst (RomeExit core AppNull w0) = RX_FALSE /\
  fst (RomeExit core_strict AppGlobal w_locked) = RX_FALSE /\
  fst (RomeExit core AppGlobal (snd (RomeExit core AppGlobal w0))) = RX_FALSE.
Proof.
  destruct (X9_RomeExit_refused core w0) as (Hbad & _ & Htwice).
  destruct (X9_RomeExit_refused core_strict w_locked) as (_ & Hfault & _).
  split; [exact (proj1 (Hbad AppNull ltac:(left; discriminate)))|].
  split; [exact (proj1 (Hfault eq_refl eq_refl))|].
  exact (proj1 (Htwice AppGlobal eq_refl)).
Defined.

Lemma X10_witness :
  let w := world 1 [DLLSTATE_CLOSED; DLLSTATE_INITROME] in
  RomeSetLastError cfg AppGlobal (Some "a"%string) w = (RX_FALSE, w) /\
  fst (RomeGetLastError cfg AppNull (snd (RomeSetLastError cfg AppNull (Some "a"%string) w)))
  = None /\
  last_error (snd (RomeSetLastError cfg AppGlobal None
                     (snd (RomeSetLastError cfg AppGlobal (Some "a"%string) w0))))
  = EmptyString.
Proof.
  destruct (X10_error_channel_refusals cfg (world 1 [DLLSTATE_CLOSED; DLLSTATE_INITROME]))
    as (_ & _ & Hclosed & _).
  destruct (Hclosed eq_refl) as (Hset & _ & Hlost).
  destruct (X10_error_channel_refusals cfg
              (snd (RomeSetLastError cfg AppGlobal (Some "a"%string) w0)))
    as (_ & _ & _ & Hclear).
  cbv zeta. split; [apply Hset|]. split; [apply (Hlost (Some "a"%string) AppNull)|].
  exact (proj2 (Hclear AppGlobal eq_refl)).
Defined.

Lemma X11_witness :
  let w := snd (RomeFileSetAttrSize cfg core (Some profile) (Some "ROWS") 0 w0) in
  last_error w = "RomeFileSetAttrSize: zero size."%string /\
  fst (RomeGetLastError cfg AppGlobal
         (snd (RomeFileGetAttrSizeEx cfg core (Some profile) (Some "ROWS") w)))
  = Some "RomeFileSetAttrSize: zero size."%string.
Proof.
  pose proof (X11_success_keeps_error_text cfg core profile "ROWS"
                (snd (RomeFileSetAttrSize cfg core (Some profile) (Some "ROWS") 0 w0))
                "ROWS" m0 []
                ltac:(reflexivity) ltac:(vm_compute; reflexivity)
                ltac:(vm_compute; reflexivity) ltac:(reflexivity)) as H.
  cbv zeta in H. destruct H as (Hex & _).
  cbv zeta. split; [reflexivity | exact Hex].
Defined.

Lemma files_targets_listed (name : string) (m : Model) (pFile : WalkFile) (m' : Model) :
  OpenFile_ fsys name m = (Some pFile, m') ->
  incl (file_targets pFile) ["soils\loam"; "climates\knoxville"; "profiles\default"]%string.
Proof.
  intros Hopen.
  assert (Hfind : lookup_file name files = Some pFile).
  { change (OpenFile_ fsys name m) with (lookup_file name files, m) in Hopen.
    congruence. }
  apply lookup_file_In in Hfind. simpl in Hfind.
  destruct Hfind as [<- | [<- | [<- | []]]]; intros a Ha; simpl in Ha; simpl; tauto.
Qed.

Lemma X12_witness :
  exists array,
    depsArray
      (snd (fst (default (0, mkDepsOut None 0, w0)
                   (RomeFilesGetDependencies core fsys 10 (Some the_files)
                      (Some "profiles\default"%string) (mkDepsOut None 0) w0))))
    = Some array /\
    List.NoDup array /\
    forall d, In d array ->
              exists n pFile,
                In (n, pFile) (walk_opened fsys 10 ["profiles\default"%string] []
                                 (settled_model core w0)) /\
                In d (file_targets pFile).
Proof.
  assert (Hcall : exists w',
             RomeFilesGetDependencies core fsys 10 (Some the_files)
               (Some "profiles\default"%string) (mkDepsOut None 0) w0
             = Some (1, mkDepsOut (Some ["soils\loam"; "climates\knoxville"]%string) 2, w')).
  { vm_compute. eexists. reflexivity. }
  destruct Hcall as (w' & Hcall).
  destruct (X12_dependencies_distinct_targets core fsys
              ltac:(intros l s; apply array_find_absent; lia)
              10%nat (Some the_files) (Some "profiles\default"%string) (mkDepsOut None 0)
              _ w0 w' Hcall) as (name & array & Hname & Harray & _ & Hnd & Hfrom).
  injection Hname as <-.
  exists array. rewrite Hcall. split; [exact Harray|]. split; [exact Hnd | exact Hfrom].
Defined.

Lemma X13_witness :
  (exists w',
      RomeFilesGetDependencies core fsys 10 (Some the_files) (Some "climates\knoxville"%string)
        (mkDepsOut None 0) w0
      = Some (RX_FALSE, mkDepsOut None (-1), w') /\
      last_error w'
      = "RomeFilesGetDependecies: exception for File = 'climates\knoxville'."%string) /\
  RomeFilesGetDependencies core fsys 10 (Some the_files) (Some "nowhere"%string)
    (mkDepsOut None 0) w0 = None.
Proof.
  pose proof (X13_dependencies_of_plain_file core fsys 10 the_files "climates\knoxville"
                (mkDepsOut None 0) w0
                ltac:(reflexivity) ltac:(reflexivity) ltac:(reflexivity) ltac:(lia)) as H.
  pose proof (X13_dependencies_of_plain_file core fsys 10 the_files "nowhere"
                (mkDepsOut None 0) w0
                ltac:(reflexivity) ltac:(reflexivity) ltac:(reflexivity) ltac:(lia)) as Hn.
  cbv zeta in H, Hn. destruct H as (Hplain & _). destruct Hn as (_ & Hnull).
  split.
  - destruct (Hplain (mkWalkFile [mkWalkAttr None []]) m0
                ltac:(vm_compute; reflexivity) ltac:(reflexivity))
      as (w' & Hcall & Htext & _).
    exists w'. split; [exact Hcall | exact Htext].
  - exact (proj2 (Hnull m0 ltac:(vm_compute; reflexivity))).
Defined.

Lemma X14_witness :
  RomeFilesGetDependencies core fsys 5 (Some the_files) (Some "soils\loam"%string)
    (mkDepsOut None 0) w0 <> None /\
  walk fsys 5 ["nowhere"%string] [] m0 <> WalkOutOfFuel.
Proof.
  destruct (X14_dependencies_returns core fsys
              ["soils\loam"; "climates\knoxville"; "profiles\default"]%string
              ltac:(intros l s; apply array_find_absent; lia)
              files_targets_listed
              (Some the_files) (Some "soils\loam"%string) (mkDepsOut None 0) w0 5%nat
              ltac:(simpl; lia)) as (Hends & Hreturns).
  split; [|apply Hends].
  destruct Hreturns as (r & out' & w' & Hcall & _).
  - intros name n m Hname Hn. injection Hname as <-.
    simpl in Hn. destruct Hn as [<- | [<- | [<- | [<- | []]]]]; cbn; discriminate.
  - rewrite Hcall. discriminate.
Defined.

Lemma X16_witness :
  RomeCatalogGetAttrType cfg core cat AppGlobal (Some "CLAY"%string) w0 = (Some ATTR_INT, w0) /\
  RomeCatalogGetAttrTag cfg core cat AppGlobal (Some "CLAY"%string) w0
  = (Some "INT"%string, w0).
Proof.
  destruct (X16_catalog_type_and_tag cfg core cat (Some "CLAY"%string) "CLAY"%string w0
              eq_refl eq_refl eq_refl eq_refl) as (Htag & Htype & _).
  destruct (Htype ["SOIL"%string] eq_refl) as [Ht _].
  split; [exact Ht|]. rewrite Htag, Ht. reflexivity.
Defined.

Lemma X17_witness :
  refused w0
    (RomeFilesOpen cfg build flags store (Some the_files) (Some "#entry_none"%string) 0 w0)
    None "RomeFilesOpen: attempt to open file '#ENTRY_NONE'."%string.
Proof.
  exact (X17_files_open_reserved_names cfg build flags store the_files "#entry_none"%string 0
           w0 eq_refl).
Defined.

Lemma X18_witness :
  RomeFilesOpen cfg build flags store (Some the_files) (Some "#FILESET:all"%string) 0 w0
  = (None, core_effect (<["#fileset" := ["all"%string]]> m0) [] w0).
Proof.
  destruct (X18_files_open_fileset cfg build flags store (Some the_files)
              "#FILESET:all"%string 0 w0 eq_refl eq_refl) as [_ H].
  apply (H the_files true); first [reflexivity | intros Hc; discriminate Hc].
Defined.




Lemma X23_witness :
  fst (RomeDatabaseOpen cfg flags store (Some the_files) (Some "moses.gdb"%string) w0) = 1 /\
  fst (RomeDatabaseOpen cfg flags store (Some the_files) (Some "moses.gdb"%string) w_open)
  = RX_FALSE.
Proof.
  split.
  - destruct (X23_database_open_closes_first cfg flags store the_files
                (Some "moses.gdb"%string) None w0 m0 [] eq_refl eq_refl
                ltac:(intros Hc; discriminate Hc) eq_refl) as [_ H].
    destruct (H 1 (delete "#database"%string m0) eq_refl eq_refl) as [_ Hopened].
    rewrite Hopened. reflexivity.
  - destruct (X23_database_open_closes_first cfg flags store the_files
                (Some "moses.gdb"%string) None w_open m_open [] eq_refl eq_refl
                ltac:(intros Hc; discriminate Hc) eq_refl) as [H _].
    destruct (H eq_refl) as [_ Hopened].
    rewrite Hopened. reflexivity.
Defined.

Lemma X24_witness :
  fst (RomeProgressCreate cfg build_moses core frame true 10 10 1 w0) = RX_FALSE /\
  fst (RomeProgressCreate cfg build core frame true 0 100 1 w0) = RX_FALSE.
Proof.
  split.
  - apply (X24_progress_create_refusals cfg build_moses core frame true 10 10 1 w0).
    right; right; right; left. lia.
  - apply (X24_progress_create_refusals cfg build core frame true 0 100 1 w0).
    left. reflexivity.
Defined.

Lemma X25_witness :
  fst (RomeFileGetFloatArray cfg build core frame (Some profile) (Some "ROWS"%string)
         (Some [7; 7]) (Some 0) 0 EmptyString w0) = Some (RX_FALSE, Some [7; 7], Some 0) /\
  fst (RomeFileGetFloatArray cfg build core frame (Some profile) (Some "ROWS"%string)
         (Some [7; 7]) (Some (-2)) 0 EmptyString w0) = Some (1, Some [], Some 4) /\
  fst (RomeFileGetFloatArray cfg build_debug core frame (Some soil) (Some "CLAY"%string)
         (Some [7; 7]) (Some 2) 0 EmptyString w0) = None.
Proof.
  destruct (X25_float_array_read cfg build core frame profile "ROWS"%string [7; 7] (-2) 0
              EmptyString w0 eq_refl eq_refl eq_refl) as (Hzero & _ & Hread & _).
  destruct (X25_float_array_read cfg build_debug core frame soil "CLAY"%string [7; 7] 2 0
              EmptyString w0 eq_refl eq_refl eq_refl) as (_ & _ & _ & Hstop).
  split; [exact (f_equal fst Hzero)|].
  split; [exact (f_equal fst (Hread ltac:(lia) "ROWS"%string m0 1 [] 4 eq_refl eq_refl))|].
  exact (Hstop ltac:(lia) eq_refl "CLAY"%string (<["CLAY"%string := ["0"%string]]> m0)
           "CLAY"%string [] eq_refl).
Defined.

End Instances.
